(** * SCPI instrument control: the measurement sequencers

    A shallow embedding of the acquisition core of the Bode plotter
    ([bode_core.py]) and of the spectrum analyzer ([spectrum_core.py]),
    together with the properties their specification states about them,
    and of the functions around the two cores: the download of the
    oscilloscope driver ([owon_vds_scpi.py]), the configuration dialogue
    and the configuration file, the saving of the results, the naming of
    the files, and the main program of the Bode plotter
    ([bode_plotter.py]) as the instruments see it.

    Conventions of the embedding.
    - A Python [float] is idealised as an exact rational ([Q]) in the Bode
      plotter and as a real ([R]) in the parts that need logarithms, square
      roots or the Fourier transform; rounding, NaN and the infinities are
      outside that idealisation.  Where the last bit or a NaN decides
      what the program does (the choice of the timebase in the Bode
      plotter, the checks of its configuration dialogue) the model
      computes as Python does, in IEEE 754 binary64, with the primitive
      floats of the kernel.
    - Instrument traffic is a trace of events; Python exceptions are values
      of [exn] carried by a small state-and-exception monad.
    - Library functions that are not code of the repository ([float()],
      [int()], [math.log10], the power function of [numpy.logspace]) are
      fields of the [Runtime] class; [float()] as a double is a variable
      of the dialogue.
    - The console is the list of the lines typed at the prompts; a file is
      seen through what the library calls make of it ([os.path.exists],
      [json.load], the rows handed to the CSV writer).

    Part I holds the definitions, Part II the theorems. *)

From Stdlib Require Import QArith Qround Qabs Qminmax ZArith List Ascii String Bool.
From Stdlib Require Import Lia Lqa.
From Stdlib Require Reals Lra.
From Stdlib.Strings Require Byte.
From Stdlib Require DecimalString.
From Corelib Require PrimFloat SpecFloat FloatOps FloatAxioms.
Import ListNotations.

(* The decimal constants of the programs are rounded to binary64 when they
   are read, as they are by Python. *)
Set Warnings "-inexact-float".

(* ================================================================== *)
(** * Part I: definitions                                              *)
(* ================================================================== *)

(** ** Python values and exceptions *)

Module Py.

(** The exception classes the two programs can meet.  In Python
    [KeyboardInterrupt] derives from [BaseException] only, so a handler
    [except Exception] lets it through. *)
Inductive exn : Type :=
| KeyboardInterrupt
| ConnectionError
| ValueError
| TypeError
| AttributeError
| ZeroDivisionError.

Definition is_Exception (e : exn) : bool :=
  match e with
  | KeyboardInterrupt => false
  | _ => true
  end.

Definition exn_eqb (a b : exn) : bool :=
  match a, b with
  | KeyboardInterrupt, KeyboardInterrupt
  | ConnectionError, ConnectionError
  | ValueError, ValueError
  | TypeError, TypeError
  | AttributeError, AttributeError
  | ZeroDivisionError, ZeroDivisionError => true
  | _, _ => false
  end.

(** The result of evaluating an expression or running a statement. *)
Inductive outcome (A : Type) : Type :=
| Ok (a : A)
| Raise (e : exn).
Arguments Ok {A} a.
Arguments Raise {A} e.

(** Comparisons of floats, as booleans. *)
Definition Qleb (x y : Q) : bool := Qle_bool x y.
Definition Qltb (x y : Q) : bool := negb (Qle_bool y x).
Definition Qgtb (x y : Q) : bool := Qltb y x.
Definition Qgeb (x y : Q) : bool := Qleb y x.

(** [max(a, b)] and [min(a, b)]: the first argument wins a tie. *)
Definition py_max (a b : Q) : Q := if Qgtb b a then b else a.
Definition py_min (a b : Q) : Q := if Qltb b a then b else a.

(** [sum(l)]: a left fold that starts from 0. *)
Definition py_sum (l : list Q) : Q := fold_left Qplus l 0.

(** [len(l)] as a float. *)
Definition py_len (l : list Q) : Q := inject_Z (Z.of_nat (List.length l)).

(** [a / b] raises on a zero divisor. *)
Definition py_truediv (a b : Q) : outcome Q :=
  if Qeq_bool b 0 then Raise ZeroDivisionError else Ok (a / b).

(** [a % b] for a positive [b]: the result carries the sign of the
    divisor, [a - b * floor(a / b)]. *)
Definition py_mod (a b : Q) : Q := a - b * inject_Z (Qfloor (a / b)).

(** [sorted(l)]: insertion sort on floats. *)
Fixpoint insert_sorted (x : Q) (l : list Q) : list Q :=
  match l with
  | [] => [x]
  | y :: l' => if Qleb x y then x :: l else y :: insert_sorted x l'
  end.

Definition py_sorted (l : list Q) : list Q :=
  fold_right insert_sorted [] l.

(** Strictly increasing lists, used to state that a table is ordered. *)
Fixpoint increasingb (l : list Q) : bool :=
  match l with
  | x :: ((y :: _) as rest) => Qltb x y && increasingb rest
  | _ => true
  end.

(** The library functions the programs call.  [float_of_string] is
    [float(s)] and [int_of_string] is [int(s)] on a string, [None] standing
    for [ValueError]; [log10] is [math.log10] on its domain; [pow10] is
    [10 ** y]. *)
Class Runtime : Type := {
  float_of_string : string -> option Q;
  int_of_string : string -> option Z;
  log10 : Q -> Q;
  pow10 : Q -> Q
}.

(** [float(x)] and [int(x)] on what a query handed back: [None] is not a
    string and raises [TypeError]. *)
Definition py_float `{Runtime} (x : option string) : outcome Q :=
  match x with
  | None => Raise TypeError
  | Some s =>
      match float_of_string s with
      | Some v => Ok v
      | None => Raise ValueError
      end
  end.

Definition py_int `{Runtime} (s : string) : outcome Z :=
  match int_of_string s with
  | Some v => Ok v
  | None => Raise ValueError
  end.

(** [s.upper()] on ASCII letters. *)
Definition ascii_upper (c : Ascii.ascii) : Ascii.ascii :=
  let n := Ascii.nat_of_ascii c in
  if (97 <=? n)%nat && (n <=? 122)%nat then Ascii.ascii_of_nat (n - 32)
  else c.

Fixpoint upper (s : string) : string :=
  match s with
  | EmptyString => EmptyString
  | String c rest => String (ascii_upper c) (upper rest)
  end.

(** [s.replace(c, '')] for a single character [c]. *)
Fixpoint remove_char (c : Ascii.ascii) (s : string) : string :=
  match s with
  | EmptyString => EmptyString
  | String d rest =>
      if Ascii.eqb c d then remove_char c rest
      else String d (remove_char c rest)
  end.

(** [needle in s]. *)
Definition contains (needle s : string) : bool :=
  match String.index 0 needle s with
  | Some _ => true
  | None => false
  end.

(** [math.log10(x)]: a domain error outside the positive numbers. *)
Definition math_log10 `{Runtime} (x : Q) : outcome Q :=
  if Qleb x 0 then Raise ValueError else Ok (log10 x).

End Py.

(** ** Doubles

    The binary64 numbers of Python, for the computations whose outcome
    hangs on the rounding.  The arithmetic and the comparisons are the
    primitive ones; a comparison is false when an operand is NaN. *)

Module Double.
Import PrimFloat.
Local Open Scope float_scope.

(** [a >= b]. *)
Definition geb (a b : float) : bool := b <=? a.

(** [sorted(l)]: insertion sort on doubles. *)
Fixpoint insert_sorted (x : float) (l : list float) : list float :=
  match l with
  | [] => [x]
  | y :: l' => if x <=? y then x :: l else y :: insert_sorted x l'
  end.

Definition sorted (l : list float) : list float :=
  fold_right insert_sorted [] l.

(** Strictly increasing lists. *)
Fixpoint increasingb (l : list float) : bool :=
  match l with
  | x :: ((y :: _) as rest) => (x <? y) && increasingb rest
  | _ => true
  end.

(** An integer as an unrounded binary number. *)
Definition of_Z (n : Z) : SpecFloat.spec_float :=
  match n with
  | Z0 => SpecFloat.S754_zero false
  | Zpos p => SpecFloat.S754_finite false p 0
  | Zneg p => SpecFloat.S754_finite true p 0
  end.

(** The double of an idealised value: the binary64 number nearest to the
    fraction, ties to even (an infinity beyond the range), which is what
    Python's [n / d] gives for the two integers. *)
Definition nearest (q : Q) : float :=
  FloatOps.SF2Prim
    (SpecFloat.SFdiv FloatOps.prec FloatOps.emax
       (of_Z (Qnum q)) (of_Z (Zpos (Qden q)))).

(** The rational that a finite double is ([0] for NaN and the infinities,
    which no entry of a table is). *)
Definition exact (x : float) : Q :=
  match FloatOps.Prim2SF x with
  | SpecFloat.S754_finite s m e =>
      let magnitude :=
        match e with
        | Zneg p => Qmake (Zpos m) (2 ^ p)
        | _ => inject_Z (Zpos m * 2 ^ e)
        end in
      if s then Qopp magnitude else magnitude
  | _ => 0%Q
  end.

End Double.

(** ** State and exceptions

    A statement is a function from the state to an outcome and the state
    it leaves, the state being kept when an exception is raised. *)

Module Eff.
Import Py.

Definition M (S A : Type) : Type := S -> outcome A * S.

Definition ret {S A : Type} (a : A) : M S A := fun s => (Ok a, s).

Definition bind {S A B : Type} (m : M S A) (k : A -> M S B) : M S B :=
  fun s =>
    match m s with
    | (Ok a, s') => k a s'
    | (Raise e, s') => (Raise e, s')
    end.

Definition raise {S A : Type} (e : exn) : M S A := fun s => (Raise e, s).

Definition gets {S A : Type} (f : S -> A) : M S A := fun s => (Ok (f s), s).

Definition modify {S : Type} (f : S -> S) : M S unit := fun s => (Ok tt, f s).

(** An expression that may raise, used as a statement. *)
Definition eval {S A : Type} (o : outcome A) : M S A := fun s => (o, s).

(** [try: body / except <classes>: handler]. *)
Definition try_except {S A : Type} (body : M S A) (handles : exn -> bool)
    (handler : exn -> M S A) : M S A :=
  fun s =>
    match body s with
    | (Ok a, s') => (Ok a, s')
    | (Raise e, s') => if handles e then handler e s' else (Raise e, s')
    end.

(** [try: body / finally: cleanup]: the cleanup always runs; what it
    raises replaces the outcome of the body. *)
Definition try_finally {S A : Type} (body : M S A) (cleanup : M S unit)
    : M S A :=
  fun s =>
    match body s with
    | (r, s') =>
        match cleanup s' with
        | (Ok _, s'') => (r, s'')
        | (Raise e, s'') => (Raise e, s'')
        end
    end.

(** [for x in xs: body], the loop variables being threaded through. *)
Fixpoint for_loop {S X V : Type} (xs : list X) (vars : V)
    (body : X -> V -> M S V) : M S V :=
  match xs with
  | [] => ret vars
  | x :: rest => bind (body x vars) (fun vars' => for_loop rest vars' body)
  end.

(** A statement of a component run inside a larger state. *)
Definition zoom {S T A : Type} (get : T -> S) (set : S -> T -> T)
    (m : M S A) : M T A :=
  fun t => match m (get t) with (r, s') => (r, set s' t) end.

(** [range(n)] for an [int]. *)
Definition range (n : Z) : list nat := seq 0 (Z.to_nat n).

(** A statement that leaves an observation of the state (the connection
    flags, say) as it was, whatever its outcome. *)
Definition keeps {S L A : Type} (links : S -> L) (m : M S A) : Prop :=
  forall s, links (snd (m s)) = links s.

Declare Scope eff_scope.
Delimit Scope eff_scope with eff.
Notation "x <- m ;; k" := (bind m (fun x => k))
  (at level 61, m at next level, right associativity) : eff_scope.
Notation "' pat <- m ;; k" := (bind m (fun x => match x with pat => k end))
  (at level 61, pat pattern, m at next level, right associativity) : eff_scope.
Notation "m ;; k" := (bind m (fun _ => k))
  (at level 61, right associativity) : eff_scope.

End Eff.

(** ** The instruments as seen from the programs

    The generator and the oscilloscope are observed through the commands
    they are sent.  A driver refuses to send on a closed connection
    ([_ensure_connection] raises [ConnectionError]); a connection does not
    open or close during a run (the failure of a transmission, which the
    drivers print and answer by closing the connection, is not modelled). *)

Module Bench.
Import Py Eff.

Inductive gen_cmd : Type :=
| SetShape (shape : string)
| SetAmplitude (vpp : Q)
| SetImpedance (ohms : string)
| SetOffsetVolts (volts : string)
| SetOutputState (state : string)
| SetFrequencyFixed (hz : Q).

Inductive scope_cmd : Type :=
| ChannelDisplay (ch : nat) (on : bool)
| ChannelCoupling (ch : nat) (coupling : string)
| ChannelProbe (ch : nat) (atten : string)
| ChannelScale (ch : nat) (volts : Q)
| ChannelOffset (ch : nat) (pixels : Z)
| AcquireType (acq_type : string)
| TriggerMode (mode : string)
| TriggerEdgeSource (source : string)
| TimebaseScale (scale : string)
| RUN
| STOP
| MeasureDeleteAll
| MeasureSource (source : string)
| MeasureAdd (item : string).

Inductive event : Type :=
| ToGen (c : gen_cmd)
| ToScope (c : scope_cmd)
| Sleep (seconds : Q)
| Polled (item : string) (n : nat)
| Queried (what : string)
| AskedUser.

Record bench : Type := {
  trace : list event;
  gen_link : bool;
  scope_link : bool
}.

Definition add_event (e : event) (b : bench) : bench :=
  {| trace := trace b ++ [e];
     gen_link := gen_link b;
     scope_link := scope_link b |}.

Definition emit (e : event) : M bench unit := modify (add_event e).

(** [time.sleep(seconds)]. *)
Definition sleep (seconds : Q) : M bench unit := emit (Sleep seconds).

(** A set command of the oscilloscope driver. *)
Definition scope_send (c : scope_cmd) : M bench unit :=
  fun b =>
    if scope_link b then emit (ToScope c) b else (Raise ConnectionError, b).

(** A set command of the generator driver. *)
Definition gen_send (c : gen_cmd) : M bench unit :=
  fun b =>
    if gen_link b then emit (ToGen c) b else (Raise ConnectionError, b).

(** The event of a [*RUN] sent to the oscilloscope. *)
Definition is_RUN (e : event) : bool :=
  match e with
  | ToScope RUN => true
  | _ => false
  end.

(** The trigger mode and the acquisition type the oscilloscope was last
    sent, if any. *)
Fixpoint last_trigger_mode (t : list event) (before : option string)
    : option string :=
  match t with
  | [] => before
  | ToScope (TriggerMode mode) :: rest => last_trigger_mode rest (Some mode)
  | _ :: rest => last_trigger_mode rest before
  end.

Fixpoint last_acquire_type (t : list event) (before : option string)
    : option string :=
  match t with
  | [] => before
  | ToScope (AcquireType acq_type) :: rest =>
      last_acquire_type rest (Some acq_type)
  | _ :: rest => last_acquire_type rest before
  end.

(** The two connection flags. *)
Definition bench_links (b : bench) : bool * bool :=
  (gen_link b, scope_link b).

(** Whether the oscilloscope acquires, given what it did before the
    trace: [*RUN] starts it, [*STOP] halts it, nothing else matters. *)
Fixpoint scope_running (before : bool) (t : list event) : bool :=
  match t with
  | [] => before
  | ToScope RUN :: rest => scope_running true rest
  | ToScope STOP :: rest => scope_running false rest
  | _ :: rest => scope_running before rest
  end.

End Bench.

(** ** The Bode plotter core ([bode_core.py]) *)

Module Bode.
Import Py Eff Bench.
Local Open Scope Q_scope.
Local Open Scope string_scope.

(** *** Timebase selection

    Computed in binary64: at 100 kHz the ideal value comes out one unit
    in the last place above [2e-6], and the next entry is chosen. *)

Section Timebase.
Import PrimFloat.
Local Open Scope float_scope.

Definition VDS_TIMEBASE_MAP : list (float * string) :=
  [ (5e-9, "5ns"); (10e-9, "10ns"); (20e-9, "20ns"); (50e-9, "50ns");
    (100e-9, "100ns"); (200e-9, "200ns"); (500e-9, "500ns");
    (1e-6, "1us"); (2e-6, "2us"); (5e-6, "5us");
    (10e-6, "10us"); (20e-6, "20us"); (50e-6, "50us");
    (100e-6, "100us"); (200e-6, "200us"); (500e-6, "500us");
    (1e-3, "1ms"); (2e-3, "2ms"); (5e-3, "5ms");
    (10e-3, "10ms"); (20e-3, "20ms"); (50e-3, "50ms");
    (100e-3, "100ms"); (200e-3, "200ms"); (500e-3, "500ms");
    (1.0, "1s"); (2.0, "2s"); (5.0, "5s");
    (10.0, "10s"); (20.0, "20s"); (50.0, "50s"); (100.0, "100s") ].

Definition VALID_TIMEBASES : list float :=
  Double.sorted (map fst VDS_TIMEBASE_MAP).

(** [VDS_TIMEBASE_MAP[t]]; the empty string stands for [KeyError], which
    no key taken from [VALID_TIMEBASES] can raise. *)
Definition timebase_label (t : float) : string :=
  match find (fun kv => fst kv =? t) VDS_TIMEBASE_MAP with
  | Some kv => snd kv
  | None => ""
  end.

(** The [for] loop of [get_optimal_timebase]: the first entry that is at
    least the ideal value, if the loop returns at all. *)
Fixpoint first_at_least (ideal : float) (l : list float) : option float :=
  match l with
  | [] => None
  | t_base_sec :: rest =>
      if Double.geb t_base_sec ideal then Some t_base_sec
      else first_at_least ideal rest
  end.

Definition get_optimal_timebase (freq : float) : string * float :=
  if freq <=? 0 then ("1s", 1.0)
  else
    let period := 1.0 / freq in
    let ideal_time_per_div := (period * 2.0) / 10.0 in
    match first_at_least ideal_time_per_div VALID_TIMEBASES with
    | Some t_base_sec => (timebase_label t_base_sec, t_base_sec)
    | None =>
        let t_base_sec := last VALID_TIMEBASES 0 in
        (timebase_label t_base_sec, t_base_sec)
    end.

End Timebase.

(** *** The polling reader *)

(** What one call of the measurement function does: the driver hands back
    a string, hands back [None] (its own socket timeout), or raises. *)
Inductive reply : Type :=
| Text (val_str : string)
| NoData
| Throws (e : exn).

(** One call: how many seconds it lasted and what came of it. *)
Record attempt : Type := {
  took : Q;
  answer : reply
}.

(** What [read_measurement_with_polling] hands to its caller, and how many
    times it called the measurement function. *)
Record polled : Type := {
  returned : outcome (option Q);
  calls : nat
}.

Section PollingReader.
Context `{Runtime}.

(** The two statements under the [try]: the call, then [float(val_str)],
    which raises [ValueError] on an unparseable string and [TypeError] on
    [None].  What the call raises is raised under the [try] as well. *)
Definition call_and_convert (a : attempt) : outcome Q :=
  match answer a with
  | Text val_str => py_float (Some val_str)
  | NoData => py_float None
  | Throws e => Raise e
  end.

(** The [while] loop.  [scope_measure_func k] is the k-th call of the
    measurement function, [now] is [time.time() - start_time] at the loop
    test.  The first handler, [except ValueError: pass], takes every
    [ValueError] raised under the [try], by [float()] or by the call
    itself, and the loop sleeps 0.25 s and goes round again; the second,
    [except Exception], ends the read with [None]; what is not an
    [Exception] propagates. *)
Fixpoint polling_loop (fuel : nat) (scope_measure_func : nat -> attempt)
    (timeout_sec : Q) (now : Q) (k : nat) : option polled :=
  match fuel with
  | O => None
  | S fuel' =>
      if Qltb now timeout_sec then
        let a := scope_measure_func k in
        match call_and_convert a with
        | Ok val_float =>
            Some {| returned := Ok (Some val_float); calls := S k |}
        | Raise e =>
            if exn_eqb e ValueError
            then polling_loop fuel' scope_measure_func timeout_sec
                   (now + took a + 0.25) (S k)
            else if is_Exception e
            then Some {| returned := Ok None; calls := S k |}
            else Some {| returned := Raise e; calls := S k |}
        end
      else Some {| returned := Ok None; calls := k |}
  end.

(** Every retry sleeps 0.25 s, so a timeout admits at most
    [ceil(timeout / 0.25)] retries and one last loop test. *)
Definition polling_fuel (timeout_sec : Q) : nat :=
  S (Z.to_nat (Qceiling (timeout_sec / 0.25))).

Definition read_measurement_with_polling
    (scope_measure_func : nat -> attempt) (timeout_sec : Q) : option polled :=
  polling_loop (polling_fuel timeout_sec) scope_measure_func timeout_sec 0 0.

(** The instant of the loop test before call [k], when every earlier call
    was followed by the 0.25 s sleep. *)
Fixpoint start_of (f : nat -> attempt) (k : nat) : Q :=
  match k with
  | O => 0
  | S j => start_of f j + took (f j) + 0.25
  end.

(** A call whose string does not parse as a float. *)
Definition unparseable (a : attempt) : Prop :=
  exists s, answer a = Text s /\ float_of_string s = None.

(** A call after which the loop goes round again: its string does not
    parse, or the call itself raised [ValueError]. *)
Definition fruitless (a : attempt) : Prop :=
  unparseable a \/ answer a = Throws ValueError.

End PollingReader.

(** *** The averaging sampler *)

(** What the three polling reads of one repetition return: the peak-to-peak
    value of channel 1, that of channel 2, and the falling-edge delay. *)
Definition reading : Type := (option Q * option Q * option Q)%type.

(** [read_measurement_with_polling(scope.measure.get_<item>, n=n,
    timeout_sec=10.0)] as the sampler sees it: the reader hands back
    [polled_value]; on a closed connection the query raises
    [ConnectionError], which the reader turns into [None]. *)
Definition poll (item : string) (n : nat) (polled_value : option Q)
    : M bench (option Q) :=
  fun b =>
    (Ok (if scope_link b then polled_value else None),
     add_event (Polled item n) b).

Definition VDS_PAUSE_MEAS : Q := 0.2.

Local Open Scope eff_scope.

(** Step 1 of the sampler: the measurement items are cleared and added. *)
Definition add_measurements : M bench unit :=
  scope_send MeasureDeleteAll ;;
  sleep VDS_PAUSE_MEAS ;;
  scope_send (MeasureSource "CHAN1") ;;
  sleep VDS_PAUSE_MEAS ;;
  scope_send (MeasureAdd "PKPK") ;;
  sleep VDS_PAUSE_MEAS ;;
  scope_send (MeasureAdd "FDELay") ;;
  sleep VDS_PAUSE_MEAS ;;
  scope_send (MeasureSource "CHAN2") ;;
  sleep VDS_PAUSE_MEAS ;;
  scope_send (MeasureAdd "PKPK") ;;
  sleep VDS_PAUSE_MEAS.

(** The body of the reading loop; the loop variables are the three lists
    [vpp1_vals], [vpp2_vals] and [delay_vals], and [continue] leaves them
    as they are. *)
Definition read_once (reads : nat -> reading) (wait_per_reading : Q)
    (i : nat) (vars : list Q * list Q * list Q)
    : M bench (list Q * list Q * list Q) :=
  let '(vpp1_vals, vpp2_vals, delay_vals) := vars in
  sleep (py_min wait_per_reading 5.0) ;;
  vpp1 <- poll "PKPK" 1 (fst (fst (reads i))) ;;
  vpp2 <- poll "PKPK" 2 (snd (fst (reads i))) ;;
  delay <- poll "FDELay" 1 (snd (reads i)) ;;
  match vpp1, vpp2, delay with
  | Some vpp1, Some vpp2, Some delay =>
      if Qgtb vpp1 1e30 || Qgtb vpp2 1e30 || Qgtb (Qabs delay) 1e30
      then ret (vpp1_vals, vpp2_vals, delay_vals)
      else if Qltb vpp1 1e-9
      then ret (vpp1_vals, vpp2_vals, delay_vals)
      else ret ((vpp1_vals ++ [vpp1])%list,
                (vpp2_vals ++ [vpp2])%list,
                (delay_vals ++ [delay])%list)
  | _, _, _ => ret (vpp1_vals, vpp2_vals, delay_vals)
  end.

Definition get_measurement_avg_auto (reads : nat -> reading)
    (num_averages : Z) (t_base_sec : Q)
    : M bench (option Q * option Q * option Q) :=
  let wait_per_reading := py_max (t_base_sec * 2.0) 0.5 in
  lists <- try_except
    (add_measurements ;;
     vals <- for_loop (range num_averages) ([], [], [])
               (read_once reads wait_per_reading) ;;
     ret (Some vals))
    is_Exception
    (fun _ => ret None) ;;
  match lists with
  | None => ret (None, None, None)
  | Some (vpp1_vals, vpp2_vals, delay_vals) =>
      match vpp1_vals, vpp2_vals, delay_vals with
      | _ :: _, _ :: _, _ :: _ =>
          avg_vpp1 <- eval (py_truediv (py_sum vpp1_vals) (py_len vpp1_vals)) ;;
          avg_vpp2 <- eval (py_truediv (py_sum vpp2_vals) (py_len vpp2_vals)) ;;
          avg_delay <- eval (py_truediv (py_sum delay_vals) (py_len delay_vals)) ;;
          ret (Some avg_vpp1, Some avg_vpp2, Some avg_delay)
      | _, _, _ => ret (None, None, None)
      end
  end.

Local Close Scope eff_scope.

(** The vocabulary of the specification of the sampler. *)

(** One accepted repetition: its three values. *)
Definition sample : Type := (Q * Q * Q)%type.

Definition primary (s : sample) : Q := fst (fst s).
Definition secondary (s : sample) : Q := snd (fst s).
Definition timing (s : sample) : Q := snd s.

(** The acceptance test of the loop body: all three reads came back, no
    value is above the overload mark, and channel 1 is not below the
    floor. *)
Definition accepts (r : reading) : option sample :=
  match r with
  | (Some vpp1, Some vpp2, Some delay) =>
      if Qgtb vpp1 1e30 || Qgtb vpp2 1e30 || Qgtb (Qabs delay) 1e30
      then None
      else if Qltb vpp1 1e-9 then None
      else Some (vpp1, vpp2, delay)
  | _ => None
  end.

Fixpoint accepted_samples (reps : list reading) : list sample :=
  match reps with
  | [] => []
  | r :: rest =>
      match accepts r with
      | Some s => s :: accepted_samples rest
      | None => accepted_samples rest
      end
  end.

(** The arithmetic mean as mathematics writes it. *)
Definition arithmetic_mean (l : list Q) : Q :=
  fold_right Qplus 0 l / inject_Z (Z.of_nat (List.length l)).

(** Equality of the three outputs up to the value of the fractions. *)
Definition same_outputs (r : option Q * option Q * option Q)
    (a b c : Q) : Prop :=
  match r with
  | (Some x, Some y, Some z) => x == a /\ y == b /\ z == c
  | _ => False
  end.

(** *** The sweep *)

(** The entries of the configuration dictionary that the sweep reads. *)
Record config : Type := {
  f_start : Q;
  f_stop : Q;
  num_points : Z;
  scale : string;
  num_averages : Z;
  gen_amplitude_vpp : Q
}.

(** What happens around the program during the per-point loop: whether
    the user presses Ctrl-C while point [i] is being measured (the signal
    is taken to arrive as the iteration begins), and what the polling
    reads of repetition [k] of point [i] return. *)
Record surroundings : Type := {
  interrupt_at : nat -> bool;
  readings : nat -> nat -> reading
}.

(** The local lists of [run_full_experiment] live in the state, so that
    they outlive an exception. *)
Record sweep_state : Type := {
  instruments : bench;
  results_freq : list Q;
  results_mag : list Q;
  results_phase : list Q
}.

Definition set_instruments (b : bench) (s : sweep_state) : sweep_state :=
  {| instruments := b;
     results_freq := results_freq s;
     results_mag := results_mag s;
     results_phase := results_phase s |}.

Definition on_bench {A : Type} (m : M bench A) : M sweep_state A :=
  zoom instruments set_instruments m.

Definition clear_results (s : sweep_state) : sweep_state :=
  {| instruments := instruments s;
     results_freq := [];
     results_mag := [];
     results_phase := [] |}.

Definition append_results (freq magnitude_db phase_deg : Q) (s : sweep_state)
    : sweep_state :=
  {| instruments := instruments s;
     results_freq := (results_freq s ++ [freq])%list;
     results_mag := (results_mag s ++ [magnitude_db])%list;
     results_phase := (results_phase s ++ [phase_deg])%list |}.

(** [numpy.linspace(start, stop, num)]: evenly spaced values, the last
    one set to [stop]; a negative [num] is an error. *)
Definition linspace (start stop : Q) (num : Z) : outcome (list Q) :=
  if (num <? 0)%Z then Raise ValueError
  else
    match Z.to_nat num with
    | O => Ok []
    | S O => Ok [start]
    | S n =>
        let step := (stop - start) / inject_Z (num - 1) in
        Ok ((map (fun i => start + inject_Z (Z.of_nat i) * step) (seq 0 n)
             ++ [stop])%list)
    end.

(** [enumerate(l)]. *)
Definition enumerate {A : Type} (l : list A) : list (nat * A) :=
  combine (seq 0 (List.length l)) l.

(** The clamp of channel 1 and the ratio in decibels. *)
Definition magnitude_db `{Runtime} (vpp1 vpp2 : Q) : outcome Q :=
  let vpp1 := if Qltb vpp1 1e-9 then 1e-9 else vpp1 in
  match py_truediv vpp2 vpp1 with
  | Ok ratio =>
      match math_log10 ratio with
      | Ok lg => Ok (20 * lg)
      | Raise e => Raise e
      end
  | Raise e => Raise e
  end.

(** The phase from the delay, wrapped. *)
Definition phase_deg (delay freq : Q) : Q :=
  let phase_deg := py_mod (- delay * freq * 360.0) 360.0 in
  if Qgtb phase_deg 180.0 then phase_deg - 360.0 else phase_deg.

Definition VDS_PAUSE : Q := 0.3.
Definition STOP_WAIT : Q := 1.5.
Definition RUN_STABILIZE_WAIT : Q := 3.0.
Definition SCALE_WAIT : Q := 2.0.

Local Open Scope eff_scope.

Definition setup_initial_state (cfg : config) : M bench unit :=
  let vpp_in := gen_amplitude_vpp cfg in
  gen_send (SetShape "SINusoid") ;;
  gen_send (SetAmplitude vpp_in) ;;
  gen_send (SetImpedance "INFinity") ;;
  gen_send (SetOffsetVolts "0V") ;;
  scope_send (ChannelDisplay 1 true) ;; sleep VDS_PAUSE ;;
  scope_send (ChannelDisplay 2 true) ;; sleep VDS_PAUSE ;;
  scope_send (ChannelCoupling 1 "DC") ;; sleep VDS_PAUSE ;;
  scope_send (ChannelCoupling 2 "DC") ;; sleep VDS_PAUSE ;;
  scope_send (ChannelProbe 1 "X1") ;; sleep VDS_PAUSE ;;
  scope_send (AcquireType "SAMPle") ;; sleep VDS_PAUSE ;;
  scope_send (ChannelOffset 1 0) ;; sleep VDS_PAUSE ;;
  scope_send (ChannelOffset 2 0) ;; sleep VDS_PAUSE ;;
  gen_send (SetOutputState "ON").

Section Sweep.
Context `{Runtime}.

(** Step 2 of [run_full_experiment]. *)
Definition frequency_list (cfg : config) : outcome (list Q) :=
  if String.eqb (scale cfg) "log" then
    match math_log10 (f_start cfg) with
    | Ok lo =>
        match math_log10 (f_stop cfg) with
        | Ok hi =>
            match linspace lo hi (num_points cfg) with
            | Ok exponents => Ok (map pow10 exponents)
            | Raise e => Raise e
            end
        | Raise e => Raise e
        end
    | Raise e => Raise e
    end
  else linspace (f_start cfg) (f_stop cfg) (num_points cfg).

(** What precedes the loop once the list is known: the fixed scales, the
    trigger source, the offsets, automatic trigger, [RUN]. *)
Definition start_scope : M bench unit :=
  scope_send (ChannelScale 1 1) ;; sleep SCALE_WAIT ;;
  scope_send (TriggerEdgeSource "CH1") ;; sleep VDS_PAUSE ;;
  scope_send (ChannelScale 2 1) ;; sleep SCALE_WAIT ;;
  scope_send (ChannelOffset 1 0) ;; sleep VDS_PAUSE ;;
  scope_send (ChannelOffset 2 0) ;; sleep VDS_PAUSE ;;
  scope_send (TriggerMode "AUTO") ;; sleep VDS_PAUSE ;;
  scope_send RUN ;;
  sleep RUN_STABILIZE_WAIT.

(** The body of the per-point loop.  The frequencies of the list are
    idealised values; the timebase is chosen for the double of the
    frequency, and the sampler waits for the value of the double that was
    chosen. *)
Definition measure_point (env : surroundings) (cfg : config)
    (point : nat * Q) : M sweep_state unit :=
  let '(i, freq) := point in
  (if interrupt_at env i then raise KeyboardInterrupt else ret tt) ;;
  if Qleb freq 0 then ret tt
  else
    on_bench (gen_send (SetFrequencyFixed freq)) ;;
    let period := 1.0 / freq in
    let wait_for_signal := py_max (period * 3) 0.5 in
    on_bench (sleep (py_min wait_for_signal 5.0)) ;;
    on_bench (scope_send STOP) ;;
    on_bench (sleep STOP_WAIT) ;;
    let '(t_base_str, t_base_sec) :=
      get_optimal_timebase (Double.nearest freq) in
    on_bench (scope_send (TimebaseScale t_base_str)) ;;
    on_bench (sleep SCALE_WAIT) ;;
    '(vpp1, vpp2, delay) <-
      on_bench (get_measurement_avg_auto (readings env i)
                  (num_averages cfg) (Double.exact t_base_sec)) ;;
    match vpp1, vpp2, delay with
    | Some vpp1, Some vpp2, Some delay =>
        magnitude <- eval (magnitude_db vpp1 vpp2) ;;
        modify (append_results freq magnitude (phase_deg delay freq))
    | _, _, _ => ret tt
    end.

Definition point_loop (env : surroundings) (cfg : config)
    (points : list (nat * Q)) : M sweep_state unit :=
  for_loop points tt (fun point _ => measure_point env cfg point).

(** The [finally] clause: the generator is switched off, and whatever
    that raises is printed and dropped. *)
Definition generator_off : M sweep_state unit :=
  try_except (on_bench (gen_send (SetOutputState "OFF")))
    (fun _ => true)
    (fun _ => ret tt).

(** The statements after the [try]: the oscilloscope is put back in
    sample acquisition and automatic trigger, if it is connected. *)
Definition restore_scope : M sweep_state unit :=
  try_except
    (connected <- gets (fun s => scope_link (instruments s)) ;;
     if connected
     then on_bench (scope_send (AcquireType "SAMPle")) ;;
          on_bench (scope_send (TriggerMode "AUTO"))
     else ret tt)
    is_Exception
    (fun _ => ret tt).

(** The [try] statement with its loop, and what follows it. *)
Definition sweep_and_clean_up (env : surroundings) (cfg : config)
    (points : list (nat * Q))
    : M sweep_state (list Q * list Q * list Q * config) :=
  try_finally
    (try_except (point_loop env cfg points)
       (exn_eqb KeyboardInterrupt)
       (fun _ => ret tt))
    generator_off ;;
  restore_scope ;;
  gets (fun s => (results_freq s, results_mag s, results_phase s, cfg)).

Definition run_full_experiment (env : surroundings) (cfg : config)
    : M sweep_state (list Q * list Q * list Q * config) :=
  on_bench (setup_initial_state cfg) ;;
  freq_list <- eval (frequency_list cfg) ;;
  modify clear_results ;;
  on_bench start_scope ;;
  sweep_and_clean_up env cfg (enumerate freq_list).

End Sweep.

Local Close Scope eff_scope.

(** The vocabulary of the specification of the sweep. *)

Definition sweep_links (s : sweep_state) : bool * bool :=
  bench_links (instruments s).

(** The state with one more event in the trace. *)
Definition with_event (e : event) (s : sweep_state) : sweep_state :=
  set_instruments (add_event e (instruments s)) s.

(** The trace ends with the given events. *)
Definition ends_with (t final : list event) : Prop :=
  exists before, t = (before ++ final)%list.

(** The state in which the per-point loop starts: the instruments set
    up, the result lists empty, the oscilloscope running. *)
Definition loop_start (cfg : config) (s : sweep_state) : sweep_state :=
  snd (bind (on_bench (setup_initial_state cfg))
         (fun _ => bind (modify clear_results)
                     (fun _ => on_bench start_scope)) s).

(** What [run_full_experiment] returns for the lists of a state. *)
Definition returned_results (s : sweep_state) (cfg : config)
    : list Q * list Q * list Q * config :=
  (results_freq s, results_mag s, results_phase s, cfg).

(** The cleanup the specification asks for: the generator output off,
    then sample acquisition and automatic trigger on the oscilloscope. *)
Definition cleanup_events : list event :=
  [ ToGen (SetOutputState "OFF");
    ToScope (AcquireType "SAMPle");
    ToScope (TriggerMode "AUTO") ].

End Bode.

(** ** The logarithmic frequency list over the reals

    The branch [scale == 'log'] of step 2 of [run_full_experiment], with
    the logarithm and the power of the real numbers in place of the
    [Runtime] fields. *)

Module LogScale.
Import Py.
Import Reals.
Local Open Scope R_scope.

Definition log10 (x : R) : R := ln x / ln 10.

(** [math.log10(x)]. *)
Definition math_log10 (x : R) : outcome R :=
  if Rle_dec x 0 then Raise ValueError else Ok (log10 x).

(** [10 ** y]. *)
Definition pow10 (y : R) : R := exp (y * ln 10).

(** [numpy.linspace(start, stop, num)]. *)
Definition linspace (start stop : R) (num : Z) : outcome (list R) :=
  if (num <? 0)%Z then Raise ValueError
  else
    match Z.to_nat num with
    | O => Ok []
    | S O => Ok [start]
    | S n =>
        let step := (stop - start) / IZR (num - 1) in
        Ok (map (fun i => start + IZR (Z.of_nat i) * step) (seq 0 n)
            ++ [stop])
    end.

(** [numpy.logspace(start, stop, num)]. *)
Definition logspace (start stop : R) (num : Z) : outcome (list R) :=
  match linspace start stop num with
  | Ok exponents => Ok (map pow10 exponents)
  | Raise e => Raise e
  end.

Definition frequency_list_log (f_start f_stop : R) (num_points : Z)
    : outcome (list R) :=
  match math_log10 f_start with
  | Ok lo =>
      match math_log10 f_stop with
      | Ok hi => logspace lo hi num_points
      | Raise e => Raise e
      end
  | Raise e => Raise e
  end.

(** The vocabulary of the specification. *)

Definition strictly_increasing (l : list R) : Prop :=
  forall i j, (i < j < List.length l)%nat -> nth i l 0 < nth j l 0.

(** [a] equals [b] within the relative tolerance [rtol]. *)
Definition within_tolerance (rtol a b : R) : Prop :=
  Rabs (a - b) <= rtol * Rabs b.

End LogScale.

(** ** The spectrum analyzer core ([spectrum_core.py])

    The control flow and the timebase are computed on rationals as in the
    Bode plotter; the samples, the window and the spectra are reals. *)

Module Spectrum.
Import Py Eff Bench.
Import Reals.
Local Open Scope Q_scope.
Local Open Scope string_scope.

Record config : Type := {
  f_start : Q;
  f_stop : Q;
  resolution_hz : Q;
  num_averages : Z;
  channel : Z;
  coupling : string;
  window : string
}.

(** What the instrument and the operator do during one analysis: whether
    the operator presses Enter (or Ctrl-C) at the prompt, what the queries
    of the vertical scale and of the probe attenuation hand back, and what
    [get_adc_data] hands back at each repetition. *)
Record surroundings : Type := {
  user_confirms : bool;
  scale_reply : option string;
  probe_reply : option string;
  adc_data : nat -> option (list Z)
}.

(** The same table as in the Bode plotter. *)
Definition VDS_TIMEBASE_MAP : list (Q * string) :=
  [ (5e-9, "5ns"); (10e-9, "10ns"); (20e-9, "20ns"); (50e-9, "50ns");
    (100e-9, "100ns"); (200e-9, "200ns"); (500e-9, "500ns");
    (1e-6, "1us"); (2e-6, "2us"); (5e-6, "5us");
    (10e-6, "10us"); (20e-6, "20us"); (50e-6, "50us");
    (100e-6, "100us"); (200e-6, "200us"); (500e-6, "500us");
    (1e-3, "1ms"); (2e-3, "2ms"); (5e-3, "5ms");
    (10e-3, "10ms"); (20e-3, "20ms"); (50e-3, "50ms");
    (100e-3, "100ms"); (200e-3, "200ms"); (500e-3, "500ms");
    (1.0, "1s"); (2.0, "2s"); (5.0, "5s");
    (10.0, "10s"); (20.0, "20s"); (50.0, "50s"); (100.0, "100s") ].

Definition VALID_TIMEBASES : list Q :=
  py_sorted (map fst VDS_TIMEBASE_MAP).

Definition VDS_PAUSE : Q := 0.3.

Definition timebase_label (t : Q) : string :=
  match find (fun kv => Qeq_bool (fst kv) t) VDS_TIMEBASE_MAP with
  | Some kv => snd kv
  | None => ""
  end.

Fixpoint first_at_least (ideal : Q) (l : list Q) : option Q :=
  match l with
  | [] => None
  | t_base_sec :: rest =>
      if Qgeb t_base_sec ideal then Some t_base_sec
      else first_at_least ideal rest
  end.

(** The division raises for a resolution of zero. *)
Definition get_best_timebase (target_resolution_hz : Q)
    : outcome (string * Q) :=
  match py_truediv 1.0 (target_resolution_hz * 10.0) with
  | Raise e => Raise e
  | Ok ideal_time_per_div =>
      match first_at_least ideal_time_per_div VALID_TIMEBASES with
      | Some t_base_sec => Ok (timebase_label t_base_sec, t_base_sec)
      | None =>
          let t_base_sec := last VALID_TIMEBASES 0 in
          Ok (timebase_label t_base_sec, t_base_sec)
      end
  end.

(** [get_scope_channel]: channel 1 when asked for, channel 2 otherwise. *)
Definition get_scope_channel (cfg : config) : nat :=
  if (channel cfg =? 1)%Z then 1%nat else 2%nat.

(** *** Complex numbers and the transform *)

Definition C : Type := (R * R)%type.

Definition czero : C := (0%R, 0%R).
Definition cadd (a b : C) : C := ((fst a + fst b)%R, (snd a + snd b)%R).
Definition cscale (r : R) (a : C) : C := ((r * fst a)%R, (r * snd a)%R).
Definition cabs (a : C) : R := sqrt (fst a * fst a + snd a * snd a).
Definition csum (l : list C) : C := fold_right cadd czero l.
Definition rsum (l : list R) : R := fold_right Rplus 0%R l.

(** One bin of the discrete Fourier transform,
    [sum_n x_n * exp(-2 pi i k n / N)]. *)
Definition dft_bin (xs : list R) (k : nat) : C :=
  csum (map (fun nx : nat * R =>
               let angle := (2 * PI * INR k * INR (fst nx)
                             / INR (List.length xs))%R in
               ((snd nx * cos angle)%R, (- (snd nx * sin angle))%R))
            (combine (seq 0 (List.length xs)) xs)).

(** [np.fft.fft(xs)]. *)
Definition fft (xs : list R) : list C :=
  map (dft_bin xs) (seq 0 (List.length xs)).

(** [np.hanning(n)] and [np.ones(n)]. *)
Definition hanning (n : nat) : list R :=
  map (fun i => (0.5 - 0.5 * cos (2 * PI * INR i / INR (n - 1)))%R) (seq 0 n).

Definition ones (n : nat) : list R := repeat 1%R n.

Definition log10 (x : R) : R := (ln x / ln 10)%R.

(** *** The results from the spectra *)

Definition N : nat := 500.

(** [np.mean(np.array(all_complex_ffts), axis=0)]: bin by bin, the sum of
    the complex values divided by their number. *)
Definition mean_axis0 (rows : list (list C)) : list C :=
  map (fun k =>
         cscale (/ INR (List.length rows))
           (csum (map (fun row => nth k row czero) rows)))
      (seq 0 N).

(** [v[0] = x] on an array. *)
Definition set_first (x : R) (v : list R) : list R :=
  match v with
  | [] => []
  | _ :: rest => x :: rest
  end.

(** The statements after the check for an empty collection. *)
Definition spectrum_results (sample_rate_hz : Q)
    (all_complex_ffts : list (list C)) (window : list R)
    : list Q * list R * list R :=
  let avg_complex_fft := mean_axis0 all_complex_ffts in
  let fft_mag := map cabs (firstn (N / 2) avg_complex_fft) in
  let freq_axis_hz :=
    firstn (N / 2)
      (map (fun k => inject_Z (Z.of_nat k) * sample_rate_hz
                     / inject_Z (Z.of_nat N))
           (seq 0 N)) in
  let window_sum := rsum window in
  let v_peak := map (fun m => (m * 2 / window_sum)%R) fft_mag in
  let v_rms := map (fun p => (p / sqrt 2)%R) v_peak in
  let v_rms :=
    set_first (cabs (nth 0 avg_complex_fft czero) / window_sum)%R v_rms in
  let epsilon := (1 / 1000000000000)%R in
  let v_db := map (fun r => (20 * log10 (r + epsilon))%R) v_rms in
  (freq_axis_hz, v_rms, v_db).

(** *** The acquisition *)

Local Open Scope eff_scope.

Section Analysis.
Context `{Runtime}.

Definition setup_initial_state (cfg : config) : M bench unit :=
  let scope_ch := get_scope_channel cfg in
  scope_send (ChannelDisplay scope_ch true) ;; sleep VDS_PAUSE ;;
  let coupling := if contains "DC" (upper (coupling cfg)) then "DC" else "AC" in
  scope_send (ChannelCoupling scope_ch coupling) ;; sleep VDS_PAUSE ;;
  scope_send (ChannelProbe scope_ch "X1") ;; sleep VDS_PAUSE ;;
  scope_send (AcquireType "SAMPle") ;; sleep VDS_PAUSE ;;
  scope_send (TriggerMode "AUTO") ;; sleep VDS_PAUSE ;;
  scope_send RUN.

(** A query of the oscilloscope driver: refused on a closed connection. *)
Definition scope_query {A : Type} (what : string) (reply : A) : M bench A :=
  fun b =>
    if scope_link b then (Ok reply, add_event (Queried what) b)
    else (Raise ConnectionError, b).

(** [input(...)]: the operator presses Enter, or Ctrl-C. *)
Definition wait_for_enter (env : surroundings) : M bench unit :=
  emit AskedUser ;;
  if user_confirms env then ret tt else raise KeyboardInterrupt.

(** The body of the second [try]: the vertical scale and the probe
    attenuation are read back and parsed. *)
Definition read_back (env : surroundings) : M bench (Q * Z) :=
  v_div_str <- scope_query "SCALE?" (scale_reply env) ;;
  v_div_val <- eval (py_float v_div_str) ;;
  probe_str <- scope_query "PROBe?" (probe_reply env) ;;
  probe_val <-
    match probe_str with
    | None => raise AttributeError
    | Some probe_str => eval (py_int (remove_char "X"%char (upper probe_str)))
    end ;;
  ret (v_div_val, probe_val).

(** The body of the acquisition loop; the loop variables are the list
    [all_complex_ffts] and the last [window] computed. *)
Definition acquire_once (env : surroundings) (cfg : config) (t_base_sec : Q)
    (volts_per_step : Q) (i : nat) (vars : list (list C) * list R)
    : M bench (list (list C) * list R) :=
  let '(all_complex_ffts, last_window) := vars in
  scope_send RUN ;;
  let wait_for_acq_s := t_base_sec * 5.0 + 1.0 in
  sleep wait_for_acq_s ;;
  scope_send STOP ;;
  let wait_for_buffer_s := 2.0 in
  sleep wait_for_buffer_s ;;
  raw_data <- scope_query "ADC?" (adc_data env i) ;;
  match raw_data with
  | None => ret (all_complex_ffts, last_window)
  | Some raw_data =>
      if negb (List.length raw_data =? N)%nat
      then ret (all_complex_ffts, last_window)
      else
        let volts :=
          map (fun code => ((IZR code - 127.5) * Q2R volts_per_step)%R)
              raw_data in
        let window :=
          if contains "HANN" (window cfg) then hanning N else ones N in
        let volts_windowed :=
          map (fun vw : R * R => (fst vw * snd vw)%R) (combine volts window) in
        let complex_fft := fft volts_windowed in
        ret ((all_complex_ffts ++ [complex_fft])%list, window)
  end.

Definition run_spectrum_analysis (env : surroundings) (cfg : config)
    : M bench (option (list Q * list R * list R) * config) :=
  '(t_base_str, t_base_sec) <- eval (get_best_timebase (resolution_hz cfg)) ;;
  let total_time_s := t_base_sec * 10.0 in
  let sample_rate_hz := inject_Z (Z.of_nat N) / total_time_s in
  go_on <- try_except (wait_for_enter env ;; ret true)
             (exn_eqb KeyboardInterrupt)
             (fun _ => ret false) ;;
  if negb go_on then ret (None, cfg)
  else
    scope_send STOP ;;
    sleep 1.0 ;;
    scope_send (TimebaseScale t_base_str) ;;
    sleep 1.0 ;;
    values <- try_except (v <- read_back env ;; ret (Some v))
                is_Exception
                (fun _ => ret None) ;;
    match values with
    | None => ret (None, cfg)
    | Some (v_div_val, probe_val) =>
        let volts_per_step := (8.0 * v_div_val * inject_Z probe_val) / 255.0 in
        '(all_complex_ffts, window) <-
          for_loop (range (num_averages cfg)) ([], [])
            (acquire_once env cfg t_base_sec volts_per_step) ;;
        scope_send RUN ;;
        match all_complex_ffts with
        | [] => ret (None, cfg)
        | _ :: _ =>
            ret (Some (spectrum_results sample_rate_hz all_complex_ffts
                         window), cfg)
        end
    end.

End Analysis.

Local Close Scope eff_scope.

(** The vocabulary of the specification. *)

(** The average of the complex values of bin [k] over the repetitions. *)
Definition averaged_bin (rows : list (list C)) (k : nat) : C :=
  cscale (/ INR (List.length rows))
    (csum (map (fun row => nth k row czero) rows)).

(** The RMS value of bin [k] as the specification words it: the peak is
    the magnitude times 2 over the window sum, without the factor 2 at the
    zero-frequency bin, and the RMS value is the peak over the square root
    of 2 at every bin. *)
Definition rms_as_specified (rows : list (list C)) (window : list R)
    (k : nat) : R :=
  let magnitude := cabs (averaged_bin rows k) in
  let peak :=
    match k with
    | O => (magnitude / rsum window)%R
    | S _ => (magnitude * 2 / rsum window)%R
    end in
  (peak / sqrt 2)%R.

(** The RMS value of bin [k] as the program computes it. *)
Definition rms_as_computed (rows : list (list C)) (window : list R)
    (k : nat) : R :=
  let magnitude := cabs (averaged_bin rows k) in
  match k with
  | O => (magnitude / rsum window)%R
  | S _ => (magnitude * 2 / rsum window / sqrt 2)%R
  end.

End Spectrum.

(** ** Test doubles

    A stand-in for the Python runtime, used to run the model on concrete
    inputs: [float()] knows the strings below and rejects every other one;
    the two transcendental functions are not exercised by the examples. *)

Module Fixtures.
Import Py.
Local Open Scope Q_scope.
Local Open Scope string_scope.

Definition table_int (s : string) : option Z :=
  if String.eqb s "1" then Some 1%Z
  else if String.eqb s "10" then Some 10%Z
  else None.

Definition table_float (s : string) : option Q :=
  if String.eqb s "1.0" then Some 1.0
  else if String.eqb s "0.5" then Some 0.5
  else if String.eqb s "0.0" then Some 0.0
  else if String.eqb s "2e30" then Some 2e30
  else None.

#[export] Instance table_runtime : Runtime := {
  float_of_string := table_float;
  int_of_string := table_int;
  log10 := fun _ => 0;
  pow10 := fun _ => 0
}.

(** A scope whose first answer to a measurement query is not ready yet
    ("?") and whose later answers are the overload value. *)
Definition slow_overloaded_scope (k : nat) : Bode.attempt :=
  match k with
  | O => {| Bode.took := 0.1; Bode.answer := Bode.Text "?" |}
  | S _ => {| Bode.took := 0.1; Bode.answer := Bode.Text "2e30" |}
  end.

(** A measurement function that raises [ValueError] at its first call
    and answers at the second. *)
Definition raising_then_ready_scope (k : nat) : Bode.attempt :=
  match k with
  | O => {| Bode.took := 0.1; Bode.answer := Bode.Throws ValueError |}
  | S _ => {| Bode.took := 0.1; Bode.answer := Bode.Text "1.0" |}
  end.

(** A bench with both connections open and nothing sent yet. *)
Definition idle_bench : Bench.bench :=
  {| Bench.trace := []; Bench.gen_link := true; Bench.scope_link := true |}.

(** One repetition whose channel-1 value is the overload mark itself. *)
Definition reads_at_mark (i : nat) : Bode.reading :=
  (Some 1e30, Some 1.0, Some 0.0).

(** Three repetitions: a valid one, one with channel 2 overloaded, and a
    second valid one. *)
Definition reads_with_overload (i : nat) : Bode.reading :=
  match i with
  | 0%nat => (Some 1.0, Some 0.5, Some 0.0)
  | 1%nat => (Some 1.0, Some 2e30, Some 0.0)
  | _ => (Some 0.5, Some 0.5, Some 0.5)
  end.

(** A sweep state with both connections open and nothing done yet. *)
Definition fresh_sweep : Bode.sweep_state :=
  {| Bode.instruments := idle_bench;
     Bode.results_freq := [];
     Bode.results_mag := [];
     Bode.results_phase := [] |}.

(** A linear sweep of two points, one repetition per point. *)
Definition two_point_sweep : Bode.config :=
  {| Bode.f_start := 1000;
     Bode.f_stop := 10000;
     Bode.num_points := 2;
     Bode.scale := "lin";
     Bode.num_averages := 1;
     Bode.gen_amplitude_vpp := 1.0 |}.

(** Nobody interrupts; channel 2 reads 0.5 V at the first point and
    0 V (no signal) at the second. *)
Definition silent_second_point : Bode.surroundings :=
  {| Bode.interrupt_at := fun _ => false;
     Bode.readings := fun i _ =>
       match i with
       | 0%nat => (Some 1.0, Some 0.5, Some 0.0)
       | _ => (Some 1.0, Some 0.0, Some 0.0)
       end |}.

(** The user interrupts the second point; every reading is valid. *)
Definition interrupted_second_point : Bode.surroundings :=
  {| Bode.interrupt_at := fun i => Nat.eqb i 1;
     Bode.readings := fun _ _ => (Some 1.0, Some 0.5, Some 0.0) |}.

(** The spectrum of a constant signal under the rectangular window: the
    sum of the samples (here 1) at the zero-frequency bin, zero at every
    other bin. *)
Definition constant_signal_spectrum : list Spectrum.C :=
  (Rdefinitions.IZR 1, Rdefinitions.IZR 0) :: repeat Spectrum.czero 499.

(** A default configuration of the analyzer: 100 Hz of resolution. *)
Definition default_analysis : Spectrum.config :=
  {| Spectrum.f_start := 0.0;
     Spectrum.f_stop := 100000.0;
     Spectrum.resolution_hz := 100.0;
     Spectrum.num_averages := 3;
     Spectrum.channel := 1;
     Spectrum.coupling := "DC";
     Spectrum.window := "HANNing" |}.

(** The operator presses Enter, and the query of the vertical scale times
    out: the driver hands back [None]. *)
Definition scale_query_times_out : Spectrum.surroundings :=
  {| Spectrum.user_confirms := true;
     Spectrum.scale_reply := None;
     Spectrum.probe_reply := Some "X1";
     Spectrum.adc_data := fun _ => None |}.

(** The operator presses Ctrl-C at the prompt. *)
Definition operator_interrupts : Spectrum.surroundings :=
  {| Spectrum.user_confirms := false;
     Spectrum.scale_reply := Some "1.0";
     Spectrum.probe_reply := Some "X1";
     Spectrum.adc_data := fun _ => None |}.

(** The operator presses Enter, the read-back succeeds, and no repetition
    delivers a sample buffer. *)
Definition no_buffer_arrives : Spectrum.surroundings :=
  {| Spectrum.user_confirms := true;
     Spectrum.scale_reply := Some "1.0";
     Spectrum.probe_reply := Some "x1";
     Spectrum.adc_data := fun _ => None |}.

End Fixtures.

(** ** The oscilloscope driver ([owon_vds_scpi.py]) *)

Module Driver.

(** [OwonVDS_SCPI.get_adc_data], from what the binary query handed back
    ([None] after a timeout or an error, a byte string otherwise): nothing
    for an empty or a short reply, and else the first 500 bytes as
    integers. *)
Definition get_adc_data (raw_data : option (list Byte.byte))
    : option (list Z) :=
  match raw_data with
  | None => None
  | Some raw_data =>
      if (List.length raw_data =? 0)%nat then None
      else if (List.length raw_data <? 500)%nat then None
      else Some (map (fun b => Z.of_N (Byte.to_N b)) (firstn 500 raw_data))
  end.

End Driver.

(** ** The configuration dialogue of the Bode plotter ([bode_core.py])

    The answers typed at the prompts are a list of lines, consumed one per
    call of [input]; at the end of the list [input] raises [EOFError].  An
    empty answer stands for the default, whose text [float] and [int] read
    back as the default itself. *)

Module Console.
Import Py PrimFloat.
Local Open Scope string_scope.
Local Open Scope float_scope.

(** What a part of the dialogue comes to: a value and the lines that are
    left, an exception of [float] or [int] outside a [try], or the end of
    the input. *)
Inductive answer (A : Type) : Type :=
| Returns (a : A) (rest : list string)
| Raises (e : exn)
| EndOfInput.
Arguments Returns {A} a rest.
Arguments Raises {A} e.
Arguments EndOfInput {A}.

(** The keys of [FACTORY_DEFAULTS].  The numbers that [float()] makes
    are doubles: the answers ['nan'] and ['inf'] are numbers for Python,
    and the checks of the dialogue compare them as doubles. *)
Record settings : Type := {
  f_start : float;
  f_stop : float;
  num_points : Z;
  num_points_lin : Z;
  scale : string;
  num_averages : Z;
  gen_amplitude_vpp : float;
  y_mag_min : float;
  y_mag_max : float;
  y_mag_min_lin : float
}.

Definition FACTORY_DEFAULTS : settings :=
  {| f_start := 1.0;
     f_stop := 100000.0;
     num_points := 20;
     num_points_lin := 50;
     scale := "log";
     num_averages := 3;
     gen_amplitude_vpp := 1.0;
     y_mag_min := -100.0;
     y_mag_max := 10.0;
     y_mag_min_lin := -40.0 |}.

(** [config[key] = value], key by key. *)
Definition set_scale (v : string) (c : settings) : settings :=
  {| f_start := f_start c; f_stop := f_stop c; num_points := num_points c;
     num_points_lin := num_points_lin c; scale := v;
     num_averages := num_averages c;
     gen_amplitude_vpp := gen_amplitude_vpp c; y_mag_min := y_mag_min c;
     y_mag_max := y_mag_max c; y_mag_min_lin := y_mag_min_lin c |}.

Definition set_f_start (v : float) (c : settings) : settings :=
  {| f_start := v; f_stop := f_stop c; num_points := num_points c;
     num_points_lin := num_points_lin c; scale := scale c;
     num_averages := num_averages c;
     gen_amplitude_vpp := gen_amplitude_vpp c; y_mag_min := y_mag_min c;
     y_mag_max := y_mag_max c; y_mag_min_lin := y_mag_min_lin c |}.

Definition set_f_stop (v : float) (c : settings) : settings :=
  {| f_start := f_start c; f_stop := v; num_points := num_points c;
     num_points_lin := num_points_lin c; scale := scale c;
     num_averages := num_averages c;
     gen_amplitude_vpp := gen_amplitude_vpp c; y_mag_min := y_mag_min c;
     y_mag_max := y_mag_max c; y_mag_min_lin := y_mag_min_lin c |}.

Definition set_num_points (v : Z) (c : settings) : settings :=
  {| f_start := f_start c; f_stop := f_stop c; num_points := v;
     num_points_lin := num_points_lin c; scale := scale c;
     num_averages := num_averages c;
     gen_amplitude_vpp := gen_amplitude_vpp c; y_mag_min := y_mag_min c;
     y_mag_max := y_mag_max c; y_mag_min_lin := y_mag_min_lin c |}.

Definition set_num_points_lin (v : Z) (c : settings) : settings :=
  {| f_start := f_start c; f_stop := f_stop c; num_points := num_points c;
     num_points_lin := v; scale := scale c;
     num_averages := num_averages c;
     gen_amplitude_vpp := gen_amplitude_vpp c; y_mag_min := y_mag_min c;
     y_mag_max := y_mag_max c; y_mag_min_lin := y_mag_min_lin c |}.

Definition set_num_averages (v : Z) (c : settings) : settings :=
  {| f_start := f_start c; f_stop := f_stop c; num_points := num_points c;
     num_points_lin := num_points_lin c; scale := scale c;
     num_averages := v;
     gen_amplitude_vpp := gen_amplitude_vpp c; y_mag_min := y_mag_min c;
     y_mag_max := y_mag_max c; y_mag_min_lin := y_mag_min_lin c |}.

Definition set_gen_amplitude_vpp (v : float) (c : settings) : settings :=
  {| f_start := f_start c; f_stop := f_stop c; num_points := num_points c;
     num_points_lin := num_points_lin c; scale := scale c;
     num_averages := num_averages c;
     gen_amplitude_vpp := v; y_mag_min := y_mag_min c;
     y_mag_max := y_mag_max c; y_mag_min_lin := y_mag_min_lin c |}.

Definition set_y_mag_min (v : float) (c : settings) : settings :=
  {| f_start := f_start c; f_stop := f_stop c; num_points := num_points c;
     num_points_lin := num_points_lin c; scale := scale c;
     num_averages := num_averages c;
     gen_amplitude_vpp := gen_amplitude_vpp c; y_mag_min := v;
     y_mag_max := y_mag_max c; y_mag_min_lin := y_mag_min_lin c |}.

Definition set_y_mag_max (v : float) (c : settings) : settings :=
  {| f_start := f_start c; f_stop := f_stop c; num_points := num_points c;
     num_points_lin := num_points_lin c; scale := scale c;
     num_averages := num_averages c;
     gen_amplitude_vpp := gen_amplitude_vpp c; y_mag_min := y_mag_min c;
     y_mag_max := v; y_mag_min_lin := y_mag_min_lin c |}.

Definition set_y_mag_min_lin (v : float) (c : settings) : settings :=
  {| f_start := f_start c; f_stop := f_stop c; num_points := num_points c;
     num_points_lin := num_points_lin c; scale := scale c;
     num_averages := num_averages c;
     gen_amplitude_vpp := gen_amplitude_vpp c; y_mag_min := y_mag_min c;
     y_mag_max := y_mag_max c; y_mag_min_lin := v |}.

(** [s.lower()] on ASCII letters. *)
Definition ascii_lower (c : Ascii.ascii) : Ascii.ascii :=
  let n := Ascii.nat_of_ascii c in
  if (65 <=? n)%nat && (n <=? 90)%nat then Ascii.ascii_of_nat (n + 32)
  else c.

Fixpoint lower (s : string) : string :=
  match s with
  | EmptyString => EmptyString
  | String c rest => String (ascii_lower c) (lower rest)
  end.

(** [line or default] for a string. *)
Definition or_default (line default : string) : string :=
  if String.eqb line "" then default else line.

Section Dialogue.
Context `{Runtime}.

(** [float(s)] on a text, as a double; [None] stands for [ValueError]. *)
Variable double_of_string : string -> option float.

(** [float(input(...) or default)] and [int(input(...) or default)]. *)
Definition float_or (line : string) (default : float) : option float :=
  if String.eqb line "" then Some default else double_of_string line.

Definition int_or (line : string) (default : Z) : option Z :=
  if String.eqb line "" then Some default else int_of_string line.

(** The first [while True]: the scale is asked for until it is ['lin'] or
    ['log']. *)
Fixpoint ask_scale (inputs : list string) (config : settings)
    : answer settings :=
  match inputs with
  | [] => EndOfInput
  | line :: rest =>
      let scale_default := scale config in
      let scale := or_default (lower line) scale_default in
      if String.eqb scale "lin" || String.eqb scale "log"
      then Returns (set_scale scale config) rest
      else ask_scale rest config
  end.

(** The second: the start frequency, asked for again after a text that is
    not a number and, on a logarithmic scale, after a value for which
    [f_start <= 0] holds (it does not hold for NaN). *)
Fixpoint ask_f_start (inputs : list string) (config : settings)
    : answer settings :=
  match inputs with
  | [] => EndOfInput
  | line :: rest =>
      match float_or line (f_start config) with
      | Some f_start =>
          if String.eqb (scale config) "log" && (f_start <=? 0)
          then ask_f_start rest config
          else Returns (set_f_start f_start config) rest
      | None => ask_f_start rest config
      end
  end.

(** The third: the stop frequency, asked for again as long as
    [f_stop <= config['f_start']] holds. *)
Fixpoint ask_f_stop (inputs : list string) (config : settings)
    : answer settings :=
  match inputs with
  | [] => EndOfInput
  | line :: rest =>
      match float_or line (f_stop config) with
      | Some f_stop =>
          if f_stop <=? f_start config
          then ask_f_stop rest config
          else Returns (set_f_stop f_stop config) rest
      | None => ask_f_stop rest config
      end
  end.

(** A question outside a [try]: a text that does not parse raises
    [ValueError]. *)
Definition ask_int (inputs : list string) (default : Z) : answer Z :=
  match inputs with
  | [] => EndOfInput
  | line :: rest =>
      match int_or line default with
      | Some v => Returns v rest
      | None => Raises ValueError
      end
  end.

Definition ask_float (inputs : list string) (default : float)
    : answer float :=
  match inputs with
  | [] => EndOfInput
  | line :: rest =>
      match float_or line default with
      | Some v => Returns v rest
      | None => Raises ValueError
      end
  end.

(** Sequencing of the parts of the dialogue. *)
Definition and_then {A B : Type} (a : answer A)
    (k : A -> list string -> answer B) : answer B :=
  match a with
  | Returns v rest => k v rest
  | Raises e => Raises e
  | EndOfInput => EndOfInput
  end.

Definition is_lin (config : settings) : bool := String.eqb (scale config) "lin".

Definition get_user_config (inputs : list string) (default_config : settings)
    : answer settings :=
  let config := default_config in
  and_then (ask_scale inputs config) (fun config inputs =>
  and_then (ask_f_start inputs config) (fun config inputs =>
  and_then (ask_f_stop inputs config) (fun config inputs =>
  let points_default :=
    if is_lin config then num_points_lin config else num_points config in
  and_then (ask_int inputs points_default) (fun points inputs =>
  let config := set_num_points points config in
  let config :=
    if is_lin config then set_num_points_lin (num_points config) config
    else config in
  let avg_default := num_averages config in
  and_then (ask_int inputs avg_default) (fun averages inputs =>
  let config := set_num_averages averages config in
  let amp_default := gen_amplitude_vpp config in
  and_then (ask_float inputs amp_default) (fun amplitude inputs =>
  let config := set_gen_amplitude_vpp amplitude config in
  let mag_min_default :=
    if is_lin config then y_mag_min_lin config else y_mag_min config in
  and_then (ask_float inputs mag_min_default) (fun mag_min inputs =>
  let config := set_y_mag_min mag_min config in
  let config :=
    if is_lin config then set_y_mag_min_lin (y_mag_min config) config
    else config in
  let mag_max_default := y_mag_max config in
  and_then (ask_float inputs mag_max_default) (fun mag_max inputs =>
  Returns (set_y_mag_max mag_max config) inputs)))))))).

End Dialogue.

(** The scale and the two frequencies of [c'] are those of [c]. *)
Definition same_range (c c' : settings) : Prop :=
  scale c' = scale c /\ f_start c' = f_start c /\ f_stop c' = f_stop c.

(** The entries of the configuration that [run_full_experiment] reads,
    when its numbers are finite; a configuration that holds NaN or an
    infinity is outside the idealisation of the sweep. *)
Definition sweep_config (c : settings) : option Bode.config :=
  if is_finite (f_start c) && is_finite (f_stop c)
     && is_finite (gen_amplitude_vpp c)
  then Some {| Bode.f_start := Double.exact (f_start c);
               Bode.f_stop := Double.exact (f_stop c);
               Bode.num_points := num_points c;
               Bode.scale := scale c;
               Bode.num_averages := num_averages c;
               Bode.gen_amplitude_vpp := Double.exact (gen_amplitude_vpp c) |}
  else None.

End Console.

(** Texts typed at the prompts and the doubles that [float()] makes of
    them, for the examples. *)

Module Keyboard.
Import PrimFloat.
Local Open Scope string_scope.
Local Open Scope float_scope.

Definition table_double (s : string) : option float :=
  if String.eqb s "nan" then Some nan
  else if String.eqb s "inf" then Some infinity
  else if String.eqb s "-5" then Some (-5)
  else if String.eqb s "0" then Some 0
  else if String.eqb s "10" then Some 10
  else if String.eqb s "1000" then Some 1000
  else None.

End Keyboard.

(** ** The configuration file ([load_config] of both programs)

    A dictionary is the list of its items in insertion order.  The file is
    seen through what [os.path.exists] and [json.load] make of it. *)

Module ConfigFile.
Import Py.
Local Open Scope string_scope.

(** The values of a configuration: numbers, texts, and whatever else a
    JSON document can hold. *)
Inductive value : Type :=
| Float (x : Q)
| Int (n : Z)
| Str (s : string)
| Other.

Definition dict : Type := list (string * value).

(** [d.get(k)]. *)
Fixpoint dict_get (k : string) (d : dict) : option value :=
  match d with
  | [] => None
  | (k', v) :: rest => if String.eqb k k' then Some v else dict_get k rest
  end.

(** [k in d]. *)
Definition dict_contains (k : string) (d : dict) : bool :=
  match dict_get k d with
  | Some _ => true
  | None => false
  end.

(** [d[k] = v]: the value is replaced where the key is, or the item is
    added at the end. *)
Fixpoint dict_set (k : string) (v : value) (d : dict) : dict :=
  match d with
  | [] => [(k, v)]
  | (k', v') :: rest =>
      if String.eqb k k' then (k, v) :: rest
      else (k', v') :: dict_set k v rest
  end.

(** [d.update(other)]. *)
Definition dict_update (d other : dict) : dict :=
  fold_left (fun acc kv => dict_set (fst kv) (snd kv) acc) other d.

(** What the statements under the [try] can raise: [open] on a directory
    or on a file that may not be read, the read under [json.load] on bytes
    that are not text in the encoding of the locale, [json.load] on a text
    that is not a JSON document or on one that is nested too deep, and
    [config.update] on a JSON document that is not an object. *)
Inductive error : Type :=
| OSError
| UnicodeDecodeError
| JSONDecodeError
| RecursionError
| AttributeError.

(** The one handler of the [try]: [except json.JSONDecodeError].  The
    class derives from [ValueError], as [UnicodeDecodeError] does, and
    neither derives from the other. *)
Definition is_JSONDecodeError (e : error) : bool :=
  match e with
  | JSONDecodeError => true
  | _ => false
  end.

(** What [load_config] comes to. *)
Inductive loaded : Type :=
| Returns (config : dict)
| Raises (e : error).

(** The configuration file as the library calls see it: absent
    ([os.path.exists] is false), one on which [open] or [json.load]
    raises, a JSON object, or a JSON document of another kind (a list, a
    number, a text: it has no [update]). *)
Inductive config_file : Type :=
| Missing
| Unloadable (e : error)
| Object (members : dict)
| NotObject.

Definition load_config (FACTORY_DEFAULTS : dict) (file : config_file)
    : loaded :=
  match file with
  | Missing => Returns FACTORY_DEFAULTS
  | Unloadable e =>
      if is_JSONDecodeError e then Returns FACTORY_DEFAULTS else Raises e
  | Object config =>
      Returns (dict_update config
                 (filter (fun kv => negb (dict_contains (fst kv) config))
                    FACTORY_DEFAULTS))
  | NotObject => Raises AttributeError
  end.

(** [FACTORY_DEFAULTS] of [bode_core.py]. *)
Definition BODE_FACTORY_DEFAULTS : dict :=
  [ ("f_start", Float 1.0);
    ("f_stop", Float 100000.0);
    ("num_points", Int 20);
    ("num_points_lin", Int 50);
    ("scale", Str "log");
    ("num_averages", Int 3);
    ("gen_amplitude_vpp", Float 1.0);
    ("y_mag_min", Float (- (100.0)));
    ("y_mag_max", Float 10.0);
    ("y_mag_min_lin", Float (- (40.0))) ].

(** [FACTORY_DEFAULTS] of [spectrum_core.py]. *)
Definition SPECTRUM_FACTORY_DEFAULTS : dict :=
  [ ("f_start", Float 0.0);
    ("f_stop", Float 100000.0);
    ("resolution_hz", Float 100.0);
    ("num_averages", Int 3);
    ("channel", Int 1);
    ("coupling", Str "DC");
    ("window", Str "HANNing") ].

End ConfigFile.

(** ** Saving the results ([save_data_to_csv] of both programs)

    The file is seen as the rows written to it; they stay in the file when
    an exception ends the writing, since the [with] statement closes the
    file on the way out. *)

Module Csv.
Local Open Scope string_scope.

Inductive cell (A : Type) : Type :=
| Label (s : string)
| Value (x : A).
Arguments Label {A} s.
Arguments Value {A} x.

Definition row (A : Type) : Type := list (cell A).

(** What can go wrong: [open] fails, or a list is shorter than the list
    of frequencies. *)
Inductive error : Type :=
| IOError
| IndexError.

(** The state of the file after the call ([None] when it could not be
    opened), and the exception that leaves the function, if any. *)
Record saved (A : Type) : Type := {
  content : option (list (row A));
  raised : option error
}.
Arguments content {A} s.
Arguments raised {A} s.

(** The [for] loop: one row per index, until an index is out of range in
    one of the lists. *)
Fixpoint write_rows {A : Type} (freq_list second third : list A)
    (indices : list nat) : list (row A) * option error :=
  match indices with
  | [] => ([], None)
  | i :: rest =>
      match nth_error freq_list i, nth_error second i, nth_error third i with
      | Some f, Some s, Some t =>
          let '(rows, e) := write_rows freq_list second third rest in
          ([Value f; Value s; Value t] :: rows, e)
      | _, _, _ => ([], Some IndexError)
      end
  end.

(** The body of the [try], for the given header. *)
Definition write_file {A : Type} (header : row A) (can_open : bool)
    (freq_list second third : list A) : saved A :=
  if can_open then
    let '(rows, e) :=
      write_rows freq_list second third (seq 0 (List.length freq_list)) in
    {| content := Some (header :: rows); raised := e |}
  else {| content := None; raised := Some IOError |}.

(** [save_data_to_csv] of [bode_core.py]: every exception is printed and
    dropped. *)
Definition bode_save_data_to_csv {A : Type} (can_open : bool)
    (freq_list mag_list phase_list : list A) : saved A :=
  let r :=
    write_file [Label "Frequency (Hz)"; Label "Magnitude (dB)";
                Label "Phase (deg)"]
      can_open freq_list mag_list phase_list in
  {| content := content r; raised := None |}.

(** [save_data_to_csv] of [spectrum_core.py]: only [IOError] is caught. *)
Definition spectrum_save_data_to_csv {A : Type} (can_open : bool)
    (freq_list vrms_list vdb_list : list A) : saved A :=
  let r :=
    write_file [Label "Frequency (Hz)"; Label "Amplitude (Vrms)";
                Label "Amplitude (dB)"]
      can_open freq_list vrms_list vdb_list in
  {| content := content r;
     raised := match raised r with
               | Some IOError => None
               | e => e
               end |}.

(** The row of index [i] of three lists. *)
Definition row_at {A : Type} (d : A) (freq_list second third : list A)
    (i : nat) : row A :=
  [Value (nth i freq_list d); Value (nth i second d); Value (nth i third d)].

End Csv.

(** ** The name of the next file ([get_next_filename] of both programs)

    [os.path.join] and [os.path.exists] (the latter once
    [ensure_save_directories] has made the directories) are parameters. *)

Module Files.
Local Open Scope string_scope.

(** [f"{i:03d}"]: the decimal digits, with zeros in front up to three
    characters. *)
Definition three_digits (i : nat) : string :=
  let digits := DecimalString.NilZero.string_of_uint (Nat.to_uint i) in
  match String.length digits with
  | 1%nat => "00" ++ digits
  | 2%nat => "0" ++ digits
  | _ => digits
  end.

Section NextFilename.
Variable join : string -> string -> string.
Variable path_exists : string -> bool.
Variables directory prefix extension : string.

(** [full_path] for the number [i]. *)
Definition full_path (i : nat) : string :=
  let filename := prefix ++ "_" ++ three_digits i ++ extension in
  join directory filename.

(** The [while True] loop, from the number [i], for at most [fuel]
    turns. *)
Fixpoint probe (fuel : nat) (i : nat) : option string :=
  match fuel with
  | O => None
  | S fuel' =>
      if negb (path_exists (full_path i)) then Some (full_path i)
      else probe fuel' (i + 1)
  end.

Definition get_next_filename (fuel : nat) : option string := probe fuel 1.

End NextFilename.

End Files.

(** ** The main program of the Bode plotter ([bode_plotter.py])

    The program as the instruments see it.  What the console, the
    configuration file, the plot and the saving of the results come to is
    given turn by turn of the [while True] loop: they send nothing to the
    instruments, and all that matters here is what they return or
    raise. *)

Module Program.
Import Py Eff Bench Bode.
Local Open Scope Q_scope.
Local Open Scope string_scope.
Local Open Scope eff_scope.

(** [connect()] of the two drivers: nothing to do when connected already,
    [ConnectionError] when the instrument cannot be reached. *)
Definition gen_connect (reachable : bool) : M bench unit :=
  fun b =>
    if gen_link b then (Ok tt, b)
    else if reachable
    then (Ok tt, {| trace := trace b; gen_link := true;
                    scope_link := scope_link b |})
    else (Raise ConnectionError, b).

Definition scope_connect (reachable : bool) : M bench unit :=
  fun b =>
    if scope_link b then (Ok tt, b)
    else if reachable
    then (Ok tt, {| trace := trace b; gen_link := gen_link b;
                    scope_link := true |})
    else (Raise ConnectionError, b).

(** [disconnect()]. *)
Definition gen_disconnect : M bench unit :=
  modify (fun b => {| trace := trace b; gen_link := false;
                      scope_link := scope_link b |}).

Definition scope_disconnect : M bench unit :=
  modify (fun b => {| trace := trace b; gen_link := gen_link b;
                      scope_link := false |}).

(** A query, refused on a closed connection; its answer is only printed. *)
Definition gen_query (what : string) : M bench unit :=
  fun b =>
    if gen_link b then (Ok tt, add_event (Queried what) b)
    else (Raise ConnectionError, b).

Definition scope_query (what : string) : M bench unit :=
  fun b =>
    if scope_link b then (Ok tt, add_event (Queried what) b)
    else (Raise ConnectionError, b).

(** One turn of the loop: what the dialogue comes to (the configuration
    to use and whether the user confirms, or an exception raised at a
    prompt), what surrounds the sweep, what showing and saving the results
    come to, and what the question about a new experiment comes to. *)
Record round : Type := {
  dialogue : outcome (config * bool);
  during_sweep : surroundings;
  saving : outcome unit;
  restarting : outcome unit
}.

Section Main.
Context `{Runtime}.

(** The body of the loop. *)
Definition turn (r : round) : M sweep_state unit :=
  '(config_to_use, confirm) <- eval (dialogue r) ;;
  (if (confirm : bool) then
     '(freq, mag, phase, config_used) <-
       run_full_experiment (during_sweep r) config_to_use ;;
     match freq with
     | _ :: _ => eval (saving r)
     | [] => ret tt
     end
   else ret tt) ;;
  eval (restarting r).

(** The loop, for the turns that the user asks for: it ends after the
    last one, or with the first exception. *)
Definition turns (rounds : list round) : M sweep_state unit :=
  for_loop rounds tt (fun r _ => turn r).

(** The [finally] clause of [main]. *)
Definition disconnect_all : M sweep_state unit :=
  try_except
    (gen_connected <- gets (fun s => gen_link (instruments s)) ;;
     (if (gen_connected : bool)
      then on_bench (gen_send (SetOutputState "OFF")) ;;
           on_bench gen_disconnect
      else ret tt) ;;
     scope_connected <- gets (fun s => scope_link (instruments s)) ;;
     if (scope_connected : bool)
     then on_bench (scope_send (TriggerMode "AUTO")) ;;
          on_bench scope_disconnect
     else ret tt)
    (fun _ => true)
    (fun _ => ret tt).

(** [main]: the three [except] clauses catch every exception. *)
Definition main (gen_reachable scope_reachable : bool)
    (rounds : list round) : M sweep_state unit :=
  try_finally
    (try_except
       (on_bench (gen_connect gen_reachable) ;;
        on_bench (gen_query "*IDN?") ;;
        on_bench (scope_connect scope_reachable) ;;
        on_bench (scope_query "*IDN?") ;;
        on_bench (scope_query "*RST") ;;
        on_bench (sleep 2.0) ;;
        turns rounds)
       (fun _ => true)
       (fun _ => ret tt))
    disconnect_all.

End Main.

(** Whether the generator output is on, given what it was before the
    trace. *)
Fixpoint generator_on (before : bool) (t : list event) : bool :=
  match t with
  | [] => before
  | ToGen (SetOutputState state) :: rest =>
      if String.eqb state "ON" then generator_on true rest
      else if String.eqb state "OFF" then generator_on false rest
      else generator_on before rest
  | _ :: rest => generator_on before rest
  end.

End Program.

(** ** Further vocabulary for the two cores *)

Module Vocabulary.
Import Py Eff Bench.
Local Open Scope Q_scope.


(** The trace [t'] is [t] with events appended that all satisfy [P]. *)
Definition appended (P : event -> Prop) (t t' : list event) : Prop :=
  exists new, t' = (t ++ new)%list /\ Forall P new.

(** A statement appends events to the trace kept in the state, and every
    event it appends satisfies [P], whatever its outcome. *)
Definition emits {S A : Type} (tr : S -> list event) (P : event -> Prop)
    (m : M S A) : Prop :=
  forall s, appended P (tr s) (tr (snd (m s))).

(** A pause of between [lo] and [hi] seconds, or no pause at all. *)
Definition waits_within (lo hi : Q) (e : event) : Prop :=
  match e with
  | Sleep seconds => lo <= seconds /\ seconds <= hi
  | _ => True
  end.

(** Any event but a [*RUN] sent to the oscilloscope. *)
Definition not_RUN (e : event) : Prop := is_RUN e = false.

(** The trace of the instruments of a sweep. *)
Definition sweep_trace (s : Bode.sweep_state) : list event :=
  trace (Bode.instruments s).

(** The three result lists of a sweep. *)
Definition results (s : Bode.sweep_state) : list Q * list Q * list Q :=
  (Bode.results_freq s, Bode.results_mag s, Bode.results_phase s).

(** The lists [after] are the lists [before] with the frequencies [fs],
    as many magnitudes and as many phases appended. *)
Definition grown_by (fs : list Q) (before after : list Q * list Q * list Q)
    : Prop :=
  exists ms ps,
    after = ((fst (fst before) ++ fs)%list,
             (snd (fst before) ++ ms)%list,
             (snd before ++ ps)%list)
    /\ List.length ms = List.length fs /\ List.length ps = List.length fs.

(** [actual_resolution_hz] of [run_spectrum_analysis]: the inverse of the
    ten divisions of the timebase. *)
Definition actual_resolution_hz (t_base_sec : Q) : Q :=
  let total_time_s := t_base_sec * 10.0 in
  1.0 / total_time_s.

(** [nyquist_freq_hz] of [run_spectrum_analysis]: half the sample rate
    of 500 samples over the ten divisions. *)
Definition nyquist_freq_hz (t_base_sec : Q) : Q :=
  let total_time_s := t_base_sec * 10.0 in
  let sample_rate_hz := inject_Z (Z.of_nat Spectrum.N) / total_time_s in
  sample_rate_hz / 2.0.

(** A repetition whose download is a buffer of exactly 500 samples. *)
Definition full_buffer (env : Spectrum.surroundings) (i : nat) : Prop :=
  exists raw_data,
    Spectrum.adc_data env i = Some raw_data
    /\ List.length raw_data = Spectrum.N.

(** The operator presses Enter, the read-back succeeds, and every
    repetition delivers 500 samples of the code 128. *)
Definition full_buffers : Spectrum.surroundings :=
  {| Spectrum.user_confirms := true;
     Spectrum.scale_reply := Some "1.0"%string;
     Spectrum.probe_reply := Some "x1"%string;
     Spectrum.adc_data := fun _ => Some (repeat 128%Z 500) |}.



(** The user never interrupts, and every repetition reads 1 V on channel
    1, 0.5 V on channel 2 and no delay. *)
Definition steady_surroundings : Bode.surroundings :=
  {| Bode.interrupt_at := fun _ => false;
     Bode.readings := fun _ _ => (Some 1.0, Some 0.5, Some 0.0) |}.

(** A sweep state with the given connection flags and nothing done yet. *)
Definition sweep_with_links (gen scope : bool) : Bode.sweep_state :=
  {| Bode.instruments :=
       {| trace := []; gen_link := gen; scope_link := scope |};
     Bode.results_freq := [];
     Bode.results_mag := [];
     Bode.results_phase := [] |}.

(** [sub] is [l] with some entries left out, the order kept. *)
Inductive subsequence {A : Type} : list A -> list A -> Prop :=
| subsequence_nil : subsequence [] []
| subsequence_skip (x : A) (sub l : list A) :
    subsequence sub l -> subsequence sub (x :: l)
| subsequence_keep (x : A) (sub l : list A) :
    subsequence sub l -> subsequence (x :: sub) (x :: l).

End Vocabulary.

(* ================================================================== *)
(** * Part II: theorems                                                *)
(* ================================================================== *)

Module PyFacts.
Import Py.
Local Open Scope Q_scope.

Lemma Qleb_le (x y : Q) : Qleb x y = true <-> x <= y.
Proof. unfold Qleb. apply Qle_bool_iff. Qed.

Lemma Qleb_gt (x y : Q) : Qleb x y = false <-> y < x.
Proof.
  unfold Qleb. split; intro HH.
  - apply Qnot_le_lt. intro Hle. apply Qle_bool_iff in Hle. congruence.
  - destruct (Qle_bool x y) eqn:E; [|reflexivity].
    apply Qle_bool_iff in E. exfalso. apply (Qlt_not_le _ _ HH E).
Qed.

Lemma Qltb_lt (x y : Q) : Qltb x y = true <-> x < y.
Proof.
  unfold Qltb. rewrite negb_true_iff. apply (Qleb_gt y x).
Qed.

Lemma Qltb_ge (x y : Q) : Qltb x y = false <-> y <= x.
Proof.
  unfold Qltb. rewrite negb_false_iff. apply (Qleb_le y x).
Qed.

Lemma Qgtb_gt (x y : Q) : Qgtb x y = true <-> y < x.
Proof. unfold Qgtb. apply Qltb_lt. Qed.

Lemma Qgtb_le (x y : Q) : Qgtb x y = false <-> x <= y.
Proof. unfold Qgtb. apply Qltb_ge. Qed.

Lemma Qgeb_ge (x y : Q) : Qgeb x y = true <-> y <= x.
Proof. unfold Qgeb. apply Qleb_le. Qed.

Lemma Qgeb_lt (x y : Q) : Qgeb x y = false <-> x < y.
Proof. unfold Qgeb. apply Qleb_gt. Qed.

End PyFacts.

Module DoubleFacts.
Import PrimFloat SpecFloat FloatOps FloatAxioms.
Local Open Scope float_scope.

(** The order of the binary64 numbers, from the specification of the
    primitive comparisons. *)

Ltac order_cases :=
  repeat match goal with
  | H : context [Z.compare ?a ?b] |- _ => destruct (Z.compare_spec a b)
  | |- context [Z.compare ?a ?b] => destruct (Z.compare_spec a b)
  | H : context [Pos.compare_cont Eq ?a ?b] |- _ =>
      change (Pos.compare_cont Eq a b) with (Pos.compare a b) in *;
      destruct (Pos.compare_spec a b)
  | |- context [Pos.compare_cont Eq ?a ?b] =>
      change (Pos.compare_cont Eq a b) with (Pos.compare a b) in *;
      destruct (Pos.compare_spec a b)
  end.

Ltac order_tac :=
  intros; order_cases; subst; cbn in *;
  try reflexivity; try discriminate; try lia.

Lemma SFleb_trans (a b c : spec_float) :
  SFleb a b = true -> SFleb b c = true -> SFleb a c = true.
Proof.
  unfold SFleb, SFcompare.
  destruct a as [[]|[]| |[] ma ea], b as [[]|[]| |[] mb eb],
    c as [[]|[]| |[] mc ec];
    try reflexivity; try discriminate; order_tac.
Qed.

Lemma SFltb_leb_trans (a b c : spec_float) :
  SFltb a b = true -> SFleb b c = true -> SFltb a c = true.
Proof.
  unfold SFleb, SFltb, SFcompare.
  destruct a as [[]|[]| |[] ma ea], b as [[]|[]| |[] mb eb],
    c as [[]|[]| |[] mc ec];
    try reflexivity; try discriminate; order_tac.
Qed.

Lemma SFltb_leb_false (a b : spec_float) :
  SFltb a b = true -> SFleb b a = false.
Proof.
  unfold SFleb, SFltb, SFcompare.
  destruct a as [[]|[]| |[] ma ea], b as [[]|[]| |[] mb eb];
    try reflexivity; try discriminate; order_tac.
Qed.

Lemma SFltb_leb (a b : spec_float) : SFltb a b = true -> SFleb a b = true.
Proof.
  unfold SFleb, SFltb. destruct (SFcompare a b) as [[]|]; congruence.
Qed.

(** What is at least something is a number, and a number is at most
    itself. *)
Lemma SFleb_refl_right (a b : spec_float) :
  SFleb a b = true -> SFleb b b = true.
Proof.
  unfold SFleb, SFcompare.
  destruct a as [[]|[]| |[] ma ea], b as [[]|[]| |[] mb eb];
    try reflexivity; try discriminate; intros _;
    rewrite Z.compare_refl, Pos.compare_cont_refl; reflexivity.
Qed.

Lemma leb_trans (a b c : float) :
  (a <=? b) = true -> (b <=? c) = true -> (a <=? c) = true.
Proof. rewrite !leb_spec. apply SFleb_trans. Qed.

Lemma ltb_leb_trans (a b c : float) :
  (a <? b) = true -> (b <=? c) = true -> (a <? c) = true.
Proof. rewrite !ltb_spec, leb_spec. apply SFltb_leb_trans. Qed.

Lemma ltb_leb_false (a b : float) : (a <? b) = true -> (b <=? a) = false.
Proof. rewrite ltb_spec, leb_spec. apply SFltb_leb_false. Qed.

Lemma ltb_leb (a b : float) : (a <? b) = true -> (a <=? b) = true.
Proof. rewrite ltb_spec, leb_spec. apply SFltb_leb. Qed.

Lemma leb_refl_right (a b : float) : (a <=? b) = true -> (b <=? b) = true.
Proof. rewrite !leb_spec. apply SFleb_refl_right. Qed.

Lemma ltb_trans (a b c : float) :
  (a <? b) = true -> (b <? c) = true -> (a <? c) = true.
Proof.
  intros Hab Hbc. apply ltb_leb_trans with b; [exact Hab|].
  apply ltb_leb. exact Hbc.
Qed.

Lemma SFleb_false_cases (a b : spec_float) :
  SFleb a b = false -> a = S754_nan \/ b = S754_nan \/ SFltb b a = true.
Proof.
  unfold SFleb, SFltb, SFcompare.
  destruct a as [[]|[]| |[] ma ea], b as [[]|[]| |[] mb eb];
    try discriminate; try (left; reflexivity);
    try (right; left; reflexivity);
    intro Hab; right; right; order_cases; subst; cbn in *;
    try reflexivity; try discriminate; try (exfalso; lia).
Qed.

Lemma SFeqb_self (a : spec_float) : a <> S754_nan -> SFeqb a a = true.
Proof.
  unfold SFeqb, SFcompare. intro Hn.
  destruct a as [[]|[]| |[] ma ea]; try reflexivity; try contradiction;
    rewrite Z.compare_refl, Pos.compare_cont_refl; reflexivity.
Qed.

Lemma is_nan_spec (x : float) : is_nan x = true <-> Prim2SF x = S754_nan.
Proof.
  unfold is_nan. rewrite eqb_spec. split.
  - intro Hn. destruct (Prim2SF x) eqn:E; try reflexivity;
      rewrite SFeqb_self in Hn by discriminate; discriminate Hn.
  - intros ->. reflexivity.
Qed.

(** When [a <= b] is false, an operand is NaN or [b < a]. *)
Lemma leb_false_cases (a b : float) :
  (a <=? b) = false ->
  is_nan a = true \/ is_nan b = true \/ (b <? a) = true.
Proof.
  rewrite leb_spec, ltb_spec, !is_nan_spec. apply SFleb_false_cases.
Qed.

(** A finite double is a zero or has a mantissa. *)
Lemma finite_shape (x : float) :
  is_finite x = true ->
  (exists s, Prim2SF x = S754_zero s) \/
  (exists s m e, Prim2SF x = S754_finite s m e).
Proof.
  unfold is_finite. intro Hfin. apply negb_true_iff in Hfin.
  apply orb_false_iff in Hfin. destruct Hfin as [Hnan Hinf].
  unfold Prim2SF. rewrite Hnan, Hinf.
  destruct (is_zero x); [left; eexists; reflexivity|].
  destruct (Z.frexp x) as [r ex].
  destruct (shr_fexp prec emax _ _ _) as [shr e'].
  destruct (shr_m shr); [left|right|left]; repeat eexists.
Qed.

(** A finite double for which [x <= 0] is false is a positive number. *)
Lemma finite_not_le_zero (x : float) :
  is_finite x = true -> (x <=? 0) = false ->
  exists m e, Prim2SF x = S754_finite false m e.
Proof.
  intros Hfin Hle. rewrite leb_spec in Hle.
  assert (Hzero : Prim2SF 0 = S754_zero false) by (vm_compute; reflexivity).
  rewrite Hzero in Hle.
  destruct (finite_shape x Hfin) as [[s E]|(s & m & e & E)];
    rewrite E in Hle.
  - discriminate Hle.
  - destruct s; [discriminate Hle|]. exists m, e. exact E.
Qed.

(** So is a finite double for which [x <= y] is false for a positive
    number [y]. *)
Lemma finite_not_le_positive (x y : float) (my : positive) (ey : Z) :
  is_finite x = true -> Prim2SF y = S754_finite false my ey ->
  (x <=? y) = false ->
  exists m e, Prim2SF x = S754_finite false m e.
Proof.
  intros Hfin Hy Hle. rewrite leb_spec, Hy in Hle.
  destruct (finite_shape x Hfin) as [[s E]|(s & m & e & E)];
    rewrite E in Hle.
  - discriminate Hle.
  - destruct s; [discriminate Hle|]. exists m, e. exact E.
Qed.

Lemma exact_positive (x : float) (m : positive) (e : Z) :
  Prim2SF x = S754_finite false m e -> (0 < Double.exact x)%Q.
Proof.
  intro E. unfold Double.exact. rewrite E. destruct e as [|p|p].
  - reflexivity.
  - unfold Qlt. cbn [Qnum Qden inject_Z].
    pose proof (Z.pow_pos_nonneg 2 (Zpos p)). lia.
  - reflexivity.
Qed.

Lemma increasingb_above (l : list float) (x : float) :
  Double.increasingb (x :: l) = true -> forall u, In u l -> (x <? u) = true.
Proof.
  revert x. induction l as [|y l IH]; intros x Hs u Hin; [destruct Hin|].
  cbn [Double.increasingb] in Hs. apply andb_prop in Hs.
  destruct Hs as [Hxy Hs]. destruct Hin as [->|Hin]; [exact Hxy|].
  apply ltb_trans with y; [exact Hxy|]. exact (IH y Hs u Hin).
Qed.

Lemma increasingb_rest (l : list float) (x : float) :
  Double.increasingb (x :: l) = true -> Double.increasingb l = true.
Proof.
  destruct l as [|y l]; [reflexivity|].
  cbn [Double.increasingb]. intro Hs. apply andb_prop in Hs. exact (proj2 Hs).
Qed.

End DoubleFacts.

Module TimebaseFacts.
Import PrimFloat Bode DoubleFacts.
Local Open Scope float_scope.

(** The keys of the map are written in increasing order, so sorting them
    changes nothing. *)
Lemma VALID_TIMEBASES_keys : VALID_TIMEBASES = map fst VDS_TIMEBASE_MAP.
Proof. vm_compute. reflexivity. Qed.

Lemma VALID_TIMEBASES_increasing :
  Double.increasingb VALID_TIMEBASES = true.
Proof. vm_compute. reflexivity. Qed.

(** When the loop returns, it returns the least entry that reaches the
    ideal value. *)
Lemma first_at_least_some (ideal : float) (l : list float) (t : float) :
  Double.increasingb l = true ->
  first_at_least ideal l = Some t ->
  In t l /\ (ideal <=? t) = true /\
  forall u, In u l -> (ideal <=? u) = true -> (t <=? u) = true.
Proof.
  induction l as [|y l IH]; intros Hs Hf; [discriminate|].
  cbn [first_at_least] in Hf. unfold Double.geb in Hf.
  destruct (ideal <=? y) eqn:E.
  - injection Hf as <-.
    split; [left; reflexivity|]. split; [exact E|].
    intros u [<-|Hin] _; [exact (leb_refl_right _ _ E)|].
    apply ltb_leb. exact (increasingb_above l y Hs u Hin).
  - destruct (IH (increasingb_rest l y Hs) Hf) as (Hin & Hle & Hmin).
    split; [right; exact Hin|]. split; [exact Hle|].
    intros u [<-|Hu] Hiu.
    + rewrite E in Hiu. discriminate Hiu.
    + exact (Hmin u Hu Hiu).
Qed.

(** When the loop falls through, no entry reaches the ideal value. *)
Lemma first_at_least_none (ideal : float) (l : list float) :
  first_at_least ideal l = None ->
  forall u, In u l -> (ideal <=? u) = false.
Proof.
  induction l as [|y l IH]; intros Hf u Hin; [destruct Hin|].
  cbn [first_at_least] in Hf. unfold Double.geb in Hf.
  destruct (ideal <=? y) eqn:E; [discriminate|].
  destruct Hin as [<-|Hin]; [exact E|]. exact (IH Hf u Hin).
Qed.

End TimebaseFacts.

Module TimebaseSpec.
Import PrimFloat Bode DoubleFacts TimebaseFacts.
Local Open Scope float_scope.

Lemma VALID_TIMEBASES_bounds (u : float) :
  In u VALID_TIMEBASES -> (5e-9 <=? u) = true /\ (u <=? 100.0) = true.
Proof.
  assert (Hall : forallb (fun u => (5e-9 <=? u) && (u <=? 100.0))
                   VALID_TIMEBASES = true) by (vm_compute; reflexivity).
  intro Hin. rewrite forallb_forall in Hall. specialize (Hall u Hin).
  apply andb_prop in Hall. exact Hall.
Qed.

Lemma VALID_TIMEBASES_labelled (u : float) :
  In u VALID_TIMEBASES -> timebase_label u <> ""%string.
Proof.
  assert (Hall : forallb (fun u => negb (String.eqb (timebase_label u) ""))
                   VALID_TIMEBASES = true) by (vm_compute; reflexivity).
  intro Hin. rewrite forallb_forall in Hall. specialize (Hall u Hin).
  apply negb_true_iff in Hall. apply String.eqb_neq in Hall. exact Hall.
Qed.

Lemma VALID_TIMEBASES_cons :
  VALID_TIMEBASES = 5e-9 :: tl VALID_TIMEBASES.
Proof. vm_compute. reflexivity. Qed.

Lemma VALID_TIMEBASES_last : last VALID_TIMEBASES 0 = 100.0.
Proof. vm_compute. reflexivity. Qed.

Lemma largest_in : In 100.0 VALID_TIMEBASES.
Proof. vm_compute. tauto. Qed.

Lemma get_optimal_timebase_pos (freq : float) :
  (0 <? freq) = true ->
  get_optimal_timebase freq =
    match first_at_least (((1.0 / freq) * 2.0) / 10.0) VALID_TIMEBASES with
    | Some t => (timebase_label t, t)
    | None => (timebase_label (last VALID_TIMEBASES 0), last VALID_TIMEBASES 0)
    end.
Proof.
  intro Hpos. unfold get_optimal_timebase.
  rewrite (ltb_leb_false _ _ Hpos). reflexivity.
Qed.

(** C6, as amended.  For a positive frequency, [get_optimal_timebase]
    returns an entry of the enumerated set together with its label; the
    ideal value is the double that the program computes,
    [(1.0 / freq * 2.0) / 10.0], and the comparisons are those of the
    doubles: when some entry reaches the ideal value, the entry returned
    is the least such entry; an ideal value at or below the smallest
    entry (5 ns) gives the smallest entry, and an ideal value above the
    largest entry (100 s) gives the largest. *)
Theorem get_optimal_timebase_smallest_fitting (freq : float)
    (Hpos : (0 <? freq) = true) :
  let ideal := ((1.0 / freq) * 2.0) / 10.0 in
  let t := snd (get_optimal_timebase freq) in
  In t VALID_TIMEBASES /\
  fst (get_optimal_timebase freq) = timebase_label t /\
  timebase_label t <> ""%string /\
  ((ideal <=? 100.0) = true ->
     (ideal <=? t) = true /\
     forall u, In u VALID_TIMEBASES -> (ideal <=? u) = true ->
               (t <=? u) = true) /\
  ((ideal <=? 5e-9) = true -> t = 5e-9) /\
  ((100.0 <? ideal) = true -> t = 100.0).
Proof.
  intros ideal t. subst t. rewrite (get_optimal_timebase_pos freq Hpos).
  fold ideal.
  destruct (first_at_least ideal VALID_TIMEBASES) as [t|] eqn:Hf; cbn [fst snd].
  - destruct (first_at_least_some ideal VALID_TIMEBASES t
                VALID_TIMEBASES_increasing Hf) as (Hin & Hle & Hmin).
    split; [exact Hin|]. split; [reflexivity|].
    split; [exact (VALID_TIMEBASES_labelled t Hin)|].
    split; [intros _; split; assumption|]. split.
    + intro Hsmall. rewrite VALID_TIMEBASES_cons in Hf.
      cbn [first_at_least] in Hf. unfold Double.geb in Hf.
      rewrite Hsmall in Hf. injection Hf as <-. reflexivity.
    + intro Hbig. exfalso.
      destruct (VALID_TIMEBASES_bounds t Hin) as [_ Hhi].
      pose proof (leb_trans _ _ _ Hle Hhi) as Hle100.
      rewrite (ltb_leb_false _ _ Hbig) in Hle100. discriminate Hle100.
  - rewrite VALID_TIMEBASES_last.
    pose proof (first_at_least_none ideal VALID_TIMEBASES Hf) as Hnone.
    split; [exact largest_in|]. split; [reflexivity|].
    split; [exact (VALID_TIMEBASES_labelled _ largest_in)|].
    split; [|split].
    + intro Hle. rewrite (Hnone _ largest_in) in Hle. discriminate Hle.
    + intro Hsmall. exfalso.
      assert (Hfirst : In 5e-9 VALID_TIMEBASES)
        by (rewrite VALID_TIMEBASES_cons; left; reflexivity).
      rewrite (Hnone _ Hfirst) in Hsmall. discriminate Hsmall.
    + intros _. reflexivity.
Qed.

Lemma get_optimal_timebase_smallest_fitting_witness :
  (0 <? 1000) = true /\
  snd (get_optimal_timebase 1000) = 200e-6 /\
  fst (get_optimal_timebase 1000) = "200us"%string.
Proof.
  split; [reflexivity|].
  pose proof (get_optimal_timebase_smallest_fitting 1000 eq_refl) as H.
  cbv zeta in H. destruct H as (_ & Hlabel & _).
  split; [vm_compute; reflexivity|].
  rewrite Hlabel. vm_compute. reflexivity.
Defined.

(** C6, the claim as it stands fails, whichever way the entries are read.
    At 100 kHz the ideal value [2 * period / 10] is 2 us, which the entry
    written [2e-6] reaches; the program computes an ideal value one unit
    in the last place above the double of [2e-6] and returns 5 us.  At
    4 MHz the ideal value is 50 ns; the program returns the entry written
    [50e-9], whose double lies below 50 ns. *)
Lemma rounding_decides_the_entry :
  get_optimal_timebase 100000 = ("5us"%string, 5e-6) /\
  In 2e-6 VALID_TIMEBASES /\ (2e-6 <? 5e-6) = true /\
  (2 * (1 / 100000) / 10 <= 2e-6)%Q /\
  get_optimal_timebase 4000000 = ("50ns"%string, 50e-9) /\
  (Double.exact 50e-9 < 2 * (1 / Double.exact 4000000) / 10)%Q.
Proof.
  split; [vm_compute; reflexivity|]. split; [vm_compute; tauto|].
  split; [vm_compute; reflexivity|]. split; [vm_compute; discriminate|].
  split; vm_compute; reflexivity.
Qed.

Example get_optimal_timebase_nonpositive :
  get_optimal_timebase 0 = ("1s"%string, 1.0).
Proof. vm_compute. reflexivity. Qed.

(** A frequency that is not a number passes the guard, and no entry
    reaches the ideal value. *)
Example get_optimal_timebase_nan :
  get_optimal_timebase nan = ("100s"%string, 100.0).
Proof. vm_compute. reflexivity. Qed.

End TimebaseSpec.

Module PollingFacts.
Import Py PyFacts Bode.
Local Open Scope Q_scope.

Section Reader.
Context `{Runtime}.

Lemma fruitless_raises (a : attempt) :
  fruitless a -> call_and_convert a = Raise ValueError.
Proof.
  unfold call_and_convert. intros [(s & Hs & Hp)|He].
  - rewrite Hs. cbn [py_float]. rewrite Hp. reflexivity.
  - rewrite He. reflexivity.
Qed.

Lemma polling_loop_retry (fuel : nat) (f : nat -> attempt) (T now : Q) (k : nat) :
  now < T -> fruitless (f k) ->
  polling_loop (S fuel) f T now k =
  polling_loop fuel f T (now + took (f k) + 0.25) (S k).
Proof.
  intros Hnow Hf. cbn [polling_loop].
  apply Qltb_lt in Hnow. rewrite Hnow, (fruitless_raises _ Hf). reflexivity.
Qed.

(** After [k] fruitless calls the loop stands at call [k]. *)
Lemma polling_loop_prefix (f : nat -> attempt) (T : Q) (k : nat) :
  (forall j, (j < k)%nat -> start_of f j < T /\ fruitless (f j)) ->
  forall fuel,
    polling_loop (k + fuel) f T 0 0 = polling_loop fuel f T (start_of f k) k.
Proof.
  induction k as [|k IH]; intros Hpre fuel; [reflexivity|].
  replace (S k + fuel)%nat with (k + S fuel)%nat by lia.
  rewrite IH by (intros j Hj; apply Hpre; lia).
  destruct (Hpre k (Nat.lt_succ_diag_r k)) as [Hk Hu].
  rewrite (polling_loop_retry fuel f T _ k Hk Hu). reflexivity.
Qed.

Lemma start_of_lower_bound (f : nat -> attempt) (k : nat) :
  (forall j, 0 <= took (f j)) ->
  inject_Z (Z.of_nat k) * 0.25 <= start_of f k.
Proof.
  intro Hdur. induction k as [|k IH].
  - cbn [start_of Z.of_nat]. change (inject_Z 0) with 0. lra.
  - cbn [start_of]. rewrite Nat2Z.inj_succ. unfold Z.succ.
    rewrite inject_Z_plus. change (inject_Z 1) with 1.
    specialize (Hdur k). lra.
Qed.

Lemma started_in_time_bounded (f : nat -> attempt) (T : Q) (k : nat) :
  (forall j, 0 <= took (f j)) ->
  start_of f k < T ->
  (k < Z.to_nat (Qceiling (T / 0.25)))%nat.
Proof.
  intros Hdur Hk.
  pose proof (start_of_lower_bound f k Hdur) as Hlow.
  pose proof (Qle_ceiling (T / 0.25)) as Hceil.
  assert (Hdiv : T / 0.25 == T * 4) by (field; discriminate).
  assert (Hlt : inject_Z (Z.of_nat k) < inject_Z (Qceiling (T / 0.25))).
  { set (c := inject_Z (Qceiling (T / 0.25))) in *.
    set (q := T / 0.25) in *. lra. }
  rewrite <- Zlt_Qlt in Hlt. lia.
Qed.

End Reader.
End PollingFacts.

Module PollingSpec.
Import Py PyFacts Bode PollingFacts.
Local Open Scope Q_scope.

Section Reader.
Context `{Runtime}.

Lemma start_of_step (f : nat -> attempt) (k : nat) :
  (forall j, 0 <= took (f j)) -> start_of f k <= start_of f (S k).
Proof. intro Hdur. cbn [start_of]. specialize (Hdur k). lra. Qed.

Lemma start_of_mono (f : nat -> attempt) (j k : nat) :
  (forall i, 0 <= took (f i)) -> (j <= k)%nat -> start_of f j <= start_of f k.
Proof.
  intros Hdur Hjk. induction Hjk as [|k Hjk IH]; [apply Qle_refl|].
  apply Qle_trans with (start_of f k); [exact IH|].
  apply start_of_step. exact Hdur.
Qed.

(** The loop stands at call [k] with fuel to spare when the first [k]
    calls were fruitless and call [k] starts before the timeout. *)
Lemma reader_reaches (f : nat -> attempt) (T : Q) (k : nat) :
  (forall j, 0 <= took (f j)) ->
  (forall j, (j < k)%nat -> fruitless (f j)) ->
  start_of f k < T ->
  exists fuel,
    read_measurement_with_polling f T =
    polling_loop (S fuel) f T (start_of f k) k.
Proof.
  intros Hdur Hpre Hk.
  pose proof (started_in_time_bounded f T k Hdur Hk) as Hfuel.
  exists (polling_fuel T - S k)%nat.
  unfold read_measurement_with_polling.
  replace (polling_fuel T) with (k + S (polling_fuel T - S k))%nat at 1
    by (unfold polling_fuel; lia).
  apply polling_loop_prefix. intros j Hj. split; [|apply Hpre; exact Hj].
  apply Qle_lt_trans with (start_of f k); [|exact Hk].
  apply start_of_mono; [exact Hdur|lia].
Qed.

(** The reader always returns: the fuel of the model is enough. *)
Lemma polling_loop_returns (f : nat -> attempt) (T : Q) :
  (forall j, 0 <= took (f j)) ->
  forall fuel now k,
    (1 <= fuel)%nat ->
    4 * (T - now) <= inject_Z (Z.of_nat fuel) - 1 ->
    exists r, polling_loop fuel f T now k = Some r.
Proof.
  intro Hdur. induction fuel as [|fuel IH]; intros now k Hone Hinv; [lia|].
  cbn [polling_loop]. destruct (Qltb now T) eqn:Hnow; [|eexists; reflexivity].
  apply Qltb_lt in Hnow.
  destruct (call_and_convert (f k)) as [v|e]; [eexists; reflexivity|].
  destruct (exn_eqb e ValueError).
  - rewrite Nat2Z.inj_succ in Hinv. unfold Z.succ in Hinv.
    rewrite inject_Z_plus in Hinv. change (inject_Z 1) with 1 in Hinv.
    specialize (Hdur k).
    assert (Hpos : 0 < inject_Z (Z.of_nat fuel)) by lra.
    change 0 with (inject_Z 0) in Hpos. rewrite <- Zlt_Qlt in Hpos.
    apply IH; [lia|lra].
  - destruct (is_Exception e); eexists; reflexivity.
Qed.

Lemma polling_reader_returns (f : nat -> attempt) (T : Q) :
  (forall j, 0 <= took (f j)) ->
  exists r, read_measurement_with_polling f T = Some r.
Proof.
  intro Hdur. unfold read_measurement_with_polling.
  apply polling_loop_returns; [exact Hdur|unfold polling_fuel; lia|].
  unfold polling_fuel. rewrite Nat2Z.inj_succ. unfold Z.succ.
  rewrite inject_Z_plus. change (inject_Z 1) with 1.
  pose proof (Qle_ceiling (T / 0.25)) as Hceil.
  assert (Hdiv : T / 0.25 == T * 4) by (field; discriminate).
  assert (Hnat : inject_Z (Qceiling (T / 0.25))
                 <= inject_Z (Z.of_nat (Z.to_nat (Qceiling (T / 0.25))))).
  { rewrite <- Zle_Qle. lia. }
  set (c := inject_Z (Qceiling (T / 0.25))) in *.
  set (n := inject_Z (Z.of_nat (Z.to_nat (Qceiling (T / 0.25))))) in *.
  set (q := T / 0.25) in *. lra.
Qed.

(** C2, as amended.  The polling reader returns the float of the first
    response that parses, whatever its magnitude (overload values
    included); a response that does not parse, and a call that raises
    [ValueError], is retried, and once the timeout has elapsed the reader
    returns [None]; a call that raises any other [Exception] (and a call
    that comes back with [None]) ends the read with [None] at once, with
    no further call of the measurement function. *)
Theorem polling_reader_contract (f : nat -> attempt) (T : Q)
    (Hdur : forall j, 0 <= took (f j)) :
  (forall k s v,
      (forall j, (j < k)%nat -> fruitless (f j)) ->
      start_of f k < T ->
      answer (f k) = Text s -> float_of_string s = Some v ->
      read_measurement_with_polling f T =
        Some {| returned := Ok (Some v); calls := S k |}) /\
  (forall n,
      (forall j, (j < n)%nat -> fruitless (f j)) ->
      (forall j, (j < n)%nat -> start_of f j < T) ->
      T <= start_of f n ->
      read_measurement_with_polling f T =
        Some {| returned := Ok None; calls := n |}) /\
  (forall k e,
      (forall j, (j < k)%nat -> fruitless (f j)) ->
      start_of f k < T ->
      answer (f k) = Throws e -> is_Exception e = true -> e <> ValueError ->
      read_measurement_with_polling f T =
        Some {| returned := Ok None; calls := S k |}) /\
  (forall k,
      (forall j, (j < k)%nat -> fruitless (f j)) ->
      start_of f k < T ->
      answer (f k) = NoData ->
      read_measurement_with_polling f T =
        Some {| returned := Ok None; calls := S k |}).
Proof.
  split; [|split; [|split]].
  - intros k s v Hpre Hk Hs Hv.
    destruct (reader_reaches f T k Hdur Hpre Hk) as [fuel ->].
    cbn [polling_loop]. apply Qltb_lt in Hk. unfold call_and_convert.
    rewrite Hk, Hs. cbn [py_float]. rewrite Hv. reflexivity.
  - intros n Hpre Hin Hout.
    assert (Hfuel : (n < polling_fuel T)%nat).
    { destruct n as [|m]; [unfold polling_fuel; lia|].
      pose proof (started_in_time_bounded f T m Hdur
                    (Hin m (Nat.lt_succ_diag_r m))) as Hm.
      unfold polling_fuel. lia. }
    unfold read_measurement_with_polling.
    replace (polling_fuel T) with (n + S (polling_fuel T - S n))%nat by lia.
    rewrite polling_loop_prefix
      by (intros j Hj; split; [apply Hin|apply Hpre]; exact Hj).
    cbn [polling_loop]. apply Qltb_ge in Hout. rewrite Hout. reflexivity.
  - intros k e Hpre Hk He Hexc Hother.
    destruct (reader_reaches f T k Hdur Hpre Hk) as [fuel ->].
    cbn [polling_loop]. apply Qltb_lt in Hk. unfold call_and_convert.
    rewrite Hk, He.
    destruct e; try reflexivity; [discriminate Hexc|contradiction].
  - intros k Hpre Hk He.
    destruct (reader_reaches f T k Hdur Hpre Hk) as [fuel ->].
    cbn [polling_loop]. apply Qltb_lt in Hk. unfold call_and_convert.
    rewrite Hk, He. reflexivity.
Qed.

End Reader.

(** An overloaded reading is returned as it is, after one retry. *)
Lemma polling_reader_contract_witness :
  (forall j, 0 <= took (Fixtures.slow_overloaded_scope j)) /\
  read_measurement_with_polling (H := Fixtures.table_runtime)
    Fixtures.slow_overloaded_scope 10.0 =
    Some {| returned := Ok (Some 2e30); calls := 2 |}.
Proof.
  assert (Hdur : forall j, 0 <= took (Fixtures.slow_overloaded_scope j))
    by (intros [|j]; cbn; discriminate).
  split; [exact Hdur|].
  apply (proj1 (polling_reader_contract (H := Fixtures.table_runtime)
                  Fixtures.slow_overloaded_scope 10.0 Hdur)
           1%nat "2e30"%string 2e30).
  - intros j Hj. assert (j = 0%nat) as -> by lia.
    left. exists "?"%string. split; reflexivity.
  - reflexivity.
  - reflexivity.
  - reflexivity.
Defined.

(** C2, the claim as it stands fails.  The measurement function raises
    [ValueError], an exception of the call and not of the conversion, at
    its first call: the reader does not end the read with [None] but
    sleeps, calls again and returns the value of the second call. *)
Lemma raising_call_is_retried :
  answer (Fixtures.raising_then_ready_scope 0) = Throws ValueError /\
  is_Exception ValueError = true /\
  read_measurement_with_polling (H := Fixtures.table_runtime)
    Fixtures.raising_then_ready_scope 10.0 =
    Some {| returned := Ok (Some 1.0); calls := 2 |} /\
  read_measurement_with_polling (H := Fixtures.table_runtime)
    Fixtures.raising_then_ready_scope 10.0 <>
    Some {| returned := Ok None; calls := 1 |}.
Proof.
  assert (Hrun : read_measurement_with_polling (H := Fixtures.table_runtime)
                   Fixtures.raising_then_ready_scope 10.0 =
                 Some {| returned := Ok (Some 1.0); calls := 2 |})
    by (vm_compute; reflexivity).
  split; [reflexivity|]. split; [reflexivity|]. split; [exact Hrun|].
  rewrite Hrun. discriminate.
Qed.

End PollingSpec.

Module BenchFacts.
Import Py Eff Bench.

Lemma scope_send_up (c : scope_cmd) (b : bench) :
  scope_link b = true ->
  scope_send c b = (Ok tt, add_event (ToScope c) b).
Proof. intro Hup. unfold scope_send. rewrite Hup. reflexivity. Qed.

Lemma scope_send_down (c : scope_cmd) (b : bench) :
  scope_link b = false -> scope_send c b = (Raise ConnectionError, b).
Proof. intro Hdown. unfold scope_send. rewrite Hdown. reflexivity. Qed.

Lemma gen_send_up (c : gen_cmd) (b : bench) :
  gen_link b = true -> gen_send c b = (Ok tt, add_event (ToGen c) b).
Proof. intro Hup. unfold gen_send. rewrite Hup. reflexivity. Qed.

Lemma gen_send_down (c : gen_cmd) (b : bench) :
  gen_link b = false -> gen_send c b = (Raise ConnectionError, b).
Proof. intro Hdown. unfold gen_send. rewrite Hdown. reflexivity. Qed.

Lemma scope_link_add_event (e : event) (b : bench) :
  scope_link (add_event e b) = scope_link b.
Proof. reflexivity. Qed.

Lemma gen_link_add_event (e : event) (b : bench) :
  gen_link (add_event e b) = gen_link b.
Proof. reflexivity. Qed.

Lemma sleep_run (d : Q) (b : bench) :
  sleep d b = (Ok tt, add_event (Sleep d) b).
Proof. reflexivity. Qed.

Lemma bind_ok {S A B : Type} (m : M S A) (k : A -> M S B) (s s' : S) (a : A) :
  m s = (Ok a, s') -> bind m k s = k a s'.
Proof. intro Hm. unfold bind. rewrite Hm. reflexivity. Qed.

Lemma bind_raise {S A B : Type} (m : M S A) (k : A -> M S B) (s s' : S)
    (e : exn) :
  m s = (Raise e, s') -> bind m k s = (Raise e, s').
Proof. intro Hm. unfold bind. rewrite Hm. reflexivity. Qed.

End BenchFacts.

Module SamplerFacts.
Import Py PyFacts Eff Bench BenchFacts Bode.
Local Open Scope Q_scope.

(** With the connection up, one turn of the loop appends the values of
    the repetition when it is accepted and nothing otherwise. *)
Lemma read_once_up (reads : nat -> reading) (w : Q) (i : nat)
    (v1 v2 d : list Q) (b : bench) :
  scope_link b = true ->
  exists b',
    read_once reads w i (v1, v2, d) b =
      (Ok (match accepts (reads i) with
           | Some s => (v1 ++ [primary s], v2 ++ [secondary s], d ++ [timing s])
           | None => (v1, v2, d)
           end), b')
    /\ scope_link b' = true /\ gen_link b' = gen_link b.
Proof.
  intro Hup. unfold read_once, bind, sleep, emit, modify, poll, accepts.
  cbn [scope_link add_event fst snd]. rewrite Hup.
  destruct (reads i) as [[[vpp1|] [vpp2|]] [delay|]]; cbn [fst snd];
    try (eexists; split; [reflexivity|split; [exact Hup|reflexivity]]).
  destruct (Qgtb vpp1 1e30 || Qgtb vpp2 1e30 || Qgtb (Qabs delay) 1e30);
    [eexists; split; [reflexivity|split; [exact Hup|reflexivity]]|].
  destruct (Qltb vpp1 1e-9);
    eexists; (split; [reflexivity|split; [exact Hup|reflexivity]]).
Qed.

Lemma reading_loop_up (reads : nat -> reading) (w : Q) (idxs : list nat) :
  forall (v1 v2 d : list Q) (b : bench),
    scope_link b = true ->
    exists b',
      for_loop idxs (v1, v2, d) (read_once reads w) b =
        (Ok (v1 ++ map primary (accepted_samples (map reads idxs)),
             v2 ++ map secondary (accepted_samples (map reads idxs)),
             d ++ map timing (accepted_samples (map reads idxs))), b')
      /\ scope_link b' = true /\ gen_link b' = gen_link b.
Proof.
  induction idxs as [|i rest IH]; intros v1 v2 d b Hup.
  - exists b. cbn. rewrite !app_nil_r. auto.
  - cbn [for_loop map accepted_samples].
    destruct (read_once_up reads w i v1 v2 d b Hup) as (b1 & Hstep & Hup1 & Hg1).
    rewrite (bind_ok _ _ _ _ _ Hstep).
    destruct (accepts (reads i)) as [s|].
    + destruct (IH (v1 ++ [primary s]) (v2 ++ [secondary s])
                  (d ++ [timing s]) b1 Hup1) as (b2 & Hrest & Hup2 & Hg2).
      exists b2. rewrite Hrest. cbn [map]. rewrite <- !app_assoc. cbn [app].
      split; [reflexivity|]. split; [exact Hup2|congruence].
    + destruct (IH v1 v2 d b1 Hup1) as (b2 & Hrest & Hup2 & Hg2).
      exists b2. rewrite Hrest.
      split; [reflexivity|]. split; [exact Hup2|congruence].
Qed.

Lemma add_measurements_up (b : bench) :
  scope_link b = true ->
  exists b',
    add_measurements b = (Ok tt, b')
    /\ scope_link b' = true /\ gen_link b' = gen_link b.
Proof.
  intro Hup. unfold add_measurements, bind, scope_send, sleep, emit, modify.
  repeat (rewrite ?scope_link_add_event; rewrite Hup; cbv beta iota).
  eexists. split; [reflexivity|].
  rewrite !scope_link_add_event, !gen_link_add_event. auto.
Qed.

Lemma add_measurements_down (b : bench) :
  scope_link b = false ->
  add_measurements b = (Raise ConnectionError, b).
Proof.
  intro Hdown. unfold add_measurements.
  apply bind_raise. apply scope_send_down. exact Hdown.
Qed.

Lemma py_len_cons_nonzero (x : Q) (l : list Q) :
  Qeq_bool (py_len (x :: l)) 0 = false.
Proof.
  destruct (Qeq_bool (py_len (x :: l)) 0) eqn:E; [|reflexivity].
  apply Qeq_bool_eq in E. unfold py_len, Qeq in E.
  cbn [Qnum Qden inject_Z List.length] in E. lia.
Qed.

Lemma py_truediv_mean (x : Q) (l : list Q) :
  py_truediv (py_sum (x :: l)) (py_len (x :: l)) =
  Ok (py_sum (x :: l) / py_len (x :: l)).
Proof. unfold py_truediv. rewrite py_len_cons_nonzero. reflexivity. Qed.

Lemma fold_left_Qplus (l : list Q) (a : Q) :
  fold_left Qplus l a == a + fold_right Qplus 0 l.
Proof.
  revert a. induction l as [|x l IH]; intro a; cbn [fold_left fold_right].
  - ring.
  - rewrite IH. ring.
Qed.

Lemma py_mean_is_arithmetic_mean (l : list Q) :
  py_sum l / py_len l == arithmetic_mean l.
Proof.
  unfold py_sum, py_len, arithmetic_mean.
  rewrite fold_left_Qplus. rewrite Qplus_0_l. reflexivity.
Qed.

End SamplerFacts.

Module SamplerSpec.
Import Py PyFacts Eff Bench BenchFacts Bode SamplerFacts.
Local Open Scope Q_scope.

Lemma sampler_lists_up (reads : nat -> reading) (N : Z) (w : Q) (b : bench) :
  scope_link b = true ->
  exists b',
    try_except
      (bind add_measurements (fun _ =>
         bind (for_loop (range N) ([], [], []) (read_once reads w))
           (fun vals => ret (Some vals))))
      is_Exception (fun _ => ret None) b =
    (Ok (Some (map primary (accepted_samples (map reads (range N))),
               map secondary (accepted_samples (map reads (range N))),
               map timing (accepted_samples (map reads (range N))))), b').
Proof.
  intro Hup.
  destruct (add_measurements_up b Hup) as (b1 & Hadd & Hup1 & _).
  destruct (reading_loop_up reads w (range N) [] [] [] b1 Hup1)
    as (b2 & Hloop & _ & _).
  exists b2. unfold try_except.
  rewrite (bind_ok _ _ _ _ _ Hadd). rewrite (bind_ok _ _ _ _ _ Hloop).
  reflexivity.
Qed.

Lemma sampler_lists_down (reads : nat -> reading) (N : Z) (w : Q) (b : bench) :
  scope_link b = false ->
  try_except
    (bind add_measurements (fun _ =>
       bind (for_loop (range N) ([], [], []) (read_once reads w))
         (fun vals => ret (Some vals))))
    is_Exception (fun _ => ret None) b =
  (Ok None, b).
Proof.
  intro Hdown. unfold try_except.
  rewrite (bind_raise _ _ _ _ _ (add_measurements_down b Hdown)).
  reflexivity.
Qed.

(** C1. For every repetition count and every sequence of repetitions, the
    sampler returns, for each of the three quantities, the arithmetic mean
    over the accepted repetitions, the same repetitions for the three of
    them (a repetition is accepted or discarded as a whole); with no
    accepted repetition it returns [(None, None, None)], and so it does
    when the connection to the oscilloscope is closed. *)
Theorem sampler_returns_mean_of_accepted (reads : nat -> reading) (N : Z)
    (t_base_sec : Q) (b : bench) :
  let acc := accepted_samples (map reads (range N)) in
  exists r,
    fst (get_measurement_avg_auto reads N t_base_sec b) = Ok r /\
    if scope_link b then
      match acc with
      | [] => r = (None, None, None)
      | _ :: _ =>
          same_outputs r (arithmetic_mean (map primary acc))
                         (arithmetic_mean (map secondary acc))
                         (arithmetic_mean (map timing acc))
      end
    else r = (None, None, None).
Proof.
  intro acc. unfold get_measurement_avg_auto.
  set (w := py_max (t_base_sec * 2.0) 0.5).
  destruct (scope_link b) eqn:Hlink.
  - destruct (sampler_lists_up reads N w b Hlink) as (b' & Hlists).
    rewrite (bind_ok _ _ _ _ _ Hlists). fold acc.
    destruct acc as [|s acc'].
    + exists (None, None, None). split; reflexivity.
    + cbn [map]. unfold bind, eval, ret. rewrite !py_truediv_mean.
      eexists. split; [reflexivity|]. unfold same_outputs.
      repeat split; apply py_mean_is_arithmetic_mean.
  - rewrite (bind_ok _ _ _ _ _ (sampler_lists_down reads N w b Hlink)).
    exists (None, None, None). split; reflexivity.
Qed.

(** The scenario of the specification: the repetition with channel 2 in
    overload is left out, and the means are those of the two others. *)
Example sampler_skips_overloaded_repetition :
  match fst (get_measurement_avg_auto Fixtures.reads_with_overload 3 1e-3
               Fixtures.idle_bench) with
  | Ok r => same_outputs r 0.75 0.5 0.25
  | Raise _ => False
  end.
Proof. vm_compute. repeat split. Qed.

(** C4, as the specification words it, fails: a repetition whose channel-1
    value is exactly the overload mark 1e30 is accepted and averaged. *)
Lemma overload_mark_itself_is_averaged :
  1e30 <= Qabs 1e30 /\
  match fst (get_measurement_avg_auto Fixtures.reads_at_mark 1 1e-3
               Fixtures.idle_bench) with
  | Ok r => same_outputs r 1e30 1.0 0.0
  | Raise _ => False
  end.
Proof. vm_compute. split; [discriminate|repeat split]. Qed.

(** C4, amended. With the connection up, one turn of the reading loop on a
    repetition whose three reads came back leaves the three lists as they
    are when channel 1 or channel 2 is above 1e30, the magnitude of the
    delay is above 1e30, or channel 1 is below 1e-9; in every other case it
    appends the three values unchanged. *)
Theorem repetition_discarded_iff_out_of_range (reads : nat -> reading)
    (w : Q) (i : nat) (v1 v2 d : list Q) (b : bench) (vpp1 vpp2 delay : Q) :
  reads i = (Some vpp1, Some vpp2, Some delay) ->
  scope_link b = true ->
  ((1e30 < vpp1 \/ 1e30 < vpp2 \/ 1e30 < Qabs delay \/ vpp1 < 1e-9) ->
     fst (read_once reads w i (v1, v2, d) b) = Ok (v1, v2, d)) /\
  (~ (1e30 < vpp1 \/ 1e30 < vpp2 \/ 1e30 < Qabs delay \/ vpp1 < 1e-9) ->
     fst (read_once reads w i (v1, v2, d) b) =
       Ok (v1 ++ [vpp1], v2 ++ [vpp2], d ++ [delay])).
Proof.
  intros Hr Hup.
  destruct (read_once_up reads w i v1 v2 d b Hup) as (b' & Hrun & _ & _).
  rewrite Hrun. cbn [fst]. rewrite Hr. unfold accepts.
  destruct (Qgtb vpp1 1e30) eqn:E1;
    [apply Qgtb_gt in E1|apply Qgtb_le in E1];
    (destruct (Qgtb vpp2 1e30) eqn:E2;
     [apply Qgtb_gt in E2|apply Qgtb_le in E2]);
    (destruct (Qgtb (Qabs delay) 1e30) eqn:E3;
     [apply Qgtb_gt in E3|apply Qgtb_le in E3]);
    (destruct (Qltb vpp1 1e-9) eqn:E4;
     [apply Qltb_lt in E4|apply Qltb_ge in E4]);
    cbn [orb];
    try (split; [intros _; reflexivity | intro Hn; exfalso; apply Hn; tauto]).
  split; [|intros _; reflexivity].
  intros [Hc|[Hc|[Hc|Hc]]]; exfalso; eapply Qlt_not_le; eassumption.
Qed.

Lemma repetition_discarded_iff_out_of_range_witness :
  fst (read_once Fixtures.reads_with_overload 0.5 1 ([1.0], [0.5], [0.0])
         Fixtures.idle_bench) = Ok ([1.0], [0.5], [0.0]).
Proof.
  apply (proj1 (repetition_discarded_iff_out_of_range
                  Fixtures.reads_with_overload 0.5 1 [1.0] [0.5] [0.0]
                  Fixtures.idle_bench 1.0 2e30 0.0 eq_refl eq_refl)).
  right. left. reflexivity.
Defined.

End SamplerSpec.

Module DerivedQuantities.
Import Py PyFacts Bode.
Local Open Scope Q_scope.

Lemma py_mod_decomposition (a b : Q) :
  py_mod a b == a + b * inject_Z (- Qfloor (a / b)).
Proof. unfold py_mod. rewrite inject_Z_opp. ring. Qed.

Lemma py_mod_range (a b : Q) : 0 < b -> 0 <= py_mod a b /\ py_mod a b < b.
Proof.
  intro Hb. unfold py_mod.
  pose proof (Qfloor_le (a / b)) as Hlo.
  pose proof (Qlt_floor (a / b)) as Hhi.
  rewrite inject_Z_plus in Hhi. change (inject_Z 1) with 1 in Hhi.
  assert (Ha : a == b * (a / b)).
  { field. intro Hz. rewrite Hz in Hb. discriminate. }
  set (q := a / b) in *. set (f := inject_Z (Qfloor q)) in *.
  assert (H0 : 0 <= b * (q - f)).
  { apply Qmult_le_0_compat; [apply Qlt_le_weak; exact Hb|lra]. }
  assert (H1 : 0 < b * (f + 1 - q)).
  { apply Qmult_lt_0_compat; [exact Hb|lra]. }
  split.
  - setoid_replace (a - b * f) with (b * (q - f)); [exact H0|].
    rewrite Ha at 1. ring.
  - assert (Hd : b - (a - b * f) == b * (f + 1 - q)).
    { rewrite Ha at 1. ring. }
    lra.
Qed.

Lemma py_mod_comp (a a' b : Q) : a == a' -> py_mod a b == py_mod a' b.
Proof.
  intro Ha. unfold py_mod.
  rewrite (Qfloor_comp (a / b) (a' / b)) by (rewrite Ha; reflexivity).
  rewrite Ha. reflexivity.
Qed.

Lemma py_mod_small (a b : Q) : 0 <= a -> a < b -> py_mod a b == a.
Proof.
  intros Hlo Hhi. unfold py_mod.
  assert (Hb : 0 < b) by lra.
  assert (Hq0 : 0 <= a / b).
  { apply Qle_shift_div_l; [exact Hb|lra]. }
  assert (Hq1 : a / b < 1).
  { apply Qlt_shift_div_r; [exact Hb|lra]. }
  assert (Hf : Qfloor (a / b) = 0%Z).
  { pose proof (Qfloor_le (a / b)) as H1.
    pose proof (Qlt_floor (a / b)) as H2.
    assert (Hlt1 : inject_Z (Qfloor (a / b)) < inject_Z 1)
      by (change (inject_Z 1) with 1; lra).
    assert (Hlt2 : inject_Z (-1) < inject_Z (Qfloor (a / b))).
    { rewrite inject_Z_plus in H2. change (inject_Z 1) with 1 in H2.
      change (inject_Z (-1)) with (-1). lra. }
    rewrite <- Zlt_Qlt in Hlt1, Hlt2. lia. }
  rewrite Hf. change (inject_Z 0) with 0. ring.
Qed.

(** C5. The recorded phase is the raw phase [-delay * frequency * 360]
    reduced modulo 360 into [0, 360) and then lowered by 360 when it is
    above 180: it differs from the raw phase by a multiple of 360 and lies
    in the half-open interval (-180, 180]; a raw phase of exactly 180
    gives 180 and a raw phase of 181 gives -179. *)
Theorem phase_wrapped_into_half_open_interval (delay freq : Q) :
  let raw := - delay * freq * 360.0 in
  phase_deg delay freq =
    (if Qgtb (py_mod raw 360.0) 180.0
     then py_mod raw 360.0 - 360.0 else py_mod raw 360.0) /\
  (0 <= py_mod raw 360.0 /\ py_mod raw 360.0 < 360) /\
  (exists k : Z, phase_deg delay freq == raw + 360 * inject_Z k) /\
  (- (180) < phase_deg delay freq /\ phase_deg delay freq <= 180) /\
  (raw == 180 -> phase_deg delay freq == 180) /\
  (raw == 181 -> phase_deg delay freq == - (179)).
Proof.
  intro raw.
  assert (H360 : (0 : Q) < 360.0) by reflexivity.
  destruct (py_mod_range raw 360.0 H360) as [Hlo Hhi].
  assert (Hten : 360.0 == 360) by reflexivity.
  assert (H180 : 180.0 == 180) by reflexivity.
  pose proof (py_mod_decomposition raw 360.0) as Hdec.
  split; [reflexivity|]. split; [split; lra|].
  unfold phase_deg. fold raw.
  destruct (Qgtb (py_mod raw 360.0) 180.0) eqn:E;
    [apply Qgtb_gt in E|apply Qgtb_le in E].
  - split.
    { exists (- Qfloor (raw / 360.0) + (-1))%Z.
      rewrite inject_Z_plus. change (inject_Z (-1)) with (-(1)).
      set (fl := inject_Z (- Qfloor (raw / 360.0))) in *. lra. }
    split; [split; lra|]. split; intro Hraw.
    + rewrite (py_mod_comp raw 180 360.0 Hraw) in E.
      rewrite py_mod_small in E by (split || reflexivity || discriminate).
      lra.
    + rewrite (py_mod_comp raw 181 360.0 Hraw).
      rewrite py_mod_small by (reflexivity || discriminate). lra.
  - split.
    { exists (- Qfloor (raw / 360.0))%Z. lra. }
    split; [split; lra|]. split; intro Hraw.
    + rewrite (py_mod_comp raw 180 360.0 Hraw).
      rewrite py_mod_small by (reflexivity || discriminate). reflexivity.
    + rewrite (py_mod_comp raw 181 360.0 Hraw) in E.
      rewrite py_mod_small in E by (reflexivity || discriminate).
      exfalso. apply (Qlt_not_le 180.0 181); [reflexivity|exact E].
Qed.

(** A delay of half a period lags by 180 degrees; one degree more wraps
    to -179. *)
Lemma phase_wrapped_into_half_open_interval_witness :
  phase_deg (- (1 # 2)) 1 == 180 /\ phase_deg (- (181 # 360)) 1 == - (179).
Proof.
  split.
  - apply (phase_wrapped_into_half_open_interval (- (1 # 2)) 1). reflexivity.
  - apply (phase_wrapped_into_half_open_interval (- (181 # 360)) 1).
    reflexivity.
Defined.

Section Magnitude.
Context `{Runtime}.

(** C10. Before the ratio is taken, a channel-1 amplitude below 1e-9 is
    replaced by exactly 1e-9, so the divisor is at least 1e-9: the division
    never raises [ZeroDivisionError], and the result is either the finite
    value [20 * log10(vpp2 / divisor)] or, for a ratio that is not
    positive, the domain error of [math.log10]; it is never an infinity. *)
Theorem magnitude_divisor_is_floored (vpp1 vpp2 : Q) :
  let divisor := if Qltb vpp1 1e-9 then 1e-9 else vpp1 in
  1e-9 <= divisor /\
  (if Qltb vpp1 1e-9 then divisor = 1e-9 else divisor = vpp1) /\
  magnitude_db vpp1 vpp2 <> Raise ZeroDivisionError /\
  magnitude_db vpp1 vpp2 =
    (if Qleb (vpp2 / divisor) 0 then Raise ValueError
     else Ok (20 * log10 (vpp2 / divisor))).
Proof.
  intro divisor.
  assert (Hfloor : 1e-9 <= divisor).
  { subst divisor. destruct (Qltb vpp1 1e-9) eqn:E.
    - apply Qle_refl.
    - apply Qltb_ge in E. exact E. }
  assert (Hnz : Qeq_bool divisor 0 = false).
  { destruct (Qeq_bool divisor 0) eqn:E; [|reflexivity].
    apply Qeq_bool_eq in E. rewrite E in Hfloor.
    exfalso. revert Hfloor. vm_compute. intro Hc. apply Hc. reflexivity. }
  assert (Hrun : magnitude_db vpp1 vpp2 =
            (if Qleb (vpp2 / divisor) 0 then Raise ValueError
             else Ok (20 * log10 (vpp2 / divisor)))).
  { unfold magnitude_db, py_truediv, math_log10. fold divisor.
    rewrite Hnz. destruct (Qleb (vpp2 / divisor) 0); reflexivity. }
  split; [exact Hfloor|]. split.
  - subst divisor. destruct (Qltb vpp1 1e-9); reflexivity.
  - split; [|exact Hrun].
    rewrite Hrun. destruct (Qleb (vpp2 / divisor) 0); discriminate.
Qed.

End Magnitude.

(** A channel 2 that reads zero makes the logarithm raise. *)
Example magnitude_of_silent_channel :
  magnitude_db (H := Fixtures.table_runtime) 1.0 0.0 = Raise ValueError.
Proof. vm_compute. reflexivity. Qed.

End DerivedQuantities.

Module EffFacts.
Import Py Eff.

Section Kept.
Context {S L : Type} (links : S -> L).

Lemma keeps_ret {A : Type} (a : A) : keeps links (ret a).
Proof. intro s. reflexivity. Qed.

Lemma keeps_raise {A : Type} (e : exn) : keeps links (@raise S A e).
Proof. intro s. reflexivity. Qed.

Lemma keeps_eval {A : Type} (o : outcome A) : keeps links (eval o).
Proof. intro s. reflexivity. Qed.

Lemma keeps_gets {A : Type} (f : S -> A) : keeps links (gets f).
Proof. intro s. reflexivity. Qed.

Lemma keeps_modify (f : S -> S) :
  (forall s, links (f s) = links s) -> keeps links (modify f).
Proof. intros Hf s. apply Hf. Qed.

Lemma keeps_bind {A B : Type} (m : M S A) (k : A -> M S B) :
  keeps links m -> (forall a, keeps links (k a)) -> keeps links (bind m k).
Proof.
  intros Hm Hk s. unfold bind. specialize (Hm s).
  destruct (m s) as [[a|e] s1]; cbn [snd] in *.
  - rewrite (Hk a s1). exact Hm.
  - exact Hm.
Qed.

Lemma keeps_try_except {A : Type} (body : M S A) (handles : exn -> bool)
    (handler : exn -> M S A) :
  keeps links body -> (forall e, keeps links (handler e)) ->
  keeps links (try_except body handles handler).
Proof.
  intros Hb Hh s. unfold try_except. specialize (Hb s).
  destruct (body s) as [[a|e] s1]; cbn [snd] in *; [exact Hb|].
  destruct (handles e); cbn [snd]; [|exact Hb].
  rewrite (Hh e s1). exact Hb.
Qed.

Lemma keeps_try_finally {A : Type} (body : M S A) (cleanup : M S unit) :
  keeps links body -> keeps links cleanup -> keeps links (try_finally body cleanup).
Proof.
  intros Hb Hc s. unfold try_finally. specialize (Hb s).
  destruct (body s) as [r s1]. specialize (Hc s1).
  destruct (cleanup s1) as [[u|e] s2]; cbn [snd] in *; congruence.
Qed.

Lemma keeps_for_loop {X V : Type} (xs : list X) (body : X -> V -> M S V) :
  (forall x v, keeps links (body x v)) -> forall v, keeps links (for_loop xs v body).
Proof.
  intro Hb. induction xs as [|x xs IH]; intro v; cbn [for_loop].
  - apply keeps_ret.
  - apply keeps_bind; [apply Hb|exact IH].
Qed.

End Kept.

Lemma keeps_zoom {S T L A : Type} (links : S -> L) (get : T -> S)
    (set : S -> T -> T) (m : M S A) :
  (forall s t, get (set s t) = s) ->
  keeps links m -> keeps (fun t => links (get t)) (zoom get set m).
Proof.
  intros Hgs Hm t. unfold zoom. specialize (Hm (get t)).
  destruct (m (get t)) as [r s1]. cbn [snd] in *. rewrite Hgs. exact Hm.
Qed.

Lemma for_loop_app {S X : Type} (l1 l2 : list X) (body : X -> unit -> M S unit)
    (s : S) :
  for_loop (l1 ++ l2) tt body s =
  bind (for_loop l1 tt body) (fun _ => for_loop l2 tt body) s.
Proof.
  revert s. induction l1 as [|x l1 IH]; intro s; cbn [app for_loop].
  - reflexivity.
  - unfold bind. destruct (body x tt s) as [[[]|e] s1]; [|reflexivity].
    rewrite IH. reflexivity.
Qed.

End EffFacts.

Module SweepFacts.
Import Py PyFacts Eff EffFacts Bench BenchFacts Bode.
Local Open Scope Q_scope.

Lemma keeps_emit (e : event) : keeps bench_links (emit e).
Proof. intro b. reflexivity. Qed.

Lemma keeps_sleep (d : Q) : keeps bench_links (sleep d).
Proof. intro b. reflexivity. Qed.

Lemma keeps_scope_send (c : scope_cmd) : keeps bench_links (scope_send c).
Proof. intro b. unfold scope_send. destruct (scope_link b); reflexivity. Qed.

Lemma keeps_gen_send (c : gen_cmd) : keeps bench_links (gen_send c).
Proof. intro b. unfold gen_send. destruct (gen_link b); reflexivity. Qed.

Lemma keeps_poll (item : string) (n : nat) (v : option Q) :
  keeps bench_links (poll item n v).
Proof. intro b. reflexivity. Qed.

Create HintDb keeps.

#[export] Hint Resolve keeps_ret keeps_raise keeps_eval keeps_gets keeps_emit
  keeps_sleep keeps_scope_send keeps_gen_send keeps_poll : keeps.

(** Goals of the form [keeps links m], for [m] built from the statements
    of the model. *)
Ltac keeps_tac :=
  repeat first
    [ progress intros
    | solve [auto with keeps]
    | apply keeps_bind
    | apply keeps_try_except
    | apply keeps_try_finally
    | apply keeps_for_loop
    | match goal with
      | |- keeps _ (if ?c then _ else _) => destruct c
      | |- keeps _ (match ?x with _ => _ end) => destruct x
      end ].

Lemma keeps_add_measurements : keeps bench_links add_measurements.
Proof. unfold add_measurements. keeps_tac. Qed.

Lemma keeps_read_once (reads : nat -> reading) (w : Q) (i : nat)
    (vars : list Q * list Q * list Q) :
  keeps bench_links (read_once reads w i vars).
Proof. unfold read_once. destruct vars as [[v1 v2] d]. keeps_tac. Qed.

Lemma keeps_get_measurement_avg_auto (reads : nat -> reading) (N : Z) (t : Q) :
  keeps bench_links (get_measurement_avg_auto reads N t).
Proof.
  unfold get_measurement_avg_auto.
  pose proof keeps_add_measurements. pose proof keeps_read_once.
  keeps_tac.
Qed.

Lemma keeps_on_bench {A : Type} (m : M bench A) :
  keeps bench_links m -> keeps sweep_links (on_bench m).
Proof.
  intro Hm. unfold on_bench, sweep_links.
  apply (keeps_zoom bench_links instruments set_instruments m); [|exact Hm].
  intros b s. reflexivity.
Qed.

Section Sweep.
Context `{Runtime}.

Lemma keeps_measure_point (env : surroundings) (cfg : config)
    (point : nat * Q) :
  keeps sweep_links (measure_point env cfg point).
Proof.
  unfold measure_point. destruct point as [i freq].
  pose proof keeps_get_measurement_avg_auto.
  destruct (get_optimal_timebase (Double.nearest freq)) as [t_base_str t_base_sec].
  keeps_tac; try (apply keeps_on_bench; keeps_tac).
  apply keeps_modify. intro s. reflexivity.
Qed.

Lemma keeps_point_loop (env : surroundings) (cfg : config)
    (points : list (nat * Q)) :
  keeps sweep_links (point_loop env cfg points).
Proof.
  unfold point_loop. apply keeps_for_loop. intros p v.
  apply keeps_measure_point.
Qed.

Lemma generator_off_up (s : sweep_state) :
  gen_link (instruments s) = true ->
  generator_off s = (Ok tt, with_event (ToGen (SetOutputState "OFF")) s).
Proof.
  intro Hup. unfold generator_off, try_except, on_bench, zoom.
  rewrite (gen_send_up _ _ Hup). reflexivity.
Qed.

Lemma restore_scope_up (s : sweep_state) :
  scope_link (instruments s) = true ->
  restore_scope s =
    (Ok tt, with_event (ToScope (TriggerMode "AUTO"))
              (with_event (ToScope (AcquireType "SAMPle")) s)).
Proof.
  intro Hup. unfold restore_scope, try_except, bind, gets.
  rewrite Hup. unfold on_bench, zoom.
  rewrite (scope_send_up _ _ Hup). cbn [instruments set_instruments].
  rewrite scope_send_up by (rewrite scope_link_add_event; exact Hup).
  reflexivity.
Qed.

(** An interrupt at a point ends the loop there, with the state the
    earlier points left: the results appended so far stay in it. *)
Lemma point_loop_interrupted (env : surroundings) (cfg : config)
    (done : list (nat * Q)) (point : nat * Q) (rest : list (nat * Q))
    (s s1 : sweep_state) :
  interrupt_at env (fst point) = true ->
  point_loop env cfg done s = (Ok tt, s1) ->
  point_loop env cfg (done ++ point :: rest) s = (Raise KeyboardInterrupt, s1).
Proof.
  intros Hint Hdone. unfold point_loop in *. rewrite for_loop_app.
  rewrite (bind_ok _ _ _ _ _ Hdone). cbn [for_loop].
  apply bind_raise. unfold measure_point. destruct point as [i freq].
  cbn [fst] in Hint. rewrite Hint. reflexivity.
Qed.

End Sweep.
End SweepFacts.

Module SweepSpec.
Import Py PyFacts Eff EffFacts Bench BenchFacts Bode SweepFacts.
Local Open Scope Q_scope.

(** Straight-line instrument code on open connections: every command is
    sent. *)
Ltac send_all Hgen Hscope :=
  unfold bind, scope_send, gen_send, sleep, emit, modify;
  repeat (progress (rewrite ?scope_link_add_event, ?gen_link_add_event;
                    rewrite ?Hgen, ?Hscope; cbv beta iota)).

Lemma setup_initial_state_up (cfg : config) (b : bench) :
  gen_link b = true -> scope_link b = true ->
  exists b', setup_initial_state cfg b = (Ok tt, b').
Proof.
  intros Hgen Hscope. unfold setup_initial_state.
  send_all Hgen Hscope. eexists. reflexivity.
Qed.

Section Sweep.
Context `{Runtime}.

Lemma start_scope_up (b : bench) :
  gen_link b = true -> scope_link b = true ->
  exists b', start_scope b = (Ok tt, b').
Proof.
  intros Hgen Hscope. unfold start_scope.
  send_all Hgen Hscope. eexists. reflexivity.
Qed.

(** With open connections and a frequency list that can be built, the run
    reaches the [try] statement, with empty result lists. *)
Lemma run_reaches_the_loop (env : surroundings) (cfg : config)
    (s : sweep_state) (freq_list : list Q) :
  sweep_links s = (true, true) ->
  frequency_list cfg = Ok freq_list ->
  run_full_experiment env cfg s =
    sweep_and_clean_up env cfg (enumerate freq_list) (loop_start cfg s)
  /\ sweep_links (loop_start cfg s) = (true, true)
  /\ returned_results (loop_start cfg s) cfg = ([], [], [], cfg).
Proof.
  intros Hlinks Hfreq.
  assert (Hgen : gen_link (instruments s) = true)
    by (unfold sweep_links, bench_links in Hlinks; congruence).
  assert (Hscope : scope_link (instruments s) = true)
    by (unfold sweep_links, bench_links in Hlinks; congruence).
  destruct (setup_initial_state_up cfg (instruments s) Hgen Hscope)
    as [b1 Hsetup].
  assert (Hs1 : on_bench (setup_initial_state cfg) s
                = (Ok tt, set_instruments b1 s)).
  { unfold on_bench, zoom. rewrite Hsetup. reflexivity. }
  assert (Hl1 : bench_links b1 = (true, true)).
  { assert (Hk : keeps bench_links (setup_initial_state cfg))
      by (unfold setup_initial_state; keeps_tac).
    specialize (Hk (instruments s)). rewrite Hsetup in Hk. cbn [snd] in Hk.
    rewrite Hk. exact Hlinks. }
  assert (Hgen1 : gen_link b1 = true)
    by (unfold bench_links in Hl1; congruence).
  assert (Hscope1 : scope_link b1 = true)
    by (unfold bench_links in Hl1; congruence).
  destruct (start_scope_up b1 Hgen1 Hscope1) as [b2 Hstart].
  assert (Hl2 : bench_links b2 = (true, true)).
  { assert (Hk : keeps bench_links start_scope)
      by (unfold start_scope; keeps_tac).
    specialize (Hk b1). rewrite Hstart in Hk. cbn [snd] in Hk.
    rewrite Hk. exact Hl1. }
  assert (Hs2 : on_bench start_scope (clear_results (set_instruments b1 s))
                = (Ok tt, set_instruments b2
                            (clear_results (set_instruments b1 s)))).
  { unfold on_bench, zoom. cbn [instruments clear_results set_instruments].
    rewrite Hstart. reflexivity. }
  assert (Hstate : loop_start cfg s
                   = set_instruments b2 (clear_results (set_instruments b1 s))).
  { unfold loop_start. rewrite (bind_ok _ _ _ _ _ Hs1).
    unfold bind, modify. rewrite Hs2. reflexivity. }
  rewrite Hstate. split; [|split; [exact Hl2|reflexivity]].
  unfold run_full_experiment. rewrite (bind_ok _ _ _ _ _ Hs1).
  unfold eval at 1. unfold bind at 1. rewrite Hfreq.
  unfold modify at 1. unfold bind at 1.
  rewrite (bind_ok _ _ _ _ _ Hs2). reflexivity.
Qed.

(** What the [try] statement and the statements after it do, from the way
    the loop ended. *)
Lemma sweep_and_clean_up_run (env : surroundings) (cfg : config)
    (points : list (nat * Q)) (s : sweep_state) :
  sweep_links s = (true, true) ->
  let after_loop := snd (point_loop env cfg points s) in
  let off := with_event (ToGen (SetOutputState "OFF")) after_loop in
  sweep_and_clean_up env cfg points s =
    match fst (point_loop env cfg points s) with
    | Raise e =>
        if is_Exception e then (Raise e, off)
        else (Ok (returned_results after_loop cfg),
              with_event (ToScope (TriggerMode "AUTO"))
                (with_event (ToScope (AcquireType "SAMPle")) off))
    | Ok _ =>
        (Ok (returned_results after_loop cfg),
         with_event (ToScope (TriggerMode "AUTO"))
           (with_event (ToScope (AcquireType "SAMPle")) off))
    end.
Proof.
  intros Hlinks after_loop off.
  pose proof (keeps_point_loop env cfg points s) as Hkept.
  fold after_loop in Hkept. rewrite Hlinks in Hkept.
  assert (Hgen : gen_link (instruments after_loop) = true)
    by (unfold sweep_links, bench_links in Hkept; congruence).
  assert (Hscope : scope_link (instruments after_loop) = true)
    by (unfold sweep_links, bench_links in Hkept; congruence).
  assert (Hscope' : scope_link (instruments off) = true) by exact Hscope.
  unfold sweep_and_clean_up, try_finally, try_except.
  unfold bind at 1. subst after_loop.
  destruct (point_loop env cfg points s) as [[[]|e] s1]; cbn [fst snd] in *.
  - rewrite (generator_off_up s1 Hgen). fold off.
    unfold bind. rewrite (restore_scope_up off Hscope'). reflexivity.
  - destruct e; cbn [exn_eqb is_Exception ret];
      rewrite (generator_off_up s1 Hgen); fold off; try reflexivity.
    unfold bind. rewrite (restore_scope_up off Hscope'). reflexivity.
Qed.

(** The three ways out of the loop.  Once the run has reached the
    per-point loop with both connections open: when the loop ends normally
    or by a user interrupt, the generator output is switched off, the
    oscilloscope is then sent sample acquisition and automatic trigger,
    and the results accumulated up to that moment are returned (after an
    interrupt, those of the points measured before it); when another
    exception leaves the loop, the generator output is switched off and
    the exception propagates to the caller, the statements that restore
    the oscilloscope, which follow the [try] instead of standing in its
    [finally] clause, being skipped. *)
Theorem sweep_cleans_up_unless_exception_escapes (env : surroundings)
    (cfg : config) (s : sweep_state) (freq_list : list Q) :
  sweep_links s = (true, true) ->
  frequency_list cfg = Ok freq_list ->
  let points := enumerate freq_list in
  let after_loop := snd (point_loop env cfg points (loop_start cfg s)) in
  let run := run_full_experiment env cfg s in
  (match fst (point_loop env cfg points (loop_start cfg s)) with
   | Raise e =>
       if is_Exception e then
         fst run = Raise e /\
         trace (instruments (snd run)) =
           trace (instruments after_loop) ++ [ToGen (SetOutputState "OFF")]
       else
         fst run = Ok (returned_results after_loop cfg) /\
         trace (instruments (snd run)) =
           trace (instruments after_loop) ++ cleanup_events
   | Ok _ =>
       fst run = Ok (returned_results after_loop cfg) /\
       trace (instruments (snd run)) =
         trace (instruments after_loop) ++ cleanup_events
   end) /\
  (forall done point rest s1,
      points = done ++ point :: rest ->
      interrupt_at env (fst point) = true ->
      point_loop env cfg done (loop_start cfg s) = (Ok tt, s1) ->
      fst run = Ok (returned_results s1 cfg) /\
      trace (instruments (snd run)) =
        trace (instruments s1) ++ cleanup_events).
Proof.
  intros Hlinks Hfreq points after_loop run.
  destruct (run_reaches_the_loop env cfg s freq_list Hlinks Hfreq)
    as (Hrun & Hlinks0 & _).
  pose proof (sweep_and_clean_up_run env cfg points (loop_start cfg s) Hlinks0)
    as Hclean.
  cbv zeta in Hclean. fold after_loop in Hclean.
  assert (Hrun' : run = sweep_and_clean_up env cfg points (loop_start cfg s))
    by exact Hrun.
  clearbody run. subst run.
  assert (Hgood :
    sweep_and_clean_up env cfg points (loop_start cfg s) =
      (Ok (returned_results after_loop cfg),
       with_event (ToScope (TriggerMode "AUTO"))
         (with_event (ToScope (AcquireType "SAMPle"))
            (with_event (ToGen (SetOutputState "OFF")) after_loop))) ->
    fst (sweep_and_clean_up env cfg points (loop_start cfg s)) =
      Ok (returned_results after_loop cfg) /\
    trace (instruments
             (snd (sweep_and_clean_up env cfg points (loop_start cfg s)))) =
      trace (instruments after_loop) ++ cleanup_events).
  { intros ->. split; [reflexivity|]. cbn. rewrite <- !app_assoc. reflexivity. }
  split.
  - destruct (fst (point_loop env cfg points (loop_start cfg s))) as [[]|e].
    + exact (Hgood Hclean).
    + destruct (is_Exception e); [|exact (Hgood Hclean)].
      rewrite Hclean. split; reflexivity.
  - intros done point rest s1 Hsplit Hint Hdone.
    pose proof (point_loop_interrupted env cfg done point rest _ s1 Hint Hdone)
      as Hloop.
    rewrite <- Hsplit in Hloop. subst after_loop.
    rewrite Hloop in Hclean, Hgood. cbn [fst snd is_Exception] in Hclean, Hgood.
    exact (Hgood Hclean).
Qed.

End Sweep.

Lemma last_of_app {A : Type} (l : list A) (x d : A) : last (l ++ [x]) d = x.
Proof.
  induction l as [|y l IH]; [reflexivity|].
  cbn [app]. destruct (l ++ [x]) eqn:E.
  - destruct l; discriminate.
  - cbn [last]. cbn [last] in IH. exact IH.
Qed.

Lemma ends_with_last (t final : list event) (x d : event) :
  ends_with t (final ++ [x]) -> last t d = x.
Proof.
  intros [before ->]. rewrite app_assoc. apply last_of_app.
Qed.

(** C3.  The cleanup that the specification asks for on every path, and
    that the normal and the interrupted run perform, is cut short when an
    exception other than the user interrupt leaves the loop.  Channel 2
    reads 0 V at the second point, the logarithm of the ratio raises
    [ValueError]: the run ends with that exception, the last event is the
    generator being switched off, and the trace does not end with the
    cleanup of the oscilloscope. *)
Lemma escaping_exception_skips_scope_restore :
  fst (run_full_experiment (H := Fixtures.table_runtime)
         Fixtures.silent_second_point Fixtures.two_point_sweep
         Fixtures.fresh_sweep) = Raise ValueError /\
  last (trace (instruments (snd
         (run_full_experiment (H := Fixtures.table_runtime)
            Fixtures.silent_second_point Fixtures.two_point_sweep
            Fixtures.fresh_sweep)))) (Sleep 0)
    = ToGen (SetOutputState "OFF") /\
  ~ ends_with (trace (instruments (snd
         (run_full_experiment (H := Fixtures.table_runtime)
            Fixtures.silent_second_point Fixtures.two_point_sweep
            Fixtures.fresh_sweep)))) cleanup_events.
Proof.
  assert (Hlast : last (trace (instruments (snd
         (run_full_experiment (H := Fixtures.table_runtime)
            Fixtures.silent_second_point Fixtures.two_point_sweep
            Fixtures.fresh_sweep)))) (Sleep 0)
    = ToGen (SetOutputState "OFF")) by (vm_compute; reflexivity).
  split; [vm_compute; reflexivity|]. split; [exact Hlast|].
  intro Hends.
  apply (ends_with_last _ [ToGen (SetOutputState "OFF");
                           ToScope (AcquireType "SAMPle")]
           (ToScope (TriggerMode "AUTO")) (Sleep 0)) in Hends.
  rewrite Hlast in Hends. discriminate.
Qed.

(** In that run the oscilloscope had been sent sample acquisition and
    automatic trigger before the loop, and nothing else since. *)
Example escaping_exception_modes_unchanged :
  last_trigger_mode (trace (instruments (snd
         (run_full_experiment (H := Fixtures.table_runtime)
            Fixtures.silent_second_point Fixtures.two_point_sweep
            Fixtures.fresh_sweep)))) None = Some "AUTO"%string /\
  last_acquire_type (trace (instruments (snd
         (run_full_experiment (H := Fixtures.table_runtime)
            Fixtures.silent_second_point Fixtures.two_point_sweep
            Fixtures.fresh_sweep)))) None = Some "SAMPle"%string.
Proof. split; vm_compute; reflexivity. Qed.

(** An interrupt at the second of two points: the first point is
    returned, and the run ends with the whole cleanup. *)
Lemma sweep_cleans_up_unless_exception_escapes_witness :
  exists fs ms ps,
    fst (run_full_experiment (H := Fixtures.table_runtime)
           Fixtures.interrupted_second_point Fixtures.two_point_sweep
           Fixtures.fresh_sweep)
      = Ok (fs, ms, ps, Fixtures.two_point_sweep) /\
    List.length fs = 1%nat /\
    ends_with (trace (instruments (snd
           (run_full_experiment (H := Fixtures.table_runtime)
              Fixtures.interrupted_second_point Fixtures.two_point_sweep
              Fixtures.fresh_sweep)))) cleanup_events.
Proof.
  assert (Hfreq : frequency_list (H := Fixtures.table_runtime)
                    Fixtures.two_point_sweep
                  = Ok [1000 + inject_Z 0 * ((10000 - 1000) / inject_Z (2 - 1));
                        10000]) by reflexivity.
  destruct (sweep_cleans_up_unless_exception_escapes
              (H := Fixtures.table_runtime)
              Fixtures.interrupted_second_point Fixtures.two_point_sweep
              Fixtures.fresh_sweep _ eq_refl Hfreq) as [Hmain _].
  assert (Hloop : fst (point_loop (H := Fixtures.table_runtime)
                    Fixtures.interrupted_second_point Fixtures.two_point_sweep
                    (enumerate
                       [1000 + inject_Z 0 * ((10000 - 1000) / inject_Z (2 - 1));
                        10000])
                    (loop_start Fixtures.two_point_sweep Fixtures.fresh_sweep))
                  = Raise KeyboardInterrupt) by (vm_compute; reflexivity).
  rewrite Hloop in Hmain. cbn [is_Exception] in Hmain.
  destruct Hmain as [Hres Htrace].
  eexists _, _, _. split; [rewrite Hres; reflexivity|].
  split; [vm_compute; reflexivity|].
  eexists. exact Htrace.
Defined.

End SweepSpec.

Module LogScaleSpec.
Import Py LogScale.
Import Reals Lra.
Local Open Scope R_scope.

Lemma ln_10_pos : 0 < ln 10.
Proof. rewrite <- ln_1. apply ln_increasing; lra. Qed.

Lemma pow10_log10 (x : R) : 0 < x -> pow10 (log10 x) = x.
Proof.
  intro Hx. unfold pow10, log10.
  replace (ln x / ln 10 * ln 10) with (ln x)
    by (field; apply Rgt_not_eq; exact ln_10_pos).
  apply exp_ln. exact Hx.
Qed.

Lemma pow10_increasing (x y : R) : x < y -> pow10 x < pow10 y.
Proof.
  intro Hxy. unfold pow10. apply exp_increasing.
  apply Rmult_lt_compat_r; [exact ln_10_pos|exact Hxy].
Qed.

Lemma log10_increasing (x y : R) : 0 < x -> x < y -> log10 x < log10 y.
Proof.
  intros Hx Hxy. unfold log10, Rdiv.
  apply Rmult_lt_compat_r.
  - apply Rinv_0_lt_compat. exact ln_10_pos.
  - apply ln_increasing; assumption.
Qed.

Lemma math_log10_pos (x : R) : 0 < x -> math_log10 x = Ok (log10 x).
Proof.
  intro Hx. unfold math_log10. destruct (Rle_dec x 0); [lra|reflexivity].
Qed.

(** The entries of a [linspace] of at least two points, by index. *)
Lemma linspace_entries (a b : R) (num : Z) (m : nat) :
  Z.to_nat num = S (S m) ->
  exists l,
    linspace a b num = Ok l /\
    List.length l = S (S m) /\
    forall i, (i < S (S m))%nat ->
      nth i l 0 = a + INR i * ((b - a) / INR (S m)).
Proof.
  intro Hnum. unfold linspace.
  destruct (num <? 0)%Z eqn:Hneg; [apply Z.ltb_lt in Hneg; lia|].
  rewrite Hnum.
  assert (Hstep : IZR (num - 1) = INR (S m)).
  { rewrite INR_IZR_INZ. f_equal. lia. }
  rewrite Hstep. eexists. split; [reflexivity|]. split.
  - rewrite length_app, length_map, length_seq. cbn [List.length]. lia.
  - intros i Hi.
    assert (Hm : INR (S m) <> 0) by (apply not_0_INR; lia).
    destruct (Nat.eq_dec i (S m)) as [->|Hne].
    + rewrite app_nth2 by (rewrite length_map, length_seq; lia).
      rewrite length_map, length_seq, Nat.sub_diag. cbn [nth]. field. exact Hm.
    + rewrite app_nth1 by (rewrite length_map, length_seq; lia).
      rewrite (nth_indep _ 0 (a + IZR (Z.of_nat 0) * ((b - a) / INR (S m))))
        by (rewrite length_map, length_seq; lia).
      rewrite (map_nth (fun i => a + IZR (Z.of_nat i) * ((b - a) / INR (S m)))).
      rewrite seq_nth by lia. cbn [Nat.add]. rewrite <- INR_IZR_INZ.
      reflexivity.
Qed.

Lemma logspace_entries (a b : R) (num : Z) (m : nat) :
  Z.to_nat num = S (S m) ->
  exists l,
    logspace a b num = Ok l /\
    List.length l = S (S m) /\
    forall i, (i < S (S m))%nat ->
      nth i l 0 = pow10 (a + INR i * ((b - a) / INR (S m))).
Proof.
  intro Hnum. destruct (linspace_entries a b num m Hnum) as (l & Hl & Hlen & Hnth).
  unfold logspace. rewrite Hl. eexists. split; [reflexivity|]. split.
  - rewrite length_map. exact Hlen.
  - intros i Hi. rewrite (nth_indep _ 0 (pow10 0))
      by (rewrite length_map; lia).
    rewrite map_nth. rewrite (Hnth i Hi). reflexivity.
Qed.

Lemma last_nth (l : list R) (d : R) :
  last l d = nth (List.length l - 1) l d.
Proof.
  induction l as [|x l IH]; [reflexivity|].
  destruct l as [|y l]; [reflexivity|].
  cbn [last List.length Nat.sub nth] in *. rewrite IH.
  rewrite Nat.sub_0_r. reflexivity.
Qed.

Lemma within_tolerance_refl (rtol a : R) : 0 <= rtol -> within_tolerance rtol a a.
Proof.
  intro Hr. unfold within_tolerance.
  replace (a - a) with 0 by ring. rewrite Rabs_R0.
  apply Rmult_le_pos; [exact Hr|apply Rabs_pos].
Qed.

(** C7, as the specification words it, fails for a list of one point:
    [numpy.logspace] then yields the start alone, and the last entry of the
    list is the start frequency, far from the stop frequency. *)
Lemma single_point_list_misses_stop :
  frequency_list_log 1 100 1 = Ok [pow10 (log10 1)] /\
  last [pow10 (log10 1)] 0 = 1 /\
  ~ within_tolerance (1 / 1000000000) (last [pow10 (log10 1)] 0) 100.
Proof.
  split; [|split].
  - unfold frequency_list_log. rewrite !math_log10_pos by lra. reflexivity.
  - cbn [last]. apply pow10_log10. lra.
  - cbn [last]. rewrite pow10_log10 by lra. unfold within_tolerance.
    replace (1 - 100) with (- (99)) by ring.
    rewrite Rabs_Ropp. rewrite !Rabs_right by lra. lra.
Qed.

(** C7, amended. For a logarithmic configuration with
    [0 < f_start < f_stop] and a point count that is not negative, the
    frequency list has exactly [num_points] entries and is strictly
    increasing; its first entry is [f_start] when there is one; its last
    entry is [f_stop] when there are at least two points, and with a single
    point the list is [f_start] alone.  The equalities are exact in the
    reals, hence within every tolerance. *)
Theorem log_frequency_list_shape (f_start f_stop : R) (num_points : Z) :
  0 < f_start -> f_start < f_stop -> (0 <= num_points)%Z ->
  exists l,
    frequency_list_log f_start f_stop num_points = Ok l /\
    List.length l = Z.to_nat num_points /\
    strictly_increasing l /\
    ((1 <= num_points)%Z -> nth 0 l 0 = f_start) /\
    ((2 <= num_points)%Z -> last l 0 = f_stop) /\
    (num_points = 1%Z -> l = [f_start]).
Proof.
  intros Hstart Hstop Hnum.
  unfold frequency_list_log.
  rewrite !math_log10_pos by lra.
  pose proof (log10_increasing f_start f_stop Hstart Hstop) as Hlog.
  destruct (Z.to_nat num_points) as [|[|m]] eqn:Hn.
  - exists []. unfold logspace, linspace.
    destruct (num_points <? 0)%Z eqn:Hneg; [apply Z.ltb_lt in Hneg; lia|].
    rewrite Hn. split; [reflexivity|]. split; [reflexivity|].
    split; [intros i j Hij; cbn in Hij; lia|].
    repeat split; intros; lia.
  - exists [f_start]. unfold logspace, linspace.
    destruct (num_points <? 0)%Z eqn:Hneg; [apply Z.ltb_lt in Hneg; lia|].
    rewrite Hn. cbn [map]. rewrite pow10_log10 by exact Hstart.
    split; [reflexivity|]. split; [reflexivity|].
    split; [intros i j Hij; cbn in Hij; lia|].
    repeat split; intros; (reflexivity || lia).
  - destruct (logspace_entries (log10 f_start) (log10 f_stop) num_points m Hn)
      as (l & Hl & Hlen & Hnth).
    exists l. split; [exact Hl|]. split; [exact Hlen|].
    assert (Hm : 0 < INR (S m)) by (apply lt_0_INR; lia).
    assert (Hstep : 0 < (log10 f_stop - log10 f_start) / INR (S m)).
    { apply Rdiv_lt_0_compat; lra. }
    split; [|split; [|split]].
    + intros i j Hij. rewrite Hlen in Hij.
      rewrite (Hnth i) by lia. rewrite (Hnth j) by lia.
      apply pow10_increasing. apply Rplus_lt_compat_l.
      apply Rmult_lt_compat_r; [exact Hstep|]. apply lt_INR. lia.
    + intros _. rewrite (Hnth 0%nat) by lia. cbn [INR].
      rewrite Rmult_0_l, Rplus_0_r. apply pow10_log10. exact Hstart.
    + intros _. rewrite last_nth, Hlen. rewrite (Hnth (S (S m) - 1)%nat) by lia.
      replace (S (S m) - 1)%nat with (S m) by lia.
      replace (log10 f_start + INR (S m) * ((log10 f_stop - log10 f_start) / INR (S m)))
        with (log10 f_stop) by (field; lra).
      apply pow10_log10. lra.
    + intro Hone. exfalso. lia.
Qed.

(** A decade in three points: 1, 10 and 100 Hz up to equality of the
    ends. *)
Lemma log_frequency_list_shape_witness :
  exists l,
    frequency_list_log 1 100 3 = Ok l /\
    List.length l = 3%nat /\ strictly_increasing l /\
    nth 0 l 0 = 1 /\ last l 0 = 100.
Proof.
  destruct (log_frequency_list_shape 1 100 3) as (l & Hl & Hlen & Hinc & Hfirst & Hlast & _);
    [lra|lra|lia|].
  exists l. split; [exact Hl|]. split; [exact Hlen|]. split; [exact Hinc|].
  split; [apply Hfirst; lia|apply Hlast; lia].
Defined.

End LogScaleSpec.

Module SpectrumResults.
Import Reals Lra.
Import Py Spectrum.
Local Open Scope R_scope.

Lemma nth_map_in {A B : Type} (f : A -> B) (l : list A) (k : nat)
    (dA : A) (dB : B) :
  (k < List.length l)%nat -> nth k (map f l) dB = f (nth k l dA).
Proof.
  intro Hk. rewrite (nth_indep _ dB (f dA)) by (rewrite length_map; exact Hk).
  apply map_nth.
Qed.

Lemma nth_firstn_lt {A : Type} (l : list A) (m k : nat) (d : A) :
  (k < m)%nat -> nth k (firstn m l) d = nth k l d.
Proof.
  revert m k. induction l as [|x l IH]; intros m k Hk.
  - rewrite firstn_nil. reflexivity.
  - destruct m as [|m]; [lia|]. destruct k as [|k]; [reflexivity|].
    cbn [firstn nth]. apply IH. lia.
Qed.

Lemma half_N : (N / 2 = 250)%nat.
Proof. reflexivity. Qed.

Lemma length_mean_axis0 (rows : list (list C)) :
  List.length (mean_axis0 rows) = N.
Proof. unfold mean_axis0. rewrite length_map, length_seq. reflexivity. Qed.

Lemma nth_mean_axis0 (rows : list (list C)) (k : nat) :
  (k < N)%nat -> nth k (mean_axis0 rows) czero = averaged_bin rows k.
Proof.
  intro Hk. unfold mean_axis0.
  rewrite (nth_map_in _ _ k 0%nat) by (rewrite length_seq; exact Hk).
  rewrite seq_nth by exact Hk. reflexivity.
Qed.

Lemma length_first_half (rows : list (list C)) :
  List.length (firstn (N / 2) (mean_axis0 rows)) = 250%nat.
Proof.
  rewrite length_firstn, length_mean_axis0, half_N. reflexivity.
Qed.

Lemma nth_set_first (x : R) (v : list R) (k : nat) :
  (k < List.length v)%nat ->
  nth k (set_first x v) 0 = match k with O => x | S _ => nth k v 0 end.
Proof.
  intro Hk. destruct v as [|y v]; [cbn in Hk; lia|].
  destruct k; reflexivity.
Qed.

Lemma length_set_first (x : R) (v : list R) :
  List.length (set_first x v) = List.length v.
Proof. destruct v; reflexivity. Qed.

(** The three arrays that [spectrum_results] returns, bin by bin. *)
Lemma spectrum_results_bins (sample_rate_hz : Q) (rows : list (list C))
    (window : list R) :
  let '(freq_axis_hz, v_rms, v_db) :=
    spectrum_results sample_rate_hz rows window in
  List.length freq_axis_hz = 250%nat /\
  List.length v_rms = 250%nat /\
  List.length v_db = 250%nat /\
  forall k, (k < 250)%nat ->
    nth k v_rms 0 = rms_as_computed rows window k /\
    nth k v_db 0 = 20 * log10 (nth k v_rms 0 + 1 / 1000000000000).
Proof.
  unfold spectrum_results.
  set (first_half := firstn (N / 2) (mean_axis0 rows)).
  assert (Hlen : List.length first_half = 250%nat)
    by apply length_first_half.
  set (v_rms := set_first _ _).
  assert (Hrms_len : List.length v_rms = 250%nat).
  { subst v_rms. rewrite length_set_first, !length_map. exact Hlen. }
  split.
  { rewrite length_firstn, length_map, length_seq, half_N. reflexivity. }
  split; [exact Hrms_len|]. split; [rewrite length_map; exact Hrms_len|].
  intros k Hk. split.
  - subst v_rms. rewrite nth_set_first by (rewrite !length_map; lia).
    destruct k as [|k].
    + unfold rms_as_computed.
      rewrite nth_mean_axis0 by (unfold N; lia). reflexivity.
    + rewrite (nth_map_in _ _ _ 0) by (rewrite !length_map; lia).
      rewrite (nth_map_in _ _ _ 0) by (rewrite length_map; lia).
      rewrite (nth_map_in _ _ _ czero) by lia.
      subst first_half. rewrite nth_firstn_lt by (rewrite half_N; lia).
      rewrite nth_mean_axis0 by (unfold N; lia). reflexivity.
  - rewrite (nth_map_in _ _ _ 0) by lia. reflexivity.
Qed.

Lemma rsum_ones (n : nat) : rsum (ones n) = INR n.
Proof.
  unfold ones. induction n as [|n IH]; [reflexivity|].
  cbn [repeat rsum fold_right]. fold (rsum (repeat 1 n)). rewrite IH.
  rewrite S_INR. ring.
Qed.

Lemma cabs_real (x : R) : 0 <= x -> cabs (x, 0) = x.
Proof.
  intro Hx. unfold cabs. cbn [fst snd].
  replace (x * x + 0 * 0) with (x * x) by ring. apply sqrt_square. exact Hx.
Qed.

Lemma sqrt_2_gt_1 : 1 < sqrt 2.
Proof.
  rewrite <- sqrt_1 at 1. apply sqrt_lt_1_alt. lra.
Qed.

(** C8. For every collection of spectra, [spectrum_results] averages the
    complex values bin by bin and takes the magnitude of the average, keeps
    the first half of the bins (250 of the 500), and returns for bin [k] the
    RMS value [magnitude * 2 / window_sum / sqrt 2] when [k > 0] and
    [magnitude / window_sum] when [k = 0], and the decibel value
    [20 * log10 (rms + 1e-12)] at every bin. *)
Theorem spectrum_results_formula (sample_rate_hz : Q)
    (rows : list (list C)) (window : list R) :
  let v_rms := snd (fst (spectrum_results sample_rate_hz rows window)) in
  let v_db := snd (spectrum_results sample_rate_hz rows window) in
  List.length v_rms = 250%nat /\
  List.length v_db = 250%nat /\
  forall k, (k < 250)%nat ->
    nth k v_rms 0 =
      match k with
      | O => cabs (averaged_bin rows 0) / rsum window
      | S _ => cabs (averaged_bin rows k) * 2 / rsum window / sqrt 2
      end /\
    nth k v_db 0 = 20 * log10 (nth k v_rms 0 + 1 / 1000000000000).
Proof.
  pose proof (spectrum_results_bins sample_rate_hz rows window) as Hbins.
  destruct (spectrum_results sample_rate_hz rows window) as [[freq v_rms] v_db].
  cbn [fst snd]. destruct Hbins as (_ & Hrms & Hdb & Hk).
  split; [exact Hrms|]. split; [exact Hdb|].
  intros k Hlt. destruct (Hk k Hlt) as [Hr Hd]. split; [|exact Hd].
  rewrite Hr. unfold rms_as_computed. destruct k; reflexivity.
Qed.

(** C8, as the specification words it, fails at the zero-frequency bin:
    the program does not divide that bin by the square root of 2.  For the
    spectrum of a constant signal under the rectangular window the program
    returns 1/500, the wording of the specification gives 1/500/sqrt 2. *)
Lemma zero_bin_is_not_divided_by_sqrt2 :
  nth 0 (snd (fst (spectrum_results 5000%Q
                     [Fixtures.constant_signal_spectrum] (ones N)))) 0
    = 1 / 500 /\
  rms_as_specified [Fixtures.constant_signal_spectrum] (ones N) 0
    = 1 / 500 / sqrt 2 /\
  nth 0 (snd (fst (spectrum_results 5000%Q
                     [Fixtures.constant_signal_spectrum] (ones N)))) 0
    <> rms_as_specified [Fixtures.constant_signal_spectrum] (ones N) 0.
Proof.
  assert (Hbin : cabs (averaged_bin [Fixtures.constant_signal_spectrum] 0) = 1).
  { unfold averaged_bin, Fixtures.constant_signal_spectrum, cscale, csum, cadd.
    cbn [map nth fold_right List.length fst snd czero INR].
    replace (/ 1 * (1 + 0)) with 1 by field.
    replace (/ 1 * (0 + 0)) with 0 by field.
    apply cabs_real. lra. }
  assert (Hsum : rsum (ones N) = 500).
  { rewrite rsum_ones. unfold N. rewrite INR_IZR_INZ. reflexivity. }
  assert (Hcode : nth 0 (snd (fst (spectrum_results 5000%Q
                     [Fixtures.constant_signal_spectrum] (ones N)))) 0
                  = 1 / 500).
  { pose proof (spectrum_results_bins 5000%Q
                  [Fixtures.constant_signal_spectrum] (ones N)) as Hbins.
    destruct (spectrum_results 5000%Q [Fixtures.constant_signal_spectrum]
                (ones N)) as [[freq v_rms] v_db].
    cbn [fst snd]. destruct Hbins as (_ & _ & _ & Hk).
    destruct (Hk 0%nat) as [Hr _]; [lia|].
    rewrite Hr. unfold rms_as_computed. rewrite Hbin, Hsum. reflexivity. }
  assert (Hspec : rms_as_specified [Fixtures.constant_signal_spectrum]
                    (ones N) 0 = 1 / 500 / sqrt 2).
  { unfold rms_as_specified. rewrite Hbin, Hsum. reflexivity. }
  split; [exact Hcode|]. split; [exact Hspec|].
  rewrite Hcode, Hspec. intro Heq.
  pose proof sqrt_2_gt_1 as Hgt.
  assert (Hs : sqrt 2 = 1).
  { apply (Rmult_eq_compat_l (500 * sqrt 2)) in Heq.
    replace (500 * sqrt 2 * (1 / 500)) with (sqrt 2) in Heq by field.
    replace (500 * sqrt 2 * (1 / 500 / sqrt 2)) with 1 in Heq by (field; lra).
    exact Heq. }
  lra.
Qed.

End SpectrumResults.

Module SpectrumRun.
Import Py PyFacts Eff EffFacts Bench BenchFacts Spectrum.
Local Open Scope Q_scope.

Lemma scope_query_up {A : Type} (what : string) (reply : A) (b : bench) :
  scope_link b = true ->
  scope_query what reply b = (Ok reply, add_event (Queried what) b).
Proof. intro Hup. unfold scope_query. rewrite Hup. reflexivity. Qed.

Lemma scope_running_app (was : bool) (t1 t2 : list event) :
  scope_running was (t1 ++ t2) = scope_running (scope_running was t1) t2.
Proof.
  revert was. induction t1 as [|e t1 IH]; intro was; [reflexivity|].
  cbn [app scope_running].
  destruct e as [c|c|d|item n|what|]; try apply IH.
  destruct c; apply IH.
Qed.

Lemma scope_running_after_RUN (was : bool) (t : list event) :
  scope_running was (t ++ [ToScope RUN]) = true.
Proof. rewrite scope_running_app. reflexivity. Qed.

Section Analysis.
Context `{Runtime}.

Lemma acquire_once_up (env : surroundings) (cfg : config) (t vps : Q)
    (i : nat) (vars : list (list C) * list (Rdefinitions.R)) (b : bench) :
  scope_link b = true ->
  exists vars' b',
    acquire_once env cfg t vps i vars b = (Ok vars', b')
    /\ scope_link b' = true.
Proof.
  intro Hup. unfold acquire_once. destruct vars as [ffts w].
  unfold bind, scope_send, sleep, emit, modify, scope_query.
  repeat (progress (rewrite ?scope_link_add_event; rewrite ?Hup;
                    cbv beta iota)).
  destruct (adc_data env i) as [raw|].
  - destruct (negb (List.length raw =? N)%nat);
      eexists; eexists; (split; [reflexivity|exact Hup]).
  - eexists; eexists; (split; [reflexivity|exact Hup]).
Qed.

Lemma acquisition_loop_up (env : surroundings) (cfg : config) (t vps : Q)
    (idxs : list nat) :
  forall (vars : list (list C) * list (Rdefinitions.R)) (b : bench),
    scope_link b = true ->
    exists vars' b',
      for_loop idxs vars (acquire_once env cfg t vps) b = (Ok vars', b')
      /\ scope_link b' = true.
Proof.
  induction idxs as [|i rest IH]; intros vars b Hup.
  - exists vars, b. split; [reflexivity|exact Hup].
  - cbn [for_loop].
    destruct (acquire_once_up env cfg t vps i vars b Hup)
      as (vars1 & b1 & Hstep & Hup1).
    rewrite (bind_ok _ _ _ _ _ Hstep). apply IH. exact Hup1.
Qed.

Lemma read_back_ok (env : surroundings) (b : bench) (s ps : string)
    (v : Q) (p : Z) :
  scope_link b = true ->
  scale_reply env = Some s -> float_of_string s = Some v ->
  probe_reply env = Some ps ->
  int_of_string (remove_char "X" (upper ps)) = Some p ->
  read_back env b =
    (Ok (v, p), add_event (Queried "PROBe?") (add_event (Queried "SCALE?") b)).
Proof.
  intros Hup Hs Hv Hps Hp. unfold read_back, bind, scope_query, eval.
  rewrite Hup. cbv beta iota. rewrite Hs. unfold py_float. rewrite Hv.
  cbv beta iota. rewrite scope_link_add_event, Hup. cbv beta iota.
  rewrite Hps. unfold py_int. rewrite Hp. reflexivity.
Qed.

(** C9, amended. With the oscilloscope connected and a timebase chosen:
    when the operator interrupts at the prompt, the analysis returns no
    result and has sent the oscilloscope nothing, so the oscilloscope keeps
    the run state it had; when the operator confirms and the vertical scale
    and the probe attenuation are read back, the analysis returns (with a
    result or, when no repetition was accepted, without one) and the last
    thing it did is to send [*RUN], which leaves the oscilloscope
    running. *)
Theorem analysis_ends_with_RUN_after_acquisition (env : surroundings)
    (cfg : config) (b : bench) (t_base_str : string) (t_base_sec : Q) :
  scope_link b = true ->
  get_best_timebase (resolution_hz cfg) = Ok (t_base_str, t_base_sec) ->
  (user_confirms env = false ->
     run_spectrum_analysis env cfg b = (Ok (None, cfg), add_event AskedUser b)
     /\ forall was, scope_running was (trace (add_event AskedUser b))
                    = scope_running was (trace b)) /\
  (user_confirms env = true ->
   forall s ps v p,
     scale_reply env = Some s -> float_of_string s = Some v ->
     probe_reply env = Some ps ->
     int_of_string (remove_char "X" (upper ps)) = Some p ->
     exists result before,
       fst (run_spectrum_analysis env cfg b) = Ok (result, cfg) /\
       trace (snd (run_spectrum_analysis env cfg b)) = before ++ [ToScope RUN] /\
       forall was,
         scope_running was (trace (snd (run_spectrum_analysis env cfg b)))
         = true).
Proof.
  intros Hup Htb. split.
  - intro Hno. split.
    + unfold run_spectrum_analysis, bind, eval, try_except, wait_for_enter,
        emit, modify, raise, ret.
      rewrite Htb, Hno. reflexivity.
    + intro was. unfold add_event. cbn [trace].
      rewrite scope_running_app. reflexivity.
  - intros Hyes s ps v p Hs Hv Hps Hp.
    assert (Hrun : exists result b4,
      run_spectrum_analysis env cfg b =
        (Ok (result, cfg), add_event (ToScope RUN) b4)).
    { unfold run_spectrum_analysis.
      unfold eval at 1. unfold bind at 1. rewrite Htb.
      assert (Hprompt :
        try_except (bind (wait_for_enter env) (fun _ => ret true))
          (exn_eqb KeyboardInterrupt) (fun _ => ret false) b
        = (Ok true, add_event AskedUser b)).
      { unfold try_except, bind, wait_for_enter, emit, modify, ret.
        rewrite Hyes. reflexivity. }
      rewrite (bind_ok _ _ _ _ _ Hprompt). cbn [negb].
      set (b0 := add_event AskedUser b).
      assert (Hup0 : scope_link b0 = true) by exact Hup.
      rewrite (bind_ok _ _ _ _ _ (scope_send_up STOP b0 Hup0)).
      rewrite (bind_ok _ _ _ _ _ (sleep_run _ _)).
      set (b1 := add_event (Sleep 1.0) (add_event (ToScope STOP) b0)).
      assert (Hup1 : scope_link b1 = true) by exact Hup.
      rewrite (bind_ok _ _ _ _ _ (scope_send_up _ b1 Hup1)).
      rewrite (bind_ok _ _ _ _ _ (sleep_run _ _)).
      set (b2 := add_event (Sleep 1.0)
                   (add_event (ToScope (TimebaseScale t_base_str)) b1)).
      assert (Hup2 : scope_link b2 = true) by exact Hup.
      assert (Hread :
        try_except (bind (read_back env) (fun v => ret (Some v)))
          is_Exception (fun _ => ret None) b2
        = (Ok (Some (v, p)),
           add_event (Queried "PROBe?") (add_event (Queried "SCALE?") b2))).
      { unfold try_except.
        rewrite (bind_ok _ _ _ _ _
                   (read_back_ok env b2 s ps v p Hup2 Hs Hv Hps Hp)).
        reflexivity. }
      rewrite (bind_ok _ _ _ _ _ Hread).
      set (b3 := add_event (Queried "PROBe?")
                   (add_event (Queried "SCALE?") b2)).
      assert (Hup3 : scope_link b3 = true) by exact Hup.
      destruct (acquisition_loop_up env cfg t_base_sec
                  (8.0 * v * inject_Z p / 255.0)
                  (range (num_averages cfg)) ([], []) b3 Hup3)
        as ([ffts w] & b4 & Hloop & Hup4).
      rewrite (bind_ok _ _ _ _ _ Hloop). cbv beta iota.
      rewrite (bind_ok _ _ _ _ _ (scope_send_up RUN b4 Hup4)).
      destruct ffts as [|fft0 ffts]; eexists; exists b4; reflexivity. }
    destruct Hrun as (result & b4 & Hrun). rewrite Hrun. cbn [fst snd].
    exists result, (trace b4). split; [reflexivity|]. split; [reflexivity|].
    intro was. cbn [trace add_event]. apply scope_running_after_RUN.
Qed.

End Analysis.

(** C9, as the specification words it, fails on two of its exit paths.
    When the read-back fails (the query of the vertical scale times out),
    the analysis has stopped the oscilloscope to set the timebase and
    returns without a [*RUN]: the oscilloscope is left stopped.  When the
    operator interrupts at the prompt, the analysis returns without having
    sent a [*RUN] either. *)
Lemma two_exits_without_RUN :
  (fst (run_spectrum_analysis (H := Fixtures.table_runtime)
          Fixtures.scale_query_times_out Fixtures.default_analysis
          Fixtures.idle_bench) = Ok (None, Fixtures.default_analysis) /\
   existsb is_RUN
     (trace (snd (run_spectrum_analysis (H := Fixtures.table_runtime)
                    Fixtures.scale_query_times_out Fixtures.default_analysis
                    Fixtures.idle_bench))) = false /\
   scope_running true
     (trace (snd (run_spectrum_analysis (H := Fixtures.table_runtime)
                    Fixtures.scale_query_times_out Fixtures.default_analysis
                    Fixtures.idle_bench))) = false) /\
  (fst (run_spectrum_analysis (H := Fixtures.table_runtime)
          Fixtures.operator_interrupts Fixtures.default_analysis
          Fixtures.idle_bench) = Ok (None, Fixtures.default_analysis) /\
   existsb is_RUN
     (trace (snd (run_spectrum_analysis (H := Fixtures.table_runtime)
                    Fixtures.operator_interrupts Fixtures.default_analysis
                    Fixtures.idle_bench))) = false).
Proof. repeat split; vm_compute; reflexivity. Qed.

(** Zero accepted repetitions: no result, and the last event is the
    [*RUN]. *)
Lemma analysis_ends_with_RUN_after_acquisition_witness :
  exists result before,
    fst (run_spectrum_analysis (H := Fixtures.table_runtime)
           Fixtures.no_buffer_arrives Fixtures.default_analysis
           Fixtures.idle_bench) = Ok (result, Fixtures.default_analysis) /\
    trace (snd (run_spectrum_analysis (H := Fixtures.table_runtime)
                  Fixtures.no_buffer_arrives Fixtures.default_analysis
                  Fixtures.idle_bench)) = before ++ [ToScope RUN].
Proof.
  destruct (proj2 (analysis_ends_with_RUN_after_acquisition
                     (H := Fixtures.table_runtime)
                     Fixtures.no_buffer_arrives Fixtures.default_analysis
                     Fixtures.idle_bench "1ms"%string 1e-3 eq_refl eq_refl)
              eq_refl "1.0"%string "x1"%string 1.0 1%Z
              eq_refl eq_refl eq_refl eq_refl)
    as (result & before & Hres & Htrace & _).
  exists result, before. split; assumption.
Defined.

End SpectrumRun.

(* ------------------------------------------------------------------ *)
(** ** Further properties of the code                                  *)
(* ------------------------------------------------------------------ *)

Module LinearScale.
Import Py PyFacts Bode.
Local Open Scope Q_scope.

Lemma last_app_one (l : list Q) (x d : Q) : last (l ++ [x]) d = x.
Proof.
  induction l as [|y l IH]; [reflexivity|].
  cbn [app]. destruct (l ++ [x]) eqn:E; [destruct l; discriminate|].
  cbn [last] in *. exact IH.
Qed.

Lemma linear_linspace_entries (a b : Q) (num : Z) (m : nat) :
  Z.to_nat num = S (S m) ->
  exists l,
    linspace a b num = Ok l /\
    List.length l = S (S m) /\
    last l 0 = b /\
    forall i, (i < S (S m))%nat ->
      nth i l 0 == a + inject_Z (Z.of_nat i) * ((b - a) / inject_Z (num - 1)).
Proof.
  intro Hnum. unfold linspace.
  destruct (num <? 0)%Z eqn:Hneg; [apply Z.ltb_lt in Hneg; lia|].
  rewrite Hnum. eexists. split; [reflexivity|]. split; [|split].
  - rewrite length_app, length_map, length_seq. cbn [List.length]. lia.
  - apply last_app_one.
  - intros i Hi.
    destruct (Nat.eq_dec i (S m)) as [->|Hne].
    + rewrite app_nth2 by (rewrite length_map, length_seq; lia).
      rewrite length_map, length_seq, Nat.sub_diag. cbn [nth].
      replace (Z.of_nat (S m)) with (num - 1)%Z by lia.
      field. intro Hz.
      unfold Qeq in Hz. cbn in Hz. lia.
    + rewrite app_nth1 by (rewrite length_map, length_seq; lia).
      rewrite (nth_indep _ 0
                 (a + inject_Z (Z.of_nat 0) * ((b - a) / inject_Z (num - 1))))
        by (rewrite length_map, length_seq; lia).
      rewrite (map_nth (fun i => a + inject_Z (Z.of_nat i)
                                     * ((b - a) / inject_Z (num - 1)))).
      rewrite seq_nth by lia. reflexivity.
Qed.

Section Linear.
Context `{Runtime}.

(** X3. The linear frequency list.  For a scale other than ['log'], a
    stop frequency above the start frequency and at least two points, the
    list has exactly [num_points] entries, entry [i] is
    [f_start + i * (f_stop - f_start) / (num_points - 1)], so the entries
    are evenly spaced and strictly increasing, the first is [f_start] and
    the last is [f_stop] itself. *)
Theorem linear_frequency_list_shape (cfg : config) :
  String.eqb (scale cfg) "log" = false ->
  f_start cfg < f_stop cfg ->
  (2 <= num_points cfg)%Z ->
  exists l,
    frequency_list cfg = Ok l /\
    List.length l = Z.to_nat (num_points cfg) /\
    (forall i, (i < List.length l)%nat ->
       nth i l 0 == f_start cfg
                    + inject_Z (Z.of_nat i)
                      * ((f_stop cfg - f_start cfg)
                         / inject_Z (num_points cfg - 1))) /\
    (forall i j, (i < j < List.length l)%nat -> nth i l 0 < nth j l 0) /\
    nth 0 l 0 == f_start cfg /\
    last l 0 = f_stop cfg.
Proof.
  intros Hlin Hlt Hnum. unfold frequency_list. rewrite Hlin.
  destruct (Z.to_nat (num_points cfg)) as [|[|m]] eqn:Hn; try lia.
  destruct (linear_linspace_entries (f_start cfg) (f_stop cfg)
              (num_points cfg) m Hn)
    as (l & Hl & Hlen & Hlast & Hnth).
  exists l. split; [exact Hl|]. split; [exact Hlen|].
  assert (Hden : 0 < inject_Z (num_points cfg - 1)).
  { change 0 with (inject_Z 0). rewrite <- Zlt_Qlt. lia. }
  assert (Hstep : 0 < (f_stop cfg - f_start cfg) / inject_Z (num_points cfg - 1)).
  { apply Qlt_shift_div_l; [exact Hden|]. lra. }
  rewrite Hlen.
  split; [intros i Hi; apply Hnth; lia|]. split; [|split].
  - intros i j Hij. rewrite (Hnth i) by lia. rewrite (Hnth j) by lia.
    set (step := (f_stop cfg - f_start cfg) / inject_Z (num_points cfg - 1)) in *.
    assert (Hij' : inject_Z (Z.of_nat i) < inject_Z (Z.of_nat j))
      by (rewrite <- Zlt_Qlt; lia).
    assert (Hprod : 0 < (inject_Z (Z.of_nat j) - inject_Z (Z.of_nat i)) * step).
    { apply Qmult_lt_0_compat; [lra|exact Hstep]. }
    lra.
  - rewrite (Hnth 0%nat) by lia. cbn [Z.of_nat]. change (inject_Z 0) with 0.
    ring.
  - exact Hlast.
Qed.

End Linear.

Lemma linear_frequency_list_shape_witness :
  exists l,
    frequency_list (H := Fixtures.table_runtime) Fixtures.two_point_sweep = Ok l
    /\ List.length l = 2%nat /\ last l 0 = f_stop Fixtures.two_point_sweep.
Proof.
  destruct (linear_frequency_list_shape (H := Fixtures.table_runtime)
              Fixtures.two_point_sweep)
    as (l & Hl & Hlen & _ & _ & _ & Hlast);
    [reflexivity|reflexivity|cbn; lia|].
  exists l. split; [exact Hl|]. split; [exact Hlen|exact Hlast].
Defined.

End LinearScale.

Module TraceFacts.
Import Py PyFacts Eff Bench Bode Vocabulary.
Local Open Scope Q_scope.

Lemma appended_refl (P : event -> Prop) (t : list event) : appended P t t.
Proof. exists []. rewrite app_nil_r. split; [reflexivity|constructor]. Qed.

Lemma appended_trans (P : event -> Prop) (t1 t2 t3 : list event) :
  appended P t1 t2 -> appended P t2 t3 -> appended P t1 t3.
Proof.
  intros (n1 & -> & H1) (n2 & -> & H2). exists (n1 ++ n2)%list.
  rewrite app_assoc. split; [reflexivity|]. apply Forall_app. split; assumption.
Qed.

Lemma appended_one (P : event -> Prop) (t : list event) (e : event) :
  P e -> appended P t (t ++ [e]).
Proof. intro He. exists [e]. split; [reflexivity|]. repeat constructor. exact He. Qed.

Section Emitted.
Context {S : Type} (tr : S -> list event) (P : event -> Prop).

Lemma emits_ret {A : Type} (a : A) : emits tr P (ret a).
Proof. intro s. apply appended_refl. Qed.

Lemma emits_raise {A : Type} (e : exn) : emits tr P (@raise S A e).
Proof. intro s. apply appended_refl. Qed.

Lemma emits_eval {A : Type} (o : outcome A) : emits tr P (eval o).
Proof. intro s. apply appended_refl. Qed.

Lemma emits_gets {A : Type} (f : S -> A) : emits tr P (gets f).
Proof. intro s. apply appended_refl. Qed.

Lemma emits_modify (f : S -> S) :
  (forall s, tr (f s) = tr s) -> emits tr P (modify f).
Proof. intros Hf s. cbn [modify snd]. rewrite Hf. apply appended_refl. Qed.

(** What follows a statement only appends to what the statement left. *)
Lemma bind_after {A B : Type} (m : M S A) (k : A -> M S B) (s : S) :
  (forall a, emits tr P (k a)) ->
  appended P (tr (snd (m s))) (tr (snd (bind m k s))).
Proof.
  intro Hk. unfold bind. destruct (m s) as [[a|e] s1]; cbn [snd].
  - apply Hk.
  - apply appended_refl.
Qed.

Lemma try_except_after {A : Type} (body : M S A) (handles : exn -> bool)
    (handler : exn -> M S A) (s : S) :
  (forall e, emits tr P (handler e)) ->
  appended P (tr (snd (body s))) (tr (snd (try_except body handles handler s))).
Proof.
  intro Hh. unfold try_except. destruct (body s) as [[a|e] s1]; cbn [snd].
  - apply appended_refl.
  - destruct (handles e); cbn [snd]; [apply Hh|apply appended_refl].
Qed.

Lemma try_finally_after {A : Type} (body : M S A) (cleanup : M S unit) (s : S) :
  emits tr P cleanup ->
  appended P (tr (snd (body s))) (tr (snd (try_finally body cleanup s))).
Proof.
  intro Hc. unfold try_finally. destruct (body s) as [r s1]. cbn [snd].
  specialize (Hc s1). destruct (cleanup s1) as [[u|e] s2]; exact Hc.
Qed.

Lemma emits_bind {A B : Type} (m : M S A) (k : A -> M S B) :
  emits tr P m -> (forall a, emits tr P (k a)) -> emits tr P (bind m k).
Proof.
  intros Hm Hk s. eapply appended_trans; [apply Hm|]. apply bind_after, Hk.
Qed.

Lemma emits_try_except {A : Type} (body : M S A) (handles : exn -> bool)
    (handler : exn -> M S A) :
  emits tr P body -> (forall e, emits tr P (handler e)) ->
  emits tr P (try_except body handles handler).
Proof.
  intros Hb Hh s. eapply appended_trans; [apply Hb|].
  apply try_except_after, Hh.
Qed.

Lemma emits_try_finally {A : Type} (body : M S A) (cleanup : M S unit) :
  emits tr P body -> emits tr P cleanup ->
  emits tr P (try_finally body cleanup).
Proof.
  intros Hb Hc s. eapply appended_trans; [apply Hb|].
  apply try_finally_after, Hc.
Qed.

Lemma emits_for_loop {X V : Type} (xs : list X) (body : X -> V -> M S V) :
  (forall x v, emits tr P (body x v)) ->
  forall v, emits tr P (for_loop xs v body).
Proof.
  intro Hb. induction xs as [|x xs IH]; intro v; cbn [for_loop].
  - apply emits_ret.
  - apply emits_bind; [apply Hb|exact IH].
Qed.

End Emitted.

Section OnBench.
Context (P : event -> Prop).

Lemma emits_emit (e : event) : P e -> emits trace P (emit e).
Proof. intros He b. apply appended_one, He. Qed.

Lemma emits_sleep (d : Q) : P (Sleep d) -> emits trace P (sleep d).
Proof. apply emits_emit. Qed.

Lemma emits_scope_send (c : scope_cmd) :
  P (ToScope c) -> emits trace P (scope_send c).
Proof.
  intros He b. unfold scope_send. destruct (scope_link b).
  - apply appended_one, He.
  - apply appended_refl.
Qed.

Lemma emits_gen_send (c : gen_cmd) : P (ToGen c) -> emits trace P (gen_send c).
Proof.
  intros He b. unfold gen_send. destruct (gen_link b).
  - apply appended_one, He.
  - apply appended_refl.
Qed.

Lemma emits_poll (item : string) (n : nat) (v : option Q) :
  P (Polled item n) -> emits trace P (poll item n v).
Proof. intros He b. apply appended_one, He. Qed.

Lemma emits_on_bench {A : Type} (m : M bench A) :
  emits trace P m -> emits sweep_trace P (on_bench m).
Proof.
  intros Hm s. unfold on_bench, zoom, sweep_trace. specialize (Hm (instruments s)).
  destruct (m (instruments s)) as [r b1]. exact Hm.
Qed.

End OnBench.

(** Goals of the form [emits tr P m], for [m] built from the statements of
    the model; what is left is [P] of the events. *)
Ltac emits_tac :=
  repeat first
    [ progress intros
    | solve [auto 2]
    | apply emits_ret | apply emits_raise | apply emits_eval | apply emits_gets
    | apply emits_bind
    | apply emits_try_except
    | apply emits_try_finally
    | apply emits_for_loop
    | apply emits_on_bench
    | apply emits_sleep | apply emits_scope_send | apply emits_gen_send
    | apply emits_poll
    | match goal with
      | |- emits _ _ (if ?c then _ else _) => destruct c
      | |- emits _ _ (match ?x with _ => _ end) => destruct x
      end ].

Lemma py_min_max_within (x : Q) :
  0.5 <= py_min (py_max x 0.5) 5.0 /\ py_min (py_max x 0.5) 5.0 <= 5.0.
Proof.
  unfold py_min, py_max.
  destruct (Qgtb 0.5 x) eqn:E1.
  - destruct (Qltb 5.0 0.5) eqn:E2; [vm_compute in E2; discriminate|].
    split; vm_compute; discriminate.
  - apply Qgtb_le in E1.
    destruct (Qltb 5.0 x) eqn:E2.
    + split; vm_compute; discriminate.
    + apply Qltb_ge in E2. split; assumption.
Qed.

Section Pieces.
Context (P : event -> Prop).
Context (Hgen : forall c, P (ToGen c)).
Context (Hpolled : forall item n, P (Polled item n)).
Context (Hscope : forall c, c <> RUN -> P (ToScope c)).
Context (Hsleep : forall d, 0.2 <= d -> d <= 5.0 -> P (Sleep d)).

Lemma P_pause (d : Q) : Qleb 0.2 d && Qleb d 5.0 = true -> P (Sleep d).
Proof.
  intro Hd. apply andb_prop in Hd. destruct Hd as [Hlo Hhi].
  apply Hsleep; apply Qleb_le; assumption.
Qed.

Lemma P_capped (x : Q) : P (Sleep (py_min (py_max x 0.5) 5.0)).
Proof.
  destruct (py_min_max_within x) as [Hlo Hhi]. apply Hsleep; [|exact Hhi].
  apply Qle_trans with 0.5; [vm_compute; discriminate|exact Hlo].
Qed.

Ltac events :=
  first [ apply Hgen | apply Hpolled | apply P_capped
        | apply Hscope; discriminate
        | apply P_pause; vm_compute; reflexivity ].

Lemma emits_add_measurements : emits trace P add_measurements.
Proof. unfold add_measurements. emits_tac; events. Qed.

Lemma emits_read_once (reads : nat -> reading) (x : Q) (i : nat)
    (vars : list Q * list Q * list Q) :
  emits trace P (read_once reads (py_max x 0.5) i vars).
Proof. unfold read_once. destruct vars as [[v1 v2] d]. emits_tac; events. Qed.

Lemma emits_get_measurement_avg_auto (reads : nat -> reading) (N : Z) (t : Q) :
  emits trace P (get_measurement_avg_auto reads N t).
Proof.
  unfold get_measurement_avg_auto. cbv zeta.
  pose proof emits_add_measurements. pose proof emits_read_once.
  emits_tac; auto.
Qed.

Section Sweep.
Context `{Runtime}.

Lemma emits_measure_point (env : surroundings) (cfg : config)
    (point : nat * Q) :
  emits sweep_trace P (measure_point env cfg point).
Proof.
  unfold measure_point. destruct point as [i freq].
  pose proof emits_get_measurement_avg_auto.
  destruct (get_optimal_timebase (Double.nearest freq)) as [t_base_str t_base_sec].
  emits_tac; auto; try events.
  apply emits_modify. intro s. reflexivity.
Qed.

Lemma emits_point_loop (env : surroundings) (cfg : config)
    (points : list (nat * Q)) :
  emits sweep_trace P (point_loop env cfg points).
Proof.
  unfold point_loop. apply emits_for_loop. intros p v.
  apply emits_measure_point.
Qed.

Lemma emits_generator_off : emits sweep_trace P generator_off.
Proof. unfold generator_off. emits_tac; events. Qed.

Lemma emits_restore_scope : emits sweep_trace P restore_scope.
Proof. unfold restore_scope. emits_tac; events. Qed.

Lemma emits_sweep_and_clean_up (env : surroundings) (cfg : config)
    (points : list (nat * Q)) :
  emits sweep_trace P (sweep_and_clean_up env cfg points).
Proof.
  unfold sweep_and_clean_up.
  pose proof emits_point_loop. pose proof emits_generator_off.
  pose proof emits_restore_scope.
  emits_tac; auto.
Qed.

End Sweep.

Lemma emits_setup_initial_state (cfg : config) :
  emits trace P (setup_initial_state cfg).
Proof. unfold setup_initial_state. emits_tac; events. Qed.

End Pieces.

End TraceFacts.

Module SweepMore.
Import Py PyFacts Eff EffFacts Bench BenchFacts Bode Vocabulary TraceFacts.
Local Open Scope Q_scope.

Lemma bind_Ok_inv {S A B : Type} (m : M S A) (k : A -> M S B) (s : S) (b : B) :
  fst (bind m k s) = Ok b ->
  exists a s1, m s = (Ok a, s1) /\ bind m k s = k a s1.
Proof.
  unfold bind. destruct (m s) as [[a|e] s1]; cbn [fst]; [|discriminate].
  intros _. exists a, s1. split; reflexivity.
Qed.

Lemma keeps_results_on_bench {A : Type} (m : M bench A) :
  keeps results (on_bench m).
Proof.
  intro s. unfold on_bench, zoom. destruct (m (instruments s)) as [r b1].
  reflexivity.
Qed.

Lemma keeps_results_generator_off : keeps results generator_off.
Proof.
  unfold generator_off. apply keeps_try_except.
  - apply keeps_results_on_bench.
  - intro e. apply keeps_ret.
Qed.

Lemma keeps_results_restore_scope : keeps results restore_scope.
Proof.
  unfold restore_scope. apply keeps_try_except.
  - apply keeps_bind; [apply keeps_gets|]. intros [|].
    + apply keeps_bind; [apply keeps_results_on_bench|].
      intros _. apply keeps_results_on_bench.
    + apply keeps_ret.
  - intro e. apply keeps_ret.
Qed.

Lemma grown_by_nil (r : list Q * list Q * list Q) : grown_by [] r r.
Proof.
  exists [], []. destruct r as [[fs ms] ps]. cbn [fst snd].
  rewrite !app_nil_r. repeat split.
Qed.

Lemma grown_by_app (fs1 fs2 : list Q) (r1 r2 r3 : list Q * list Q * list Q) :
  grown_by fs1 r1 r2 -> grown_by fs2 r2 r3 -> grown_by (fs1 ++ fs2) r1 r3.
Proof.
  intros (ms1 & ps1 & -> & Hm1 & Hp1) (ms2 & ps2 & -> & Hm2 & Hp2).
  exists (ms1 ++ ms2)%list, (ps1 ++ ps2)%list. cbn [fst snd].
  rewrite !app_assoc, !length_app. repeat split; congruence.
Qed.

Lemma map_snd_enumerate {A : Type} (l : list A) : map snd (enumerate l) = l.
Proof.
  unfold enumerate. generalize 0%nat. induction l as [|x l IH]; intro n.
  - reflexivity.
  - cbn [List.length seq combine map snd]. rewrite IH. reflexivity.
Qed.

Section Sweep.
Context `{Runtime}.

(** One turn of the loop records nothing, or the point of a positive
    frequency. *)
Lemma measure_point_records (env : surroundings) (cfg : config) (i : nat)
    (freq : Q) (s : sweep_state) :
  exists fs,
    grown_by fs (results s) (results (snd (measure_point env cfg (i, freq) s)))
    /\ (fs = [] \/ (fs = [freq] /\ 0 < freq)).
Proof.
  set (Good := fun s' : sweep_state =>
         exists fs, grown_by fs (results s) (results s')
                    /\ (fs = [] \/ (fs = [freq] /\ 0 < freq))).
  change (Good (snd (measure_point env cfg (i, freq) s))).
  assert (Hsame : forall s' : sweep_state, results s' = results s -> Good s').
  { intros s' Hs'. exists []. rewrite Hs'. split; [apply grown_by_nil|].
    left. reflexivity. }
  unfold measure_point. unfold bind at 1.
  destruct (interrupt_at env i); cbn [raise ret snd];
    [apply Hsame; reflexivity|].
  destruct (Qleb freq 0) eqn:Hfreq; [apply Hsame; reflexivity|].
  apply Qleb_gt in Hfreq.
  destruct (get_optimal_timebase (Double.nearest freq)) as [t_base_str t_base_sec].
  repeat
    (match goal with
     | |- context [bind (on_bench ?m) ?k ?s0] =>
         let Hk := fresh "Hk" in
         pose proof (keeps_results_on_bench m s0) as Hk;
         unfold bind at 1;
         destruct (on_bench m s0) as [[?a|?e] ?s1]; cbn [snd] in Hk |- *;
         [|apply Hsame; congruence]
     end).
  match goal with
  | |- Good (snd ((let (p, delay) := ?x in _) ?s0)) =>
      destruct x as [[[vpp1|] [vpp2|]] [delay|]];
        try (apply Hsame; cbn [ret snd]; congruence)
  end.
  unfold bind, eval.
  destruct (magnitude_db vpp1 vpp2) as [magnitude|e]; cbn [snd];
    [|apply Hsame; congruence].
  exists [freq]. split; [|right; split; [reflexivity|exact Hfreq]].
  exists [magnitude], [phase_deg delay freq]. cbn [modify snd].
  unfold results in *. cbn [append_results results_freq results_mag
                             results_phase fst snd].
  repeat split. congruence.
Qed.

(** The loop records a subsequence of the frequencies it is given, all of
    them positive, with one magnitude and one phase each. *)
Lemma point_loop_records (env : surroundings) (cfg : config)
    (points : list (nat * Q)) :
  forall s,
  exists fs,
    grown_by fs (results s) (results (snd (point_loop env cfg points s)))
    /\ subsequence fs (map snd points)
    /\ Forall (fun f => 0 < f) fs.
Proof.
  unfold point_loop.
  induction points as [|[i freq] points IH]; intro s; cbn [for_loop map snd].
  - exists []. split; [apply grown_by_nil|]. split; constructor.
  - destruct (measure_point_records env cfg i freq s)
      as (fs1 & Hstep & Hfs1).
    assert (Hsub1 : forall rest, subsequence rest (map snd points) ->
              subsequence (fs1 ++ rest) (freq :: map snd points)).
    { intros rest Hrest. destruct Hfs1 as [->|[-> _]]; constructor; exact Hrest. }
    assert (Hpos1 : Forall (fun f => 0 < f) fs1).
    { destruct Hfs1 as [->|[-> Hfreq]]; repeat constructor. exact Hfreq. }
    assert (Hnone : subsequence (@nil Q) (map snd points)).
    { clear. induction (map snd points); constructor; assumption. }
    unfold bind.
    destruct (measure_point env cfg (i, freq) s) as [[[]|e] s1];
      cbn [snd] in Hstep |- *.
    + destruct (IH s1) as (fs & Hgrow & Hsub & Hpos).
      exists (fs1 ++ fs)%list.
      split; [exact (grown_by_app fs1 fs _ _ _ Hstep Hgrow)|].
      split; [exact (Hsub1 fs Hsub)|]. apply Forall_app. split; assumption.
    + exists fs1. split; [exact Hstep|].
      split; [|exact Hpos1].
      rewrite <- (app_nil_r fs1). exact (Hsub1 [] Hnone).
Qed.

(** What the [try] statement and the cleanup return are the lists the loop
    left. *)
Lemma sweep_and_clean_up_returns (env : surroundings) (cfg : config)
    (points : list (nat * Q)) (s : sweep_state)
    (r : list Q * list Q * list Q) (c : config) :
  fst (sweep_and_clean_up env cfg points s) = Ok (r, c) ->
  c = cfg /\ r = results (snd (point_loop env cfg points s)).
Proof.
  unfold sweep_and_clean_up. intro Hret.
  assert (Hbody : results (snd (try_finally
                    (try_except (point_loop env cfg points)
                       (exn_eqb KeyboardInterrupt) (fun _ => ret tt))
                    generator_off s))
                  = results (snd (point_loop env cfg points s))).
  { unfold try_finally, try_except.
    destruct (point_loop env cfg points s) as [[[]|e] s1]; cbn [snd].
    - pose proof (keeps_results_generator_off s1) as Hk.
      destruct (generator_off s1) as [[u|e'] s2]; exact Hk.
    - destruct (exn_eqb KeyboardInterrupt e); cbn [ret];
        pose proof (keeps_results_generator_off s1) as Hk;
        destruct (generator_off s1) as [[u|e'] s2]; exact Hk. }
  destruct (bind_Ok_inv _ _ _ _ Hret) as (u & s1 & Hs1 & Heq).
  rewrite Heq in Hret. rewrite Hs1 in Hbody. cbn [snd] in Hbody.
  destruct (bind_Ok_inv _ _ _ _ Hret) as (u' & s2 & Hs2 & Heq').
  rewrite Heq' in Hret. cbn [gets fst] in Hret.
  pose proof (keeps_results_restore_scope s1) as Hk.
  rewrite Hs2 in Hk. cbn [snd] in Hk.
  injection Hret as Hr Hc. split; [congruence|].
  rewrite <- Hbody, <- Hk. unfold results. congruence.
Qed.

(** A run that returns has built the frequency list, has entered the loop
    with empty result lists, and returns the lists that the loop left. *)
Lemma run_returns_what_the_loop_left (env : surroundings)
    (cfg c : config) (s : sweep_state) (fs ms ps : list Q) :
  fst (run_full_experiment env cfg s) = Ok (fs, ms, ps, c) ->
  c = cfg /\
  exists freq_list s0,
    frequency_list cfg = Ok freq_list /\
    results s0 = ([], [], []) /\
    results (snd (point_loop env cfg (enumerate freq_list) s0)) = (fs, ms, ps).
Proof.
  unfold run_full_experiment. intro Hret.
  destruct (bind_Ok_inv _ _ _ _ Hret) as (u1 & s1 & _ & Heq1).
  rewrite Heq1 in Hret. clear Heq1.
  destruct (bind_Ok_inv _ _ _ _ Hret) as (freq_list & s1' & Hlist & Heq2).
  rewrite Heq2 in Hret. clear Heq2.
  unfold eval in Hlist. injection Hlist as Hlist <-.
  destruct (bind_Ok_inv _ _ _ _ Hret) as ([] & s2 & Hclear & Heq3).
  rewrite Heq3 in Hret. clear Heq3.
  unfold modify in Hclear. injection Hclear as <-.
  destruct (bind_Ok_inv _ _ _ _ Hret) as ([] & s3 & Hstart & Heq4).
  rewrite Heq4 in Hret. clear Heq4.
  pose proof (keeps_results_on_bench start_scope (clear_results s1)) as Hk.
  rewrite Hstart in Hk. cbn [snd] in Hk.
  destruct (sweep_and_clean_up_returns env cfg _ s3 (fs, ms, ps) c Hret)
    as [Hc Hres].
  split; [exact Hc|]. exists freq_list, s3.
  split; [exact Hlist|]. split; [exact Hk|symmetry; exact Hres].
Qed.

(** X4. What a sweep returns.  When [run_full_experiment] returns, the
    configuration it hands back is the one it was given, the three result
    lists have the same length, and the recorded frequencies are entries
    of the frequency list in the order of the list (the points that failed
    being left out), every one of them positive. *)
Theorem returned_results_follow_frequency_list (env : surroundings)
    (cfg c : config) (s : sweep_state) (fs ms ps : list Q) :
  fst (run_full_experiment env cfg s) = Ok (fs, ms, ps, c) ->
  c = cfg /\
  List.length ms = List.length fs /\
  List.length ps = List.length fs /\
  Forall (fun f => 0 < f) fs /\
  exists freq_list,
    frequency_list cfg = Ok freq_list /\ subsequence fs freq_list.
Proof.
  intro Hret.
  destruct (run_returns_what_the_loop_left env cfg c s fs ms ps Hret)
    as (Hc & freq_list & s0 & Hlist & Hempty & Hleft).
  destruct (point_loop_records env cfg (enumerate freq_list) s0)
    as (fs' & (ms' & ps' & Hgrow & Hm & Hp) & Hsub & Hpos).
  rewrite Hleft, Hempty in Hgrow. cbn [fst snd app] in Hgrow.
  injection Hgrow as -> -> ->.
  rewrite map_snd_enumerate in Hsub.
  split; [exact Hc|]. split; [exact Hm|]. split; [exact Hp|].
  split; [exact Hpos|]. exists freq_list. split; assumption.
Qed.

(** X5. The pauses of a sweep.  Whatever the configuration, the readings
    and the connections, [run_full_experiment] only adds to what the
    instruments have been sent, and every pause that it, the setup and the
    sampler ask for with [time.sleep] lasts between 0.2 s and 5 s: the
    waits that depend on the frequency and on the timebase are capped at
    5 s, however low the frequency.  (The pauses inside the polling reader
    and inside the drivers are not events of the trace.) *)
Theorem sweep_pauses_are_bounded (env : surroundings) (cfg : config)
    (s : sweep_state) :
  exists new,
    sweep_trace (snd (run_full_experiment env cfg s)) = sweep_trace s ++ new
    /\ Forall (waits_within 0.2 5.0) new.
Proof.
  assert (Hgen : forall c, waits_within 0.2 5.0 (ToGen c)) by (intro; exact I).
  assert (Hpolled : forall item n, waits_within 0.2 5.0 (Polled item n))
    by (intros; exact I).
  assert (Hscope : forall c, waits_within 0.2 5.0 (ToScope c))
    by (intro; exact I).
  assert (Hsleep : forall d, 0.2 <= d -> d <= 5.0 ->
                     waits_within 0.2 5.0 (Sleep d))
    by (intros d Hlo Hhi; split; assumption).
  assert (Hstart : emits trace (waits_within 0.2 5.0) start_scope).
  { unfold start_scope.
    emits_tac; try apply Hscope; split; vm_compute; discriminate. }
  assert (Hsetup : emits trace (waits_within 0.2 5.0) (setup_initial_state cfg))
    by (apply emits_setup_initial_state; auto).
  assert (Hsweep : forall points,
            emits sweep_trace (waits_within 0.2 5.0)
              (sweep_and_clean_up env cfg points))
    by (intro; apply emits_sweep_and_clean_up; auto).
  assert (Hrun : emits sweep_trace (waits_within 0.2 5.0)
                   (run_full_experiment env cfg)).
  { unfold run_full_experiment. emits_tac.
    apply emits_modify. intro s0. reflexivity. }
  exact (Hrun s).
Qed.

Lemma not_RUN_scope (c : scope_cmd) : c <> RUN -> not_RUN (ToScope c).
Proof. intro Hc. destruct c; try reflexivity. contradiction. Qed.

Lemma scope_running_appended (before : bool) (t1 t2 : list event) :
  scope_running before (t1 ++ t2) = scope_running (scope_running before t1) t2.
Proof.
  revert before. induction t1 as [|e t1 IH]; intro was; [reflexivity|].
  cbn [app scope_running].
  destruct e as [c|[]| | | |]; apply IH.
Qed.

Lemma scope_stays_stopped (new : list event) :
  Forall not_RUN new -> scope_running false new = false.
Proof.
  induction 1 as [|e new He _ IH]; [reflexivity|].
  cbn [scope_running].
  destruct e as [c|[]| | | |]; try exact IH. discriminate He.
Qed.

Lemma appended_keeps_stopped (t t' : list event) :
  appended not_RUN t t' ->
  (forall before, scope_running before t = false) ->
  forall before, scope_running before t' = false.
Proof.
  intros (new & -> & Hnew) Hstopped was.
  rewrite scope_running_appended, Hstopped. apply scope_stays_stopped, Hnew.
Qed.

Lemma quiet_measure_point (env : surroundings) (cfg : config)
    (point : nat * Q) :
  emits sweep_trace not_RUN (measure_point env cfg point).
Proof.
  apply emits_measure_point; try (intros; reflexivity). exact not_RUN_scope.
Qed.

Lemma quiet_generator_off : emits sweep_trace not_RUN generator_off.
Proof. apply emits_generator_off; intros; reflexivity. Qed.

Lemma quiet_restore_scope : emits sweep_trace not_RUN restore_scope.
Proof. apply emits_restore_scope. exact not_RUN_scope. Qed.

(** A turn of the loop that records a point has stopped the oscilloscope
    and has not started it again. *)
Lemma measure_point_stops (env : surroundings) (cfg : config) (i : nat)
    (freq : Q) (s : sweep_state) :
  results (snd (measure_point env cfg (i, freq) s)) = results s \/
  forall before,
    scope_running before (sweep_trace (snd (measure_point env cfg (i, freq) s)))
    = false.
Proof.
  set (Good := fun s' : sweep_state =>
         results s' = results s \/
         forall before, scope_running before (sweep_trace s') = false).
  change (Good (snd (measure_point env cfg (i, freq) s))).
  assert (Hsame : forall s' : sweep_state, results s' = results s -> Good s')
    by (intros s' Hs'; left; exact Hs').
  unfold measure_point. unfold bind at 1.
  destruct (interrupt_at env i); cbn [raise ret snd];
    [apply Hsame; reflexivity|].
  destruct (Qleb freq 0) eqn:Hfreq; [apply Hsame; reflexivity|].
  destruct (get_optimal_timebase (Double.nearest freq)) as [t_base_str t_base_sec].
  do 2
    (match goal with
     | |- context [bind (on_bench ?m) ?k ?s0] =>
         let Hk := fresh "Hk" in
         pose proof (keeps_results_on_bench m s0) as Hk;
         unfold bind at 1;
         destruct (on_bench m s0) as [[?a|?e] ?s1]; cbn [snd] in Hk |- *;
         [|apply Hsame; congruence]
     end).
  unfold bind at 1. unfold on_bench at 1, zoom at 1, scope_send at 1.
  destruct (scope_link (instruments s0)); cbn [emit modify snd];
    [|apply Hsame; unfold results in *; cbn; congruence].
  match goal with
  | |- Good (snd (?rest ?s3)) =>
      assert (Hrest : emits sweep_trace not_RUN rest)
  end.
  { assert (Hsampler : forall reads N t,
              emits trace not_RUN (get_measurement_avg_auto reads N t)).
    { intros reads N t. apply emits_get_measurement_avg_auto;
        try (intros; reflexivity). exact not_RUN_scope. }
    emits_tac; try reflexivity.
    apply emits_modify. intro s3. reflexivity. }
  right. apply (appended_keeps_stopped _ _ (Hrest _)).
  intro was. unfold sweep_trace.
  cbn [instruments set_instruments trace add_event].
  rewrite scope_running_appended. reflexivity.
Qed.

(** Through the loop: either no point has been recorded yet, or the
    oscilloscope is stopped. *)
Lemma point_loop_stops (env : surroundings) (cfg : config)
    (points : list (nat * Q)) :
  forall s,
    (results_freq s = [] \/
     forall before, scope_running before (sweep_trace s) = false) ->
    results_freq (snd (point_loop env cfg points s)) = [] \/
    forall before,
      scope_running before (sweep_trace (snd (point_loop env cfg points s)))
      = false.
Proof.
  unfold point_loop.
  induction points as [|[i freq] points IH]; intros s Hs; [exact Hs|].
  cbn [for_loop].
  assert (Hs1 : results_freq (snd (measure_point env cfg (i, freq) s)) = [] \/
                forall before,
                  scope_running before
                    (sweep_trace (snd (measure_point env cfg (i, freq) s)))
                  = false).
  { destruct (measure_point_stops env cfg i freq s) as [Hsame|Hstop];
      [|right; exact Hstop].
    destruct Hs as [Hnone|Hstopped].
    - left. unfold results in Hsame. congruence.
    - right. exact (appended_keeps_stopped _ _
                      (quiet_measure_point env cfg (i, freq) s) Hstopped). }
  unfold bind.
  destruct (measure_point env cfg (i, freq) s) as [[[]|e] s1]; cbn [snd] in *.
  - apply IH. exact Hs1.
  - exact Hs1.
Qed.

Lemma sweep_and_clean_up_after (env : surroundings) (cfg : config)
    (points : list (nat * Q)) (s : sweep_state) :
  appended not_RUN (sweep_trace (snd (point_loop env cfg points s)))
    (sweep_trace (snd (sweep_and_clean_up env cfg points s))).
Proof.
  unfold sweep_and_clean_up.
  eapply appended_trans; [|apply bind_after].
  - eapply appended_trans; [|apply try_finally_after, quiet_generator_off].
    apply try_except_after. intro e. apply emits_ret.
  - intros _. apply emits_bind; [apply quiet_restore_scope|].
    intros _. apply emits_gets.
Qed.

(** X6. A sweep leaves the oscilloscope stopped.  Each turn of the loop
    sends [*STOP] before it sets the timebase and measures, and nothing
    from there to the end of [run_full_experiment] sends [*RUN]: when the
    function returns at least one point, the last of the two commands the
    oscilloscope received is [*STOP], so it is not acquiring, whatever it
    did before. *)
Theorem recorded_sweep_leaves_scope_stopped (env : surroundings)
    (cfg c : config) (s : sweep_state) (fs ms ps : list Q) :
  fst (run_full_experiment env cfg s) = Ok (fs, ms, ps, c) ->
  fs <> [] ->
  forall before,
    scope_running before (sweep_trace (snd (run_full_experiment env cfg s)))
    = false.
Proof.
  unfold run_full_experiment. intros Hret Hfs.
  destruct (bind_Ok_inv _ _ _ _ Hret) as (u1 & s1 & _ & Heq1).
  rewrite Heq1 in Hret |- *. clear Heq1.
  destruct (bind_Ok_inv _ _ _ _ Hret) as (freq_list & s1' & Hlist & Heq2).
  rewrite Heq2 in Hret |- *. clear Heq2.
  unfold eval in Hlist. injection Hlist as Hlist <-.
  destruct (bind_Ok_inv _ _ _ _ Hret) as ([] & s2 & Hclear & Heq3).
  rewrite Heq3 in Hret |- *. clear Heq3.
  unfold modify in Hclear. injection Hclear as <-.
  destruct (bind_Ok_inv _ _ _ _ Hret) as ([] & s3 & Hstart & Heq4).
  rewrite Heq4 in Hret |- *. clear Heq4.
  pose proof (keeps_results_on_bench start_scope (clear_results s1)) as Hk.
  rewrite Hstart in Hk. cbn [snd] in Hk.
  destruct (sweep_and_clean_up_returns env cfg _ s3 (fs, ms, ps) c Hret)
    as [_ Hres].
  apply (appended_keeps_stopped _ _
           (sweep_and_clean_up_after env cfg (enumerate freq_list) s3)).
  destruct (point_loop_stops env cfg (enumerate freq_list) s3) as [Hnone|Hstop].
  - left. unfold results in Hk. cbn in Hk. congruence.
  - exfalso. apply Hfs. unfold results in Hres. congruence.
  - exact Hstop.
Qed.

(** The configurations for which no frequency list can be built. *)
Lemma frequency_list_raises (cfg : config) :
  (num_points cfg < 0)%Z \/
  (String.eqb (scale cfg) "log" = true /\
   (f_start cfg <= 0 \/ f_stop cfg <= 0)) ->
  frequency_list cfg = Raise ValueError.
Proof.
  intro Hbad. unfold frequency_list, math_log10.
  assert (Hlin : forall a b, (num_points cfg < 0)%Z ->
                   linspace a b (num_points cfg) = Raise ValueError).
  { intros a b Hneg. unfold linspace. apply Z.ltb_lt in Hneg.
    rewrite Hneg. reflexivity. }
  destruct (String.eqb (scale cfg) "log") eqn:Hscale.
  - destruct (Qleb (f_start cfg) 0) eqn:Hlo; [reflexivity|].
    destruct (Qleb (f_stop cfg) 0) eqn:Hhi; [reflexivity|].
    apply Qleb_gt in Hlo, Hhi.
    destruct Hbad as [Hneg|[_ [Hle|Hle]]].
    + rewrite (Hlin _ _ Hneg). reflexivity.
    + exfalso. exact (Qlt_not_le _ _ Hlo Hle).
    + exfalso. exact (Qlt_not_le _ _ Hhi Hle).
  - destruct Hbad as [Hneg|[Hlog _]]; [exact (Hlin _ _ Hneg)|discriminate].
Qed.

(** X7. A frequency list that cannot be built.  With both connections
    open, a negative number of points, or a logarithmic scale with a start
    or stop frequency that is not positive, makes [run_full_experiment]
    raise [ValueError] once the instruments are set up: the last command
    sent is the one that switches the generator output on, the function
    sends nothing to switch it off, and the oscilloscope is not started. *)
Theorem bad_frequency_range_leaves_generator_on (env : surroundings)
    (cfg : config) (s : sweep_state) :
  sweep_links s = (true, true) ->
  ((num_points cfg < 0)%Z \/
   (String.eqb (scale cfg) "log" = true /\
    (f_start cfg <= 0 \/ f_stop cfg <= 0))) ->
  fst (run_full_experiment env cfg s) = Raise ValueError /\
  ends_with (sweep_trace (snd (run_full_experiment env cfg s)))
    [ToGen (SetOutputState "ON")] /\
  appended not_RUN (sweep_trace s)
    (sweep_trace (snd (run_full_experiment env cfg s))).
Proof.
  intros Hlinks Hbad. pose proof (frequency_list_raises cfg Hbad) as Hlist.
  destruct s as [[t g sc] rf rm rp].
  unfold sweep_links, bench_links in Hlinks. cbn in Hlinks.
  injection Hlinks as -> ->.
  set (s := {| instruments := {| trace := t; gen_link := true;
                                 scope_link := true |};
               results_freq := rf; results_mag := rm; results_phase := rp |}).
  assert (Hsetup : exists t',
            on_bench (setup_initial_state cfg) s =
              (Ok tt, {| instruments :=
                           {| trace := t' ++ [ToGen (SetOutputState "ON")];
                              gen_link := true; scope_link := true |};
                         results_freq := rf; results_mag := rm;
                         results_phase := rp |})).
  { eexists. cbn. reflexivity. }
  destruct Hsetup as [t' Hsetup].
  assert (Hquiet : emits sweep_trace not_RUN (on_bench (setup_initial_state cfg))).
  { apply emits_on_bench, emits_setup_initial_state; try (intros; reflexivity).
    exact not_RUN_scope. }
  specialize (Hquiet s). rewrite Hsetup in Hquiet.
  unfold run_full_experiment. rewrite (bind_ok _ _ _ _ _ Hsetup).
  unfold bind, eval. rewrite Hlist. cbn [fst snd].
  split; [reflexivity|]. split; [exists t'; reflexivity|exact Hquiet].
Qed.

(** X8. A closed connection is met during the setup.  When the generator
    or the oscilloscope is not connected, [run_full_experiment] raises
    [ConnectionError] before the generator output is switched on: with the
    generator disconnected nothing at all is sent, and with the oscilloscope
    alone disconnected the generator receives its shape, amplitude,
    impedance and offset and nothing more. *)
Theorem closed_connection_stops_the_setup (env : surroundings) (cfg : config)
    (s : sweep_state) :
  gen_link (instruments s) && scope_link (instruments s) = false ->
  fst (run_full_experiment env cfg s) = Raise ConnectionError /\
  sweep_trace (snd (run_full_experiment env cfg s)) =
    sweep_trace s ++
    (if gen_link (instruments s)
     then [ ToGen (SetShape "SINusoid");
            ToGen (SetAmplitude (gen_amplitude_vpp cfg));
            ToGen (SetImpedance "INFinity");
            ToGen (SetOffsetVolts "0V") ]
     else []).
Proof.
  intro Hdown. destruct s as [[t g sc] rf rm rp]. cbn in Hdown.
  unfold run_full_experiment, sweep_trace.
  destruct g; cbn in Hdown.
  - subst sc. cbn. split; [reflexivity|].
    rewrite <- !app_assoc. reflexivity.
  - cbn. split; [reflexivity|]. rewrite app_nil_r. reflexivity.
Qed.

End Sweep.

Lemma closed_connection_stops_the_setup_witness :
  fst (run_full_experiment (H := Fixtures.table_runtime) steady_surroundings
         Fixtures.two_point_sweep (sweep_with_links true false))
  = Raise ConnectionError.
Proof.
  apply (closed_connection_stops_the_setup (H := Fixtures.table_runtime)
           steady_surroundings Fixtures.two_point_sweep
           (sweep_with_links true false)).
  reflexivity.
Defined.

Lemma recorded_sweep_leaves_scope_stopped_witness :
  scope_running true
    (sweep_trace
       (snd (run_full_experiment (H := Fixtures.table_runtime)
               Fixtures.interrupted_second_point Fixtures.two_point_sweep
               Fixtures.fresh_sweep)))
  = false.
Proof.
  apply (recorded_sweep_leaves_scope_stopped (H := Fixtures.table_runtime)
           Fixtures.interrupted_second_point Fixtures.two_point_sweep
           Fixtures.two_point_sweep Fixtures.fresh_sweep
           [1000 + inject_Z 0 * ((10000 - 1000) / inject_Z (2 - 1))]
           [20 * 0]
           [phase_deg 0.0 (1000 + inject_Z 0 * ((10000 - 1000) / inject_Z (2 - 1)))]).
  - vm_compute. reflexivity.
  - discriminate.
Defined.

Lemma bad_frequency_range_leaves_generator_on_witness :
  fst (run_full_experiment (H := Fixtures.table_runtime) steady_surroundings
         {| f_start := 1000; f_stop := 10000; num_points := -1;
            scale := "lin"; num_averages := 1; gen_amplitude_vpp := 1.0 |}
         Fixtures.fresh_sweep)
  = Raise ValueError.
Proof.
  apply (bad_frequency_range_leaves_generator_on (H := Fixtures.table_runtime)
           steady_surroundings
           {| f_start := 1000; f_stop := 10000; num_points := -1;
              scale := "lin"; num_averages := 1; gen_amplitude_vpp := 1.0 |}
           Fixtures.fresh_sweep).
  - reflexivity.
  - left. reflexivity.
Defined.

Lemma returned_results_follow_frequency_list_witness :
  exists freq_list,
    frequency_list (H := Fixtures.table_runtime) Fixtures.two_point_sweep
      = Ok freq_list
    /\ subsequence [1000 + inject_Z 0 * ((10000 - 1000) / inject_Z (2 - 1))]
         freq_list.
Proof.
  apply (returned_results_follow_frequency_list (H := Fixtures.table_runtime)
           Fixtures.interrupted_second_point Fixtures.two_point_sweep
           Fixtures.two_point_sweep Fixtures.fresh_sweep
           [1000 + inject_Z 0 * ((10000 - 1000) / inject_Z (2 - 1))]
           [20 * 0]
           [phase_deg 0.0 (1000 + inject_Z 0 * ((10000 - 1000) / inject_Z (2 - 1)))]).
  vm_compute. reflexivity.
Defined.

End SweepMore.

Module PollingMore.
Import Py PyFacts Bode PollingFacts.
Local Open Scope Q_scope.

Section Reader.
Context `{Runtime}.

(** A call that starts before the timeout, after [k] pauses of 0.25 s, is
    one of the first [ceil(T / 0.25)] calls. *)
Lemma call_in_time_bounded (T now : Q) (k : nat) :
  inject_Z (Z.of_nat k) * 0.25 <= now -> now < T ->
  (k < Z.to_nat (Qceiling (T / 0.25)))%nat.
Proof.
  intros Hlow Hnow.
  pose proof (Qle_ceiling (T / 0.25)) as Hceil.
  assert (Hdiv : T / 0.25 == T * 4) by (field; discriminate).
  assert (Hlt : inject_Z (Z.of_nat k) < inject_Z (Qceiling (T / 0.25))).
  { set (c := inject_Z (Qceiling (T / 0.25))) in *.
    set (q := T / 0.25) in *. lra. }
  rewrite <- Zlt_Qlt in Hlt. lia.
Qed.

Lemma polling_loop_calls (f : nat -> attempt) (T : Q) :
  (forall j, 0 <= took (f j)) ->
  forall fuel now k r,
    (k <= Z.to_nat (Qceiling (T / 0.25)))%nat ->
    inject_Z (Z.of_nat k) * 0.25 <= now ->
    polling_loop fuel f T now k = Some r ->
    (calls r <= Z.to_nat (Qceiling (T / 0.25)))%nat /\
    (forall e, returned r = Raise e -> is_Exception e = false).
Proof.
  intro Hdur. induction fuel as [|fuel IH]; intros now k r Hk Hlow Hr;
    [discriminate|].
  cbn [polling_loop] in Hr.
  destruct (Qltb now T) eqn:Hnow.
  - apply Qltb_lt in Hnow.
    pose proof (call_in_time_bounded T now k Hlow Hnow) as Hcall.
    destruct (call_and_convert (f k)) as [v|e].
    + injection Hr as <-. cbn [calls returned]. split; [lia|discriminate].
    + destruct (exn_eqb e ValueError).
      * apply (IH _ _ _ (proj1 (Nat.le_succ_l _ _) Hcall)) in Hr; [exact Hr|].
        rewrite Nat2Z.inj_succ. unfold Z.succ. rewrite inject_Z_plus.
        change (inject_Z 1) with 1. specialize (Hdur k).
        set (n := inject_Z (Z.of_nat k)) in *. lra.
      * destruct (is_Exception e) eqn:He; injection Hr as <-;
          cbn [calls returned]; (split; [lia|]).
        -- discriminate.
        -- intros e' He'. injection He' as <-. exact He.
  - injection Hr as <-. cbn [calls returned]. split; [exact Hk|discriminate].
Qed.

(** X10. The cost of one read.  The polling reader always returns, after
    at most [ceil(timeout / 0.25)] calls of the measurement function (40
    for the timeout of 10 s the sampler uses, none at all for a timeout
    that is not positive), and it never raises an [Exception]: what it
    raises, if anything, is what the measurement function raised outside
    that class, such as [KeyboardInterrupt]. *)
Theorem polling_reader_calls_bounded (f : nat -> attempt) (T : Q)
    (Hdur : forall j, 0 <= took (f j)) :
  exists r,
    read_measurement_with_polling f T = Some r /\
    (calls r <= Z.to_nat (Qceiling (T / 0.25)))%nat /\
    (forall e, returned r = Raise e -> is_Exception e = false) /\
    (T <= 0 -> r = {| returned := Ok None; calls := 0 |}).
Proof.
  destruct (PollingSpec.polling_reader_returns f T Hdur) as [r Hr].
  exists r. split; [exact Hr|].
  unfold read_measurement_with_polling in Hr.
  destruct (polling_loop_calls f T Hdur (polling_fuel T) 0 0%nat r)
    as [Hcalls Hraise]; [lia| |exact Hr|].
  - cbn [Z.of_nat]. change (inject_Z 0) with 0. lra.
  - split; [exact Hcalls|]. split; [exact Hraise|].
    intro Hnone. unfold polling_fuel in Hr. cbn [polling_loop] in Hr.
    apply Qltb_ge in Hnone. rewrite Hnone in Hr. injection Hr as <-.
    reflexivity.
Qed.

End Reader.

(** A first call that raises [ValueError] is one of the calls counted. *)
Lemma polling_reader_calls_bounded_witness :
  exists r,
    read_measurement_with_polling (H := Fixtures.table_runtime)
      Fixtures.raising_then_ready_scope 10.0 = Some r
    /\ (calls r <= 40)%nat.
Proof.
  destruct (polling_reader_calls_bounded (H := Fixtures.table_runtime)
              Fixtures.raising_then_ready_scope 10.0) as (r & Hr & Hcalls & _).
  - intros [|j]; cbn; discriminate.
  - exists r. split; [exact Hr|exact Hcalls].
Defined.

End PollingMore.

Module SpectrumTable.
Import Py PyFacts Spectrum Vocabulary.
Local Open Scope Q_scope.

Lemma increasingb_bound (l : list Q) (x : Q) :
  increasingb (x :: l) = true -> forall u, In u l -> x < u.
Proof.
  revert x. induction l as [|y l IH]; intros x Hs u Hin; [destruct Hin|].
  cbn [increasingb] in Hs. apply andb_prop in Hs. destruct Hs as [Hxy Hs].
  apply Qltb_lt in Hxy. destruct Hin as [->|Hin]; [exact Hxy|].
  apply Qlt_trans with y; [exact Hxy|]. exact (IH y Hs u Hin).
Qed.

Lemma increasingb_tail (l : list Q) (x : Q) :
  increasingb (x :: l) = true -> increasingb l = true.
Proof.
  destruct l as [|y l]; [reflexivity|].
  cbn [increasingb]. intro Hs. apply andb_prop in Hs. exact (proj2 Hs).
Qed.

Lemma spectrum_timebases_increasing : increasingb VALID_TIMEBASES = true.
Proof. vm_compute. reflexivity. Qed.


Lemma spectrum_timebases_cons :
  VALID_TIMEBASES = 5e-9 :: tl VALID_TIMEBASES.
Proof. vm_compute. reflexivity. Qed.


Lemma spectrum_timebases_last_in :
  In (last VALID_TIMEBASES 0) VALID_TIMEBASES.
Proof. vm_compute. tauto. Qed.

(** When the loop returns, it returns the least entry that reaches the
    ideal value. *)
Lemma best_at_least_some (ideal : Q) (l : list Q) (t : Q) :
  increasingb l = true ->
  first_at_least ideal l = Some t ->
  In t l /\ ideal <= t /\ forall u, In u l -> ideal <= u -> t <= u.
Proof.
  induction l as [|y l IH]; intros Hs Hf; [discriminate|].
  cbn [first_at_least] in Hf.
  destruct (Qgeb y ideal) eqn:E.
  - injection Hf as <-. apply Qgeb_ge in E.
    split; [left; reflexivity|]. split; [exact E|].
    intros u [->|Hin] _; [apply Qle_refl|].
    apply Qlt_le_weak. exact (increasingb_bound l y Hs u Hin).
  - apply Qgeb_lt in E.
    destruct (IH (increasingb_tail l y Hs) Hf) as (Hin & Hle & Hmin).
    split; [right; exact Hin|]. split; [exact Hle|].
    intros u [<-|Hu] Hiu.
    + exfalso. exact (Qlt_not_le _ _ E Hiu).
    + exact (Hmin u Hu Hiu).
Qed.



End SpectrumTable.

Module SpectrumTimebase.
Import Py PyFacts Spectrum Vocabulary.
Local Open Scope Q_scope.




End SpectrumTimebase.

Module SpectrumMore.
Import Py PyFacts Eff EffFacts Bench BenchFacts Spectrum Vocabulary.
Local Open Scope Q_scope.

Lemma VALID_TIMEBASES_positive (t : Q) : In t VALID_TIMEBASES -> 0 < t.
Proof.
  assert (Hall : forallb (fun u => Qltb 0 u) VALID_TIMEBASES = true)
    by (vm_compute; reflexivity).
  intro Hin. rewrite forallb_forall in Hall. apply Qltb_lt. apply Hall, Hin.
Qed.

(** Whatever [get_best_timebase] returns is an entry of the table. *)
Lemma get_best_timebase_in (res : Q) (label : string) (t : Q) :
  get_best_timebase res = Ok (label, t) -> In t VALID_TIMEBASES.
Proof.
  unfold get_best_timebase.
  destruct (py_truediv 1.0 (res * 10.0)) as [ideal|e]; [|discriminate].
  destruct (first_at_least ideal VALID_TIMEBASES) as [u|] eqn:Hf;
    intro Hret;
    apply (f_equal (fun o => match o with Ok (_, x) => x | Raise _ => t end))
      in Hret; cbv beta iota in Hret; rewrite <- Hret.
  - exact (proj1 (SpectrumTable.best_at_least_some _ _ u
                    SpectrumTable.spectrum_timebases_increasing Hf)).
  - exact SpectrumTable.spectrum_timebases_last_in.
Qed.

Lemma spectrum_results_axis (sample_rate_hz : Q) (rows : list (list C))
    (window : list Rdefinitions.R) :
  fst (fst (spectrum_results sample_rate_hz rows window)) =
  firstn (N / 2)
    (map (fun k => inject_Z (Z.of_nat k) * sample_rate_hz
                   / inject_Z (Z.of_nat N))
         (seq 0 N)).
Proof. reflexivity. Qed.

Section Analysis.
Context `{Runtime}.

(** The loop collects a spectrum only at a repetition that delivered a
    full buffer. *)
Lemma acquisition_loop_collects (env : surroundings) (cfg : config)
    (t vps : Q) (idxs : list nat) :
  forall vars vars' b b',
    for_loop idxs vars (acquire_once env cfg t vps) b = (Ok vars', b') ->
    fst vars' = fst vars \/ exists i, In i idxs /\ full_buffer env i.
Proof.
  induction idxs as [|i idxs IH]; intros vars vars' b b' Hloop.
  - cbn [for_loop ret] in Hloop. injection Hloop as <- _. left. reflexivity.
  - cbn [for_loop] in Hloop.
    unfold bind at 1 in Hloop.
    destruct (acquire_once env cfg t vps i vars b) as [[vars1|e] b1] eqn:Hstep;
      [|discriminate].
    destruct (IH _ _ _ _ Hloop) as [Hsame|(j & Hj & Hfull)];
      [|right; exists j; split; [right; exact Hj|exact Hfull]].
    rewrite Hsame. clear Hloop IH Hsame.
    unfold acquire_once in Hstep. destruct vars as [ffts w].
    unfold bind, scope_send, sleep, emit, modify, scope_query, ret in Hstep.
    repeat match type of Hstep with
           | context [if scope_link ?x then _ else _] =>
               destruct (scope_link x); [|discriminate]
           end.
    destruct (adc_data env i) as [raw|] eqn:Hraw.
    + destruct (List.length raw =? N)%nat eqn:Hlen; cbn [negb] in Hstep.
      * right. exists i. split; [left; reflexivity|].
        exists raw. split; [exact Hraw|]. apply Nat.eqb_eq. exact Hlen.
      * injection Hstep as <- _. left. reflexivity.
    + injection Hstep as <- _. left. reflexivity.
Qed.

(** X12. What a result of the analyzer tells.  When
    [run_spectrum_analysis] returns a result, the configuration it hands
    back is the one it was given, at least one repetition delivered a
    buffer of exactly 500 samples, each of the three arrays has 250
    entries, and the frequency axis is [k] times the actual resolution
    [1 / (10 t)] for the timebase [t] that [get_best_timebase] chose: it
    starts at 0 and stays below the Nyquist frequency. *)
Theorem analysis_result_shape (env : surroundings) (cfg c : config)
    (b : bench) (freq_axis_hz : list Q)
    (v_rms v_db : list Rdefinitions.R) :
  fst (run_spectrum_analysis env cfg b)
    = Ok (Some (freq_axis_hz, v_rms, v_db), c) ->
  c = cfg /\
  (exists i, (i < Z.to_nat (num_averages cfg))%nat /\ full_buffer env i) /\
  List.length freq_axis_hz = 250%nat /\
  List.length v_rms = 250%nat /\
  List.length v_db = 250%nat /\
  exists label t,
    get_best_timebase (resolution_hz cfg) = Ok (label, t) /\
    forall k, (k < 250)%nat ->
      nth k freq_axis_hz 0 == inject_Z (Z.of_nat k) * actual_resolution_hz t /\
      nth k freq_axis_hz 0 < nyquist_freq_hz t.
Proof.
  unfold run_spectrum_analysis. intro Hret.
  destruct (SweepMore.bind_Ok_inv _ _ _ _ Hret) as ([label t] & b0 & Hbest & Heq).
  rewrite Heq in Hret. clear Heq. cbv beta iota zeta in Hret.
  unfold eval in Hbest. injection Hbest as Hbest _.
  destruct (SweepMore.bind_Ok_inv _ _ _ _ Hret) as (go_on & b1 & _ & Heq).
  rewrite Heq in Hret. clear Heq.
  destruct go_on; cbn [negb] in Hret; [|discriminate].
  do 4 (destruct (SweepMore.bind_Ok_inv _ _ _ _ Hret) as (? & ? & _ & Heq);
        rewrite Heq in Hret; clear Heq).
  destruct (SweepMore.bind_Ok_inv _ _ _ _ Hret) as (values & b6 & _ & Heq).
  rewrite Heq in Hret. clear Heq.
  destruct values as [[v_div_val probe_val]|]; [|discriminate].
  cbv zeta in Hret.
  destruct (SweepMore.bind_Ok_inv _ _ _ _ Hret)
    as ([ffts window] & b7 & Hloop & Heq).
  rewrite Heq in Hret. clear Heq. cbv beta iota in Hret.
  destruct (SweepMore.bind_Ok_inv _ _ _ _ Hret) as (? & b8 & _ & Heq).
  rewrite Heq in Hret. clear Heq.
  destruct ffts as [|fft0 ffts]; [discriminate|].
  cbn [ret fst] in Hret.
  assert (Hc : c = cfg).
  { apply (f_equal (fun o => match o with Ok (_, x) => x | Raise _ => c end))
      in Hret. symmetry. exact Hret. }
  assert (Hres : spectrum_results (inject_Z (Z.of_nat N) / (t * 10.0))
                   (fft0 :: ffts) window = (freq_axis_hz, v_rms, v_db)).
  { apply (f_equal (fun o => match o with
                             | Ok (Some r, _) => r
                             | _ => (freq_axis_hz, v_rms, v_db)
                             end)) in Hret. exact Hret. }
  clear Hret.
  split; [exact Hc|]. split.
  { destruct (acquisition_loop_collects _ _ _ _ _ _ _ _ _ Hloop)
      as [Hsame|(i & Hi & Hfull)]; [discriminate Hsame|].
    exists i. split; [|exact Hfull].
    unfold range in Hi. apply in_seq in Hi. lia. }
  pose proof (SpectrumResults.spectrum_results_bins
                (inject_Z (Z.of_nat N) / (t * 10.0)) (fft0 :: ffts) window)
    as Hbins.
  rewrite Hres in Hbins. destruct Hbins as (Hlf & Hlr & Hld & _).
  split; [exact Hlf|]. split; [exact Hlr|]. split; [exact Hld|].
  exists label, t. split; [exact Hbest|].
  intros k Hk.
  pose proof (VALID_TIMEBASES_positive t (get_best_timebase_in _ _ _ Hbest))
    as Ht.
  assert (Hnth : nth k freq_axis_hz 0 =
                 inject_Z (Z.of_nat k) * (inject_Z (Z.of_nat N) / (t * 10.0))
                 / inject_Z (Z.of_nat N)).
  { replace freq_axis_hz
      with (fst (fst (spectrum_results (inject_Z (Z.of_nat N) / (t * 10.0))
                        (fft0 :: ffts) window)))
      by (rewrite Hres; reflexivity).
    rewrite spectrum_results_axis.
    rewrite SpectrumResults.nth_firstn_lt by (rewrite SpectrumResults.half_N; exact Hk).
    rewrite (SpectrumResults.nth_map_in _ _ _ 0%nat)
      by (rewrite length_seq; unfold N; lia).
    rewrite seq_nth by (unfold N; lia). reflexivity. }
  assert (Hfreq : nth k freq_axis_hz 0
                  == inject_Z (Z.of_nat k) * actual_resolution_hz t).
  { rewrite Hnth. unfold actual_resolution_hz. cbv zeta.
    change (inject_Z (Z.of_nat N)) with 500. field.
    intro Hz. rewrite Hz in Ht. discriminate Ht. }
  split; [exact Hfreq|].
  rewrite Hfreq. unfold nyquist_freq_hz, actual_resolution_hz. cbv zeta.
  change (inject_Z (Z.of_nat N)) with 500.
  assert (Ht10 : 0 < t * 10.0)
    by (apply Qmult_lt_0_compat; [exact Ht|reflexivity]).
  assert (Hunit : 0 < 1.0 / (t * 10.0))
    by (apply Qlt_shift_div_l; [exact Ht10|reflexivity]).
  assert (Hny : 500 / (t * 10.0) / 2.0 == 250 * (1.0 / (t * 10.0))).
  { field. intro Hz. rewrite Hz in Ht. discriminate Ht. }
  rewrite Hny. apply Qmult_lt_r; [exact Hunit|].
  change 250 with (inject_Z 250). rewrite <- Zlt_Qlt. lia.
Qed.

(** X13. A resolution that is not positive.  A resolution of zero makes
    [run_spectrum_analysis] raise [ZeroDivisionError] at once, before the
    operator is asked anything and before anything is sent to the
    oscilloscope; a negative resolution raises nothing and selects the
    fastest timebase of the table, 5 ns per division. *)
Theorem resolution_that_is_not_positive (env : surroundings) (cfg : config)
    (b : bench) :
  (resolution_hz cfg == 0 ->
   run_spectrum_analysis env cfg b = (Raise ZeroDivisionError, b)) /\
  (resolution_hz cfg < 0 ->
   get_best_timebase (resolution_hz cfg) = Ok ("5ns"%string, 5e-9)).
Proof.
  split.
  - intro Hzero. unfold run_spectrum_analysis, bind, eval, get_best_timebase,
      py_truediv.
    assert (Hdiv : Qeq_bool (resolution_hz cfg * 10.0) 0 = true).
    { apply Qeq_bool_iff. rewrite Hzero. reflexivity. }
    rewrite Hdiv. reflexivity.
  - intro Hneg. unfold get_best_timebase, py_truediv.
    assert (Hten : resolution_hz cfg * 10.0 < 0).
    { setoid_replace 0 with (0 * 10.0) by reflexivity.
      apply Qmult_lt_compat_r; [reflexivity|exact Hneg]. }
    destruct (Qeq_bool (resolution_hz cfg * 10.0) 0) eqn:Hdiv.
    { apply Qeq_bool_eq in Hdiv. rewrite Hdiv in Hten. discriminate Hten. }
    assert (Hideal : 1.0 / (resolution_hz cfg * 10.0) <= 0).
    { destruct (Qlt_le_dec 0 (1.0 / (resolution_hz cfg * 10.0)))
        as [Hpos|Hle]; [exfalso|exact Hle].
      assert (Hprod : 1.0 / (resolution_hz cfg * 10.0)
                      * (resolution_hz cfg * 10.0) == 1).
      { field. intro Hz. rewrite Hz in Hneg. discriminate Hneg. }
      set (ideal := 1.0 / (resolution_hz cfg * 10.0)) in *.
      set (x := resolution_hz cfg * 10.0) in *.
      assert (Hlt : ideal * x < ideal * 0)
        by (apply Qmult_lt_l; [exact Hpos|exact Hten]).
      rewrite Hprod, Qmult_0_r in Hlt. discriminate Hlt. }
    rewrite SpectrumTable.spectrum_timebases_cons.
    cbn [first_at_least].
    assert (Hfirst : Qgeb 5e-9 (1.0 / (resolution_hz cfg * 10.0)) = true).
    { apply Qgeb_ge. apply Qle_trans with 0; [exact Hideal|].
      vm_compute. discriminate. }
    rewrite Hfirst. reflexivity.
Qed.

End Analysis.

Lemma resolution_that_is_not_positive_witness :
  run_spectrum_analysis (H := Fixtures.table_runtime) full_buffers
    {| f_start := 0.0; f_stop := 100000.0; resolution_hz := 0;
       num_averages := 3; channel := 1; coupling := "DC";
       window := "HANNing" |} Fixtures.idle_bench
  = (Raise ZeroDivisionError, Fixtures.idle_bench).
Proof.
  apply (resolution_that_is_not_positive (H := Fixtures.table_runtime)
           full_buffers
           {| f_start := 0.0; f_stop := 100000.0; resolution_hz := 0;
              num_averages := 3; channel := 1; coupling := "DC";
              window := "HANNing" |} Fixtures.idle_bench).
  reflexivity.
Defined.

Lemma analysis_result_shape_witness :
  exists freq_axis_hz v_rms v_db,
    fst (run_spectrum_analysis (H := Fixtures.table_runtime) full_buffers
           Fixtures.default_analysis Fixtures.idle_bench)
      = Ok (Some (freq_axis_hz, v_rms, v_db), Fixtures.default_analysis)
    /\ List.length freq_axis_hz = 250%nat.
Proof.
  assert (Hrun : exists r,
            fst (run_spectrum_analysis (H := Fixtures.table_runtime)
                   full_buffers Fixtures.default_analysis Fixtures.idle_bench)
            = Ok (Some r, Fixtures.default_analysis)).
  { eexists. reflexivity. }
  destruct Hrun as [[[freq_axis_hz v_rms] v_db] Hrun].
  exists freq_axis_hz, v_rms, v_db. split; [exact Hrun|].
  exact (proj1 (proj2 (proj2
           (analysis_result_shape (H := Fixtures.table_runtime) full_buffers
              Fixtures.default_analysis Fixtures.default_analysis
              Fixtures.idle_bench freq_axis_hz v_rms v_db Hrun)))).
Defined.

End SpectrumMore.

Module DriverSpec.
Import Py PyFacts Eff EffFacts Bench BenchFacts Spectrum Vocabulary Driver.
Local Open Scope Q_scope.

Lemma byte_code_range (b : Byte.byte) :
  (0 <= Z.of_N (Byte.to_N b) <= 255)%Z.
Proof. pose proof (Byte.to_N_bounded b). lia. Qed.


(** X14. What the driver hands over as samples.  An array returned by
    [get_adc_data] has exactly 500 entries, each between 0 and 255: they
    are the first 500 bytes of the reply, whatever follows them being
    dropped; and the function returns [None] exactly when the query handed
    back nothing or fewer than 500 bytes. *)
Theorem get_adc_data_shape (raw_data : option (list Byte.byte)) :
  (forall data,
     get_adc_data raw_data = Some data ->
     List.length data = 500%nat /\
     Forall (fun code => (0 <= code <= 255)%Z) data /\
     exists reply,
       raw_data = Some reply /\
       data = map (fun b => Z.of_N (Byte.to_N b)) (firstn 500 reply)) /\
  (get_adc_data raw_data = None <->
   raw_data = None \/
   exists reply, raw_data = Some reply /\ (List.length reply < 500)%nat).
Proof.
  unfold get_adc_data. destruct raw_data as [reply|].
  - destruct (List.length reply =? 0)%nat eqn:Hempty.
    + apply Nat.eqb_eq in Hempty. split; [discriminate|].
      split; [|reflexivity]. intros _. right. exists reply.
      split; [reflexivity|lia].
    + destruct (List.length reply <? 500)%nat eqn:Hshort.
      * apply Nat.ltb_lt in Hshort. split; [discriminate|].
        split; [|reflexivity]. intros _. right. exists reply.
        split; [reflexivity|exact Hshort].
      * apply Nat.ltb_ge in Hshort. split.
        -- intros data Hdata.
           apply (f_equal (fun o => match o with
                                    | Some d => d
                                    | None => data
                                    end)) in Hdata.
           cbv beta iota in Hdata. subst data.
           split; [rewrite length_map, length_firstn; lia|].
           split; [|exists reply; split; reflexivity].
           apply Forall_map. apply Forall_forall. intros b _.
           apply byte_code_range.
        -- split; [discriminate|].
           intros [Hnone|(reply' & Hreply & Hlen)]; [discriminate|].
           injection Hreply as <-. lia.
  - split; [discriminate|]. split; [|reflexivity]. intros _. left. reflexivity.
Qed.


Section Analysis.
Context `{Runtime}.




End Analysis.


End DriverSpec.

Module ConsoleSpec.
Import Py PyFacts Console PrimFloat DoubleFacts.
Local Open Scope string_scope.
Local Open Scope float_scope.

Section Dialogue.
Context `{Runtime}.
Variable double_of_string : string -> option float.

Lemma ask_scale_returns (inputs : list string) (c c' : settings)
    (rest : list string) :
  ask_scale inputs c = Returns c' rest ->
  (scale c' = "lin" \/ scale c' = "log") /\
  (List.length rest < List.length inputs)%nat.
Proof.
  revert c' rest. induction inputs as [|line inputs IH]; intros c' rest;
    cbn [ask_scale]; [discriminate|].
  destruct (String.eqb (or_default (lower line) (scale c)) "lin") eqn:Hlin;
    cbn [orb].
  - intro Hret. injection Hret as <- <-. apply String.eqb_eq in Hlin.
    cbn [scale set_scale List.length]. split; [left; exact Hlin|lia].
  - destruct (String.eqb (or_default (lower line) (scale c)) "log") eqn:Hlog.
    + intro Hret. injection Hret as <- <-. apply String.eqb_eq in Hlog.
      cbn [scale set_scale List.length]. split; [right; exact Hlog|lia].
    + intro Hret. destruct (IH _ _ Hret) as [Hscale Hlen].
      split; [exact Hscale|]. cbn [List.length]. lia.
Qed.

Lemma ask_f_start_returns (inputs : list string) (c c' : settings)
    (rest : list string) :
  ask_f_start double_of_string inputs c = Returns c' rest ->
  scale c' = scale c /\
  (scale c = "log" -> (f_start c' <=? 0) = false) /\
  (List.length rest < List.length inputs)%nat.
Proof.
  revert c' rest. induction inputs as [|line inputs IH]; intros c' rest;
    cbn [ask_f_start]; [discriminate|].
  assert (Hnext : ask_f_start double_of_string inputs c = Returns c' rest ->
            scale c' = scale c /\
            (scale c = "log" -> (f_start c' <=? 0) = false) /\
            (List.length rest < S (List.length inputs))%nat).
  { intro Hret. destruct (IH _ _ Hret) as (Hs & Hpos & Hlen).
    split; [exact Hs|]. split; [exact Hpos|lia]. }
  destruct (float_or double_of_string line (f_start c)) as [v|];
    [|exact Hnext].
  destruct (String.eqb (scale c) "log") eqn:Hlog; cbn [andb].
  - destruct (v <=? 0) eqn:Hv; [exact Hnext|].
    intro Hret. injection Hret as <- <-.
    cbn [scale f_start set_f_start List.length].
    split; [reflexivity|]. split; [intros _; exact Hv|lia].
  - intro Hret. injection Hret as <- <-.
    cbn [scale f_start set_f_start List.length].
    split; [reflexivity|]. split; [|lia].
    intro Habs. rewrite Habs in Hlog. discriminate Hlog.
Qed.

Lemma ask_f_stop_returns (inputs : list string) (c c' : settings)
    (rest : list string) :
  ask_f_stop double_of_string inputs c = Returns c' rest ->
  scale c' = scale c /\ f_start c' = f_start c /\
  (f_stop c' <=? f_start c) = false /\
  (List.length rest < List.length inputs)%nat.
Proof.
  revert c' rest. induction inputs as [|line inputs IH]; intros c' rest;
    cbn [ask_f_stop]; [discriminate|].
  assert (Hnext : ask_f_stop double_of_string inputs c = Returns c' rest ->
            scale c' = scale c /\ f_start c' = f_start c /\
            (f_stop c' <=? f_start c) = false /\
            (List.length rest < S (List.length inputs))%nat).
  { intro Hret. destruct (IH _ _ Hret) as (Hs & Hf & Hlt & Hlen).
    split; [exact Hs|]. split; [exact Hf|]. split; [exact Hlt|lia]. }
  destruct (float_or double_of_string line (f_stop c)) as [v|];
    [|exact Hnext].
  destruct (v <=? f_start c) eqn:Hv; [exact Hnext|].
  intro Hret. injection Hret as <- <-.
  cbn [scale f_start f_stop set_f_stop List.length].
  split; [reflexivity|]. split; [reflexivity|]. split; [exact Hv|lia].
Qed.

Lemma ask_int_returns (inputs : list string) (default v : Z)
    (rest : list string) :
  ask_int inputs default = Returns v rest ->
  (List.length rest < List.length inputs)%nat.
Proof.
  destruct inputs as [|line inputs]; cbn [ask_int]; [discriminate|].
  destruct (int_or line default); [|discriminate].
  intro Hret. injection Hret as _ <-. cbn [List.length]. lia.
Qed.

Lemma ask_float_returns (inputs : list string) (default v : float)
    (rest : list string) :
  ask_float double_of_string inputs default = Returns v rest ->
  (List.length rest < List.length inputs)%nat.
Proof.
  destruct inputs as [|line inputs]; cbn [ask_float]; [discriminate|].
  destruct (float_or double_of_string line default); [|discriminate].
  intro Hret. injection Hret as _ <-. cbn [List.length]. lia.
Qed.

Lemma and_then_returns {A B : Type} (a : answer A)
    (k : A -> list string -> answer B) (b : B) (rest : list string) :
  and_then a k = Returns b rest ->
  exists v rest', a = Returns v rest' /\ k v rest' = Returns b rest.
Proof.
  destruct a as [v rest'| |]; cbn [and_then]; try discriminate.
  intro Hk. exists v, rest'. split; [reflexivity|exact Hk].
Qed.

(** The configuration that the dialogue returns, from what the three loops
    left. *)
Lemma get_user_config_returns (inputs : list string) (default cfg : settings)
    (rest : list string) :
  get_user_config double_of_string inputs default = Returns cfg rest ->
  exists c3,
    (scale c3 = "lin" \/ scale c3 = "log") /\
    (scale c3 = "log" -> (f_start c3 <=? 0) = false) /\
    (f_stop c3 <=? f_start c3) = false /\
    same_range c3 cfg /\
    (is_lin cfg = true ->
     num_points_lin cfg = num_points cfg /\
     y_mag_min_lin cfg = y_mag_min cfg) /\
    (is_lin cfg = false ->
     num_points_lin cfg = num_points_lin default /\
     y_mag_min_lin cfg = y_mag_min_lin default) /\
    (List.length rest + 8 <= List.length inputs)%nat.
Proof.
  unfold get_user_config. intro Hret.
  destruct (and_then_returns _ _ _ _ Hret) as (c1 & r1 & Hscale & Hret1).
  destruct (and_then_returns _ _ _ _ Hret1) as (c2 & r2 & Hstart & Hret2).
  destruct (and_then_returns _ _ _ _ Hret2) as (c3 & r3 & Hstop & Hret3).
  cbv zeta in Hret3.
  destruct (and_then_returns _ _ _ _ Hret3) as (pts & r4 & Hpts & Hret4).
  destruct (and_then_returns _ _ _ _ Hret4) as (avg & r5 & Havg & Hret5).
  destruct (and_then_returns _ _ _ _ Hret5) as (amp & r6 & Hamp & Hret6).
  destruct (and_then_returns _ _ _ _ Hret6) as (mn & r7 & Hmn & Hret7).
  destruct (and_then_returns _ _ _ _ Hret7) as (mx & r8 & Hmx & Hret8).
  clear Hret Hret1 Hret2 Hret3 Hret4 Hret5 Hret6 Hret7.
  destruct (ask_scale_returns _ _ _ _ Hscale) as (Hs1 & Hl1).
  destruct (ask_f_start_returns _ _ _ _ Hstart) as (Hs2 & Hpos & Hl2).
  destruct (ask_f_stop_returns _ _ _ _ Hstop) as (Hs3 & Hf3 & Hlt & Hl3).
  pose proof (ask_int_returns _ _ _ _ Hpts) as Hl4.
  pose proof (ask_int_returns _ _ _ _ Havg) as Hl5.
  pose proof (ask_float_returns _ _ _ _ Hamp) as Hl6.
  pose proof (ask_float_returns _ _ _ _ Hmn) as Hl7.
  pose proof (ask_float_returns _ _ _ _ Hmx) as Hl8.
  assert (Hlin_default : is_lin c3 = false ->
            num_points_lin c3 = num_points_lin default /\
            y_mag_min_lin c3 = y_mag_min_lin default).
  { intros _. clear - Hscale Hstart Hstop.
    assert (H1 : num_points_lin c1 = num_points_lin default /\
                 y_mag_min_lin c1 = y_mag_min_lin default).
    { revert Hscale. generalize inputs. clear.
      induction inputs as [|line inputs IH]; cbn [ask_scale]; [discriminate|].
      destruct (_ || _); [|exact IH].
      intro Hret. injection Hret as <- _. split; reflexivity. }
    assert (H2 : num_points_lin c2 = num_points_lin c1 /\
                 y_mag_min_lin c2 = y_mag_min_lin c1).
    { revert Hstart. generalize r1. clear.
      induction r1 as [|line inputs IH]; cbn [ask_f_start]; [discriminate|].
      destruct (float_or double_of_string line (f_start c1)) as [v|];
        [|exact IH].
      destruct (_ && _); [exact IH|].
      intro Hret. injection Hret as <- _. split; reflexivity. }
    assert (H3 : num_points_lin c3 = num_points_lin c2 /\
                 y_mag_min_lin c3 = y_mag_min_lin c2).
    { revert Hstop. generalize r2. clear.
      induction r2 as [|line inputs IH]; cbn [ask_f_stop]; [discriminate|].
      destruct (float_or double_of_string line (f_stop c2)) as [v|];
        [|exact IH].
      destruct (v <=? f_start c2); [exact IH|].
      intro Hret. injection Hret as <- _. split; reflexivity. }
    destruct H1, H2, H3. split; congruence. }
  exists c3.
  split; [rewrite Hs3, Hs2; exact Hs1|].
  split; [intro Hlog; rewrite Hf3; apply Hpos; rewrite <- Hs2, <- Hs3;
          exact Hlog|].
  split; [rewrite Hf3; exact Hlt|].
  clear Hscale Hstart Hstop Hpts Havg Hamp Hmn Hmx.
  unfold is_lin in *.
  destruct (String.eqb (scale c3) "lin") eqn:Hlin;
    cbn [scale set_num_points set_num_points_lin set_num_averages
         set_gen_amplitude_vpp set_y_mag_min set_y_mag_min_lin set_y_mag_max]
      in Hret8;
    rewrite ?Hlin in Hret8;
    cbn [scale set_num_points set_num_points_lin set_num_averages
         set_gen_amplitude_vpp set_y_mag_min set_y_mag_min_lin set_y_mag_max]
      in Hret8;
    rewrite ?Hlin in Hret8;
    injection Hret8 as <- <-;
    cbn [scale f_start f_stop num_points num_points_lin y_mag_min
         y_mag_min_lin set_num_points set_num_points_lin set_num_averages
         set_gen_amplitude_vpp set_y_mag_min set_y_mag_min_lin set_y_mag_max];
    rewrite ?Hlin.
  - split; [repeat split|]. split; [intros _; split; reflexivity|].
    split; [discriminate|lia].
  - split; [repeat split|]. split; [discriminate|].
    split; [intros _; exact (Hlin_default eq_refl)|lia].
Qed.

(** X16. What the dialogue guarantees.  A configuration returned by
    [get_user_config] has a scale that is ['lin'] or ['log'], and the two
    tests of the dialogue are false of it, whatever the defaults and the
    answers were: [f_stop <= f_start] and, on a logarithmic scale,
    [f_start <= 0].  For frequencies that are numbers this puts the stop
    frequency above the start frequency and, on a logarithmic scale, the
    start frequency above zero; an answer that is not a number (['nan'])
    passes both tests.  At least eight answers have been read; and on a
    linear scale the linear point count and the linear lower bound of the
    plot are those just entered, while on a logarithmic scale they are
    kept from the defaults. *)
Theorem get_user_config_validates (inputs : list string)
    (default cfg : settings) (rest : list string) :
  get_user_config double_of_string inputs default = Returns cfg rest ->
  (scale cfg = "lin" \/ scale cfg = "log") /\
  (scale cfg = "log" -> (f_start cfg <=? 0) = false) /\
  (f_stop cfg <=? f_start cfg) = false /\
  (scale cfg = "log" -> is_nan (f_start cfg) = false ->
   (0 <? f_start cfg) = true) /\
  (is_nan (f_start cfg) = false -> is_nan (f_stop cfg) = false ->
   (f_start cfg <? f_stop cfg) = true) /\
  (scale cfg = "lin" ->
   num_points_lin cfg = num_points cfg /\
   y_mag_min_lin cfg = y_mag_min cfg) /\
  (scale cfg = "log" ->
   num_points_lin cfg = num_points_lin default /\
   y_mag_min_lin cfg = y_mag_min_lin default) /\
  (List.length rest + 8 <= List.length inputs)%nat.
Proof.
  intro Hret.
  destruct (get_user_config_returns inputs default cfg rest Hret)
    as (c3 & Hscale & Hpos & Hlt & (Hs & Hf1 & Hf2) & Hlin & Hlog & Hlen).
  rewrite <- Hs in Hscale, Hpos. rewrite <- Hf1 in Hpos, Hlt.
  rewrite <- Hf2 in Hlt. clear c3 Hs Hf1 Hf2.
  split; [exact Hscale|]. split; [exact Hpos|]. split; [exact Hlt|].
  split; [|split; [|split; [|split; [|exact Hlen]]]].
  - intros H1 Hnum.
    destruct (leb_false_cases _ _ (Hpos H1)) as [Hn|[Hn|Hgt]];
      [rewrite Hn in Hnum; discriminate Hnum|discriminate Hn|exact Hgt].
  - intros Hnum1 Hnum2.
    destruct (leb_false_cases _ _ Hlt) as [Hn|[Hn|Hgt]];
      [rewrite Hn in Hnum2; discriminate Hnum2
      |rewrite Hn in Hnum1; discriminate Hnum1|exact Hgt].
  - intro H1. apply Hlin. unfold is_lin. rewrite H1. reflexivity.
  - intro H1. apply Hlog. unfold is_lin. rewrite H1. reflexivity.
Qed.

Lemma linspace_length (a b : Q) (num : Z) :
  (0 <= num)%Z ->
  exists l, Bode.linspace a b num = Ok l /\ List.length l = Z.to_nat num.
Proof.
  intro Hnum. unfold Bode.linspace.
  destruct (num <? 0)%Z eqn:Hneg; [apply Z.ltb_lt in Hneg; lia|].
  destruct (Z.to_nat num) as [|[|n]].
  - exists []. split; reflexivity.
  - exists [a]. split; reflexivity.
  - eexists. split; [reflexivity|].
    rewrite length_app, length_map, length_seq. cbn [List.length]. lia.
Qed.

(** X17. From the dialogue to the sweep.  For a configuration returned by
    [get_user_config] whose frequencies and amplitude are finite numbers,
    the frequency list of [run_full_experiment] can be built exactly when
    the number of points that was entered is not negative, and it then
    has that many entries: for finite numbers the checks of the dialogue
    rule out every other failure of the list, and the number of points is
    the one entry they leave unchecked. *)
Theorem dialogue_guards_the_frequency_list (inputs : list string)
    (default cfg : settings) (rest : list string) :
  get_user_config double_of_string inputs default = Returns cfg rest ->
  is_finite (f_start cfg) = true ->
  is_finite (f_stop cfg) = true ->
  is_finite (gen_amplitude_vpp cfg) = true ->
  exists c,
    sweep_config cfg = Some c /\
    ((num_points cfg < 0)%Z ->
     Bode.frequency_list c = Raise ValueError) /\
    ((0 <= num_points cfg)%Z ->
     exists freq_list,
       Bode.frequency_list c = Ok freq_list /\
       List.length freq_list = Z.to_nat (num_points cfg)).
Proof.
  intros Hret Hfin1 Hfin2 Hfin3.
  destruct (get_user_config_returns inputs default cfg rest Hret)
    as (c3 & Hscale & Hpos & Hlt & (Hs & Hf1 & Hf2) & _).
  rewrite <- Hs in Hscale, Hpos. rewrite <- Hf1 in Hpos, Hlt.
  rewrite <- Hf2 in Hlt. clear c3 Hs Hf1 Hf2.
  unfold sweep_config. rewrite Hfin1, Hfin2, Hfin3. cbn [andb].
  eexists. split; [reflexivity|]. split.
  - intro Hneg. apply SweepMore.frequency_list_raises. left. exact Hneg.
  - intro Hnum. unfold Bode.frequency_list.
    cbn [Bode.scale Bode.f_start Bode.f_stop Bode.num_points].
    destruct (String.eqb (scale cfg) "log") eqn:Hlog.
    + apply String.eqb_eq in Hlog. specialize (Hpos Hlog).
      destruct (finite_not_le_zero _ Hfin1 Hpos) as (m1 & e1 & E1).
      destruct (finite_not_le_positive _ _ _ _ Hfin2 E1 Hlt)
        as (m2 & e2 & E2).
      pose proof (exact_positive _ _ _ E1) as Hstart.
      pose proof (exact_positive _ _ _ E2) as Hstop.
      unfold math_log10.
      apply Qleb_gt in Hstart, Hstop. rewrite Hstart, Hstop.
      destruct (linspace_length (log10 (Double.exact (f_start cfg)))
                  (log10 (Double.exact (f_stop cfg)))
                  (num_points cfg) Hnum) as (l & Hl & Hlen).
      rewrite Hl. exists (map pow10 l). split; [reflexivity|].
      rewrite length_map. exact Hlen.
    + exact (linspace_length _ _ _ Hnum).
Qed.

End Dialogue.

(** The scale in capitals, a start frequency of zero and a text that is
    no number asked again, then 10 Hz to 1 kHz. *)
Lemma get_user_config_validates_witness :
  exists cfg,
    get_user_config (H := Fixtures.table_runtime) Keyboard.table_double
      ["LOG"; "0"; "abc"; "10"; "-5"; "1000"; ""; ""; ""; ""; ""]
      FACTORY_DEFAULTS = Returns cfg []
    /\ scale cfg = "log" /\ f_start cfg = 10 /\ f_stop cfg = 1000
    /\ (0 <? f_start cfg) = true /\ (f_start cfg <? f_stop cfg) = true.
Proof.
  assert (Hrun :
    get_user_config (H := Fixtures.table_runtime) Keyboard.table_double
      ["LOG"; "0"; "abc"; "10"; "-5"; "1000"; ""; ""; ""; ""; ""]
      FACTORY_DEFAULTS
    = Returns (set_f_stop 1000 (set_f_start 10 FACTORY_DEFAULTS)) [])
    by (vm_compute; reflexivity).
  exists (set_f_stop 1000 (set_f_start 10 FACTORY_DEFAULTS)).
  split; [exact Hrun|].
  split; [reflexivity|]. split; [reflexivity|]. split; [reflexivity|].
  pose proof (get_user_config_validates (H := Fixtures.table_runtime)
                Keyboard.table_double _ _ _ _ Hrun)
    as (_ & _ & _ & Hpos & Hlt & _).
  split; [apply Hpos; reflexivity|apply Hlt; reflexivity].
Defined.

(** What the checks let through: on a logarithmic scale the answer
    ['nan'] is taken as the start frequency, and after it every stop
    frequency is taken, a negative one included. *)
Example nan_passes_the_checks :
  exists cfg,
    get_user_config (H := Fixtures.table_runtime) Keyboard.table_double
      ["log"; "nan"; "-5"; ""; ""; ""; ""; ""] FACTORY_DEFAULTS
      = Returns cfg []
    /\ scale cfg = "log" /\ is_nan (f_start cfg) = true /\ f_stop cfg = -5.
Proof.
  eexists. split; [vm_compute; reflexivity|].
  split; [reflexivity|]. split; reflexivity.
Qed.

(** The same answers: twenty points from 10 Hz to 1 kHz on a logarithmic
    scale. *)
Lemma dialogue_guards_the_frequency_list_witness :
  exists c freq_list,
    sweep_config (set_f_stop 1000 (set_f_start 10 FACTORY_DEFAULTS)) = Some c
    /\ Bode.frequency_list (H := Fixtures.table_runtime) c = Ok freq_list
    /\ List.length freq_list = 20%nat.
Proof.
  assert (Hrun :
    get_user_config (H := Fixtures.table_runtime) Keyboard.table_double
      ["LOG"; "0"; "abc"; "10"; "-5"; "1000"; ""; ""; ""; ""; ""]
      FACTORY_DEFAULTS
    = Returns (set_f_stop 1000 (set_f_start 10 FACTORY_DEFAULTS)) [])
    by (vm_compute; reflexivity).
  destruct (dialogue_guards_the_frequency_list (H := Fixtures.table_runtime)
              Keyboard.table_double _ _ _ _ Hrun
              eq_refl eq_refl eq_refl) as (c & Hc & _ & Hok).
  destruct (Hok ltac:(discriminate)) as (l & Hl & Hlen).
  exists c, l. split; [exact Hc|]. split; [exact Hl|exact Hlen].
Defined.

End ConsoleSpec.

Module ConfigFileSpec.
Import Py ConfigFile.
Local Open Scope string_scope.

Lemma dict_get_set (k k' : string) (v : value) (d : dict) :
  dict_get k (dict_set k' v d) =
  if String.eqb k k' then Some v else dict_get k d.
Proof.
  induction d as [|[k0 v0] d IH]; cbn [dict_set dict_get].
  - destruct (String.eqb k k'); reflexivity.
  - destruct (String.eqb k' k0) eqn:Hk0; cbn [dict_get].
    + apply String.eqb_eq in Hk0. subst k0.
      destruct (String.eqb k k'); reflexivity.
    + destruct (String.eqb k k0) eqn:Hk.
      * apply String.eqb_eq in Hk. subst k0.
        rewrite String.eqb_sym, Hk0. reflexivity.
      * exact IH.
Qed.

(** After an update, a key of the other dictionary has its value there, and
    any other key has the value it had. *)
Lemma dict_get_update (k : string) (other : dict) :
  NoDup (map fst other) ->
  forall d,
    dict_get k (dict_update d other) =
    match dict_get k other with
    | Some v => Some v
    | None => dict_get k d
    end.
Proof.
  unfold dict_update.
  induction other as [|[k0 v0] other IH]; intros Hnodup d; [reflexivity|].
  cbn [fold_left fst snd dict_get map] in *.
  inversion Hnodup as [|x l Hnotin Hrest]; subst.
  rewrite (IH Hrest). rewrite dict_get_set.
  destruct (String.eqb k k0) eqn:Hk; [|reflexivity].
  apply String.eqb_eq in Hk. subst k0.
  destruct (dict_get k other) as [v|] eqn:Hget; [|reflexivity].
  exfalso. apply Hnotin. clear - Hget.
  induction other as [|[k1 v1] other IH]; [discriminate|].
  cbn [dict_get map fst] in *.
  destruct (String.eqb k k1) eqn:Hk1.
  - apply String.eqb_eq in Hk1. left. symmetry. exact Hk1.
  - right. exact (IH Hget).
Qed.

Lemma dict_get_filter_missing (k : string) (config defaults : dict) :
  dict_get k (filter (fun kv => negb (dict_contains (fst kv) config)) defaults)
  = if dict_contains k config then None else dict_get k defaults.
Proof.
  induction defaults as [|[k0 v0] defaults IH]; cbn [filter dict_get fst].
  - destruct (dict_contains k config); reflexivity.
  - destruct (dict_contains k0 config) eqn:Hk0; cbn [negb dict_get].
    + rewrite IH. destruct (String.eqb k k0) eqn:Hk; [|reflexivity].
      apply String.eqb_eq in Hk. subst k0. rewrite Hk0. reflexivity.
    + destruct (String.eqb k k0) eqn:Hk; [|exact IH].
      apply String.eqb_eq in Hk. subst k0. rewrite Hk0. reflexivity.
Qed.

Lemma NoDup_filter_keys (f : string * value -> bool) (d : dict) :
  NoDup (map fst d) -> NoDup (map fst (filter f d)).
Proof.
  induction d as [|[k v] d IH]; intro Hnodup; [constructor|].
  cbn [map fst] in Hnodup. inversion Hnodup as [|x l Hnotin Hrest]; subst.
  cbn [filter]. destruct (f (k, v)); [|exact (IH Hrest)].
  cbn [map fst]. constructor; [|exact (IH Hrest)].
  intro Hin. apply Hnotin. clear - Hin.
  induction d as [|[k1 v1] d IH]; [contradiction|].
  cbn [filter] in Hin. cbn [map fst].
  destruct (f (k1, v1)); [|right; exact (IH Hin)].
  cbn [map fst] in Hin. destruct Hin as [Heq|Hin];
    [left; exact Heq|right; exact (IH Hin)].
Qed.

(** X18. The configuration that is loaded.  For defaults with distinct
    keys: when the file is absent, or is a text that is not a JSON
    document, [load_config] returns the defaults; when it holds a JSON
    object, every key of the object keeps the value of the file and every
    other key has its default value, so that no key of the defaults is
    ever missing from the result; every other failure of [open] or of
    [json.load] (a file that cannot be opened, bytes that are not text in
    the expected encoding) is raised to the caller, as is the
    [AttributeError] of a JSON document that is not an object. *)
Theorem load_config_fills_in_defaults (defaults : dict) (file : config_file) :
  NoDup (map fst defaults) ->
  match file with
  | Missing => load_config defaults file = Returns defaults
  | Unloadable e =>
      load_config defaults file =
        if is_JSONDecodeError e then Returns defaults else Raises e
  | NotObject => load_config defaults file = Raises AttributeError
  | Object members =>
      exists config,
        load_config defaults file = Returns config /\
        (forall k,
           dict_get k config =
           match dict_get k members with
           | Some v => Some v
           | None => dict_get k defaults
           end) /\
        (forall k, dict_contains k defaults = true ->
                   dict_contains k config = true)
  end.
Proof.
  intro Hnodup. destruct file as [|e|members|]; cbn [load_config];
    try reflexivity.
  eexists. split; [reflexivity|].
  assert (Hget : forall k,
    dict_get k
      (dict_update members
         (filter (fun kv => negb (dict_contains (fst kv) members)) defaults))
    = match dict_get k members with
      | Some v => Some v
      | None => dict_get k defaults
      end).
  { intro k.
    rewrite dict_get_update by (apply NoDup_filter_keys; exact Hnodup).
    rewrite dict_get_filter_missing. unfold dict_contains.
    destruct (dict_get k members); [reflexivity|].
    destruct (dict_get k defaults); reflexivity. }
  split; [exact Hget|].
  intros k Hk. unfold dict_contains in *. rewrite Hget.
  destruct (dict_get k members); [reflexivity|exact Hk].
Qed.

Lemma load_config_fills_in_defaults_witness :
  exists config,
    load_config BODE_FACTORY_DEFAULTS
      (Object [("scale", Str "lin"); ("comment", Str "bench 2")])
      = Returns config
    /\ dict_get "scale" config = Some (Str "lin")
    /\ dict_get "num_points" config = Some (Int 20).
Proof.
  destruct (load_config_fills_in_defaults BODE_FACTORY_DEFAULTS
              (Object [("scale", Str "lin"); ("comment", Str "bench 2")]))
    as (config & Hload & Hget & _).
  - repeat constructor; cbn; intuition discriminate.
  - exists config. split; [exact Hload|].
    split; [exact (Hget "scale")|exact (Hget "num_points")].
Defined.

(** A file that is not text in the expected encoding: the defaults are
    not used, the error reaches the caller. *)
Example load_config_undecodable :
  load_config BODE_FACTORY_DEFAULTS (Unloadable UnicodeDecodeError)
  = Raises UnicodeDecodeError.
Proof. reflexivity. Qed.

End ConfigFileSpec.

Module CsvSpec.
Import Csv.

Section Rows.
Context {A : Type} (d : A).

Lemma write_rows_in_range (freq second third : list A) (indices : list nat) :
  (forall i, In i indices ->
     (i < List.length freq)%nat /\ (i < List.length second)%nat
     /\ (i < List.length third)%nat) ->
  write_rows freq second third indices =
    (map (row_at d freq second third) indices, None).
Proof.
  induction indices as [|i rest IH]; intro Hin; [reflexivity|].
  cbn [write_rows map].
  destruct (Hin i (or_introl eq_refl)) as (Hf & Hs & Ht).
  rewrite (nth_error_nth' freq d Hf), (nth_error_nth' second d Hs),
    (nth_error_nth' third d Ht).
  rewrite IH by (intros j Hj; apply Hin; right; exact Hj). reflexivity.
Qed.

Lemma write_rows_breaks (freq second third : list A) (k : nat) :
  forall start,
    (start + k <= List.length freq)%nat ->
    (start <= Nat.min (List.length second) (List.length third)
     < start + k)%nat ->
    write_rows freq second third (seq start k) =
      (map (row_at d freq second third)
         (seq start (Nat.min (List.length second) (List.length third) - start)),
       Some IndexError).
Proof.
  induction k as [|k IH]; intros start Hfreq Hshort; [lia|].
  cbn [seq write_rows].
  destruct (Nat.eq_dec start (Nat.min (List.length second) (List.length third)))
    as [Heq|Hne].
  - rewrite <- Heq, Nat.sub_diag. cbn [seq map].
    assert (Hout : nth_error second start = None \/ nth_error third start = None).
    { destruct (Nat.min_dec (List.length second) (List.length third)) as [Hm|Hm];
        [left|right]; apply nth_error_None; lia. }
    destruct (nth_error freq start); [|reflexivity].
    destruct Hout as [-> | ->]; [reflexivity|].
    destruct (nth_error second start); reflexivity.
  - assert (Hf : (start < List.length freq)%nat) by lia.
    assert (Hs : (start < List.length second)%nat) by lia.
    assert (Ht : (start < List.length third)%nat) by lia.
    rewrite (nth_error_nth' freq d Hf), (nth_error_nth' second d Hs),
      (nth_error_nth' third d Ht).
    rewrite (IH (S start)) by lia.
    replace (Nat.min (List.length second) (List.length third) - start)%nat
      with (S (Nat.min (List.length second) (List.length third) - S start))
      by lia.
    reflexivity.
Qed.

(** X19. What is saved.  When the file can be opened and the other two
    lists are at least as long as the list of frequencies, both programs
    write the header and one row per frequency, in order, and raise
    nothing.  When one of the two lists is shorter, the file holds the
    header and only the rows up to the shorter list; the Bode plotter then
    returns as if nothing had happened, while the spectrum analyzer lets
    the [IndexError] through.  When the file cannot be opened, nothing is
    written and neither program raises. *)
Theorem save_data_to_csv_rows (can_open : bool) (freq second third : list A) :
  let complete :=
    (List.length freq <=? Nat.min (List.length second) (List.length third))%nat in
  let rows :=
    map (row_at d freq second third)
      (seq 0 (if complete then List.length freq
              else Nat.min (List.length second) (List.length third))) in
  let bode := bode_save_data_to_csv can_open freq second third in
  let spectrum := spectrum_save_data_to_csv can_open freq second third in
  raised bode = None /\
  raised spectrum = (if can_open && negb complete then Some IndexError
                     else None) /\
  if can_open then
    (exists header, content bode = Some (header :: rows)) /\
    (exists header, content spectrum = Some (header :: rows))
  else content bode = None /\ content spectrum = None.
Proof.
  cbv zeta. unfold bode_save_data_to_csv, spectrum_save_data_to_csv, write_file.
  destruct can_open; cbn [andb]; [|repeat split].
  destruct (List.length freq <=? Nat.min (List.length second) (List.length third))%nat
    eqn:Hcomplete.
  - apply Nat.leb_le in Hcomplete.
    rewrite (write_rows_in_range freq second third)
      by (intros i Hi; apply in_seq in Hi; lia).
    cbn [content raised negb]. split; [reflexivity|]. split; [reflexivity|].
    split; eexists; reflexivity.
  - apply Nat.leb_gt in Hcomplete.
    rewrite (write_rows_breaks freq second third (List.length freq) 0%nat)
      by lia.
    rewrite Nat.sub_0_r. cbn [content raised negb].
    split; [reflexivity|]. split; [reflexivity|].
    split; eexists; reflexivity.
Qed.

End Rows.

Section Sweep.
Context `{Py.Runtime}.

(** X20. The results of a sweep are saved in full.  Whatever
    [run_full_experiment] returns, [save_data_to_csv] writes, when the
    file can be opened, the header and exactly one row per recorded point,
    holding its frequency, magnitude and phase: the three lists have the
    same length, so no point is left out of the file. *)
Theorem sweep_results_are_saved_in_full (env : Bode.surroundings)
    (cfg c : Bode.config) (s : Bode.sweep_state) (fs ms ps : list Q) :
  fst (Bode.run_full_experiment env cfg s) = Py.Ok (fs, ms, ps, c) ->
  content (bode_save_data_to_csv true fs ms ps) =
    Some ([Label "Frequency (Hz)"; Label "Magnitude (dB)";
           Label "Phase (deg)"]
          :: map (row_at 0%Q fs ms ps) (seq 0 (List.length fs))).
Proof.
  intro Hret.
  destruct (SweepMore.run_returns_what_the_loop_left env cfg c s fs ms ps Hret)
    as (_ & freq_list & s0 & _ & Hempty & Hleft).
  destruct (SweepMore.point_loop_records env cfg (Bode.enumerate freq_list) s0)
    as (fs' & (ms' & ps' & Hgrow & Hm & Hp) & _).
  rewrite Hleft, Hempty in Hgrow. cbn [fst snd app] in Hgrow.
  injection Hgrow as Hfs Hms Hps. subst fs' ms' ps'.
  unfold bode_save_data_to_csv, write_file.
  rewrite (write_rows_in_range 0%Q fs ms ps)
    by (intros i Hi; apply in_seq in Hi; lia).
  reflexivity.
Qed.

End Sweep.

Lemma sweep_results_are_saved_in_full_witness :
  exists rows,
    content (bode_save_data_to_csv true
               [1000 + inject_Z 0 * ((10000 - 1000) / inject_Z (2 - 1))]%Q
               [20 * 0]%Q
               [Bode.phase_deg 0.0
                  (1000 + inject_Z 0 * ((10000 - 1000) / inject_Z (2 - 1)))]%Q)
    = Some rows /\ List.length rows = 2%nat.
Proof.
  eexists. split.
  - apply (sweep_results_are_saved_in_full (H := Fixtures.table_runtime)
             Fixtures.interrupted_second_point Fixtures.two_point_sweep
             Fixtures.two_point_sweep Fixtures.fresh_sweep).
    vm_compute. reflexivity.
  - reflexivity.
Defined.

End CsvSpec.

Module FilesSpec.
Import Files.
Local Open Scope string_scope.

Section NextFilename.
Variable join : string -> string -> string.
Variable path_exists : string -> bool.
Variables directory prefix extension : string.

#[local] Abbreviation full_path :=
  (full_path join directory prefix extension).
#[local] Abbreviation probe :=
  (probe join path_exists directory prefix extension).

(** Whatever the loop returns is the path of the first number from [i]
    on whose file does not exist. *)
Lemma probe_returns (fuel : nat) :
  forall i p,
    probe fuel i = Some p ->
    exists j,
      (i <= j < i + fuel)%nat /\ p = full_path j /\
      path_exists p = false /\
      forall k, (i <= k < j)%nat -> path_exists (full_path k) = true.
Proof.
  induction fuel as [|fuel IH]; intros i p; cbn [Files.probe]; [discriminate|].
  destruct (path_exists (full_path i)) eqn:Hi; cbn [negb].
  - intro Hp. destruct (IH _ _ Hp) as (j & Hj & Hpath & Hfree & Hbelow).
    exists j. split; [lia|]. split; [exact Hpath|]. split; [exact Hfree|].
    intros k Hk. destruct (Nat.eq_dec k i) as [->|Hne]; [exact Hi|].
    apply Hbelow. lia.
  - intro Hp. injection Hp as <-. exists i. split; [lia|].
    split; [reflexivity|]. split; [exact Hi|]. intros k Hk. lia.
Qed.

(** The loop returns within [fuel] turns when one of the next [fuel]
    numbers is free. *)
Lemma probe_finds (fuel : nat) :
  forall i j,
    (i <= j < i + fuel)%nat -> path_exists (full_path j) = false ->
    exists p, probe fuel i = Some p.
Proof.
  induction fuel as [|fuel IH]; intros i j Hj Hfree; [lia|].
  cbn [Files.probe].
  destruct (path_exists (full_path i)) eqn:Hi; cbn [negb];
    [|eexists; reflexivity].
  apply (IH (i + 1)%nat j); [|exact Hfree].
  destruct (Nat.eq_dec j i) as [->|Hne]; [congruence|lia].
Qed.

(** X21. The next file name.  In a directory that holds finitely many
    files, and with names that differ from one number to the next, the
    loop of [get_next_filename] ends after at most one turn more than
    there are files; the path it returns does not exist, and its number is
    the smallest one from 1 on that is free, so that a gap left by a
    deleted file is filled before the numbering goes on. *)
Theorem get_next_filename_is_smallest_free (files : list string) :
  (forall p, path_exists p = true -> In p files) ->
  NoDup (map full_path (seq 1 (S (List.length files)))) ->
  exists j,
    (1 <= j <= S (List.length files))%nat /\
    get_next_filename join path_exists directory prefix extension
      (S (List.length files)) = Some (full_path j) /\
    path_exists (full_path j) = false /\
    forall k, (1 <= k < j)%nat -> path_exists (full_path k) = true.
Proof.
  intros Hfinite Hdistinct. unfold get_next_filename.
  assert (Hfree : exists j, (1 <= j < 1 + S (List.length files))%nat /\
                            path_exists (full_path j) = false).
  { destruct (existsb (fun j => negb (path_exists (full_path j)))
                (seq 1 (S (List.length files)))) eqn:Hsome.
    - apply existsb_exists in Hsome. destruct Hsome as (j & Hj & Hfree).
      apply in_seq in Hj. exists j. split; [lia|].
      destruct (path_exists (full_path j)); [discriminate|reflexivity].
    - exfalso.
      assert (Hall : incl (map full_path (seq 1 (S (List.length files)))) files).
      { intros p Hp. apply in_map_iff in Hp. destruct Hp as (j & <- & Hj).
        apply Hfinite.
        destruct (path_exists (full_path j)) eqn:Hpj; [reflexivity|].
        exfalso.
        assert (Hex : existsb (fun j => negb (path_exists (full_path j)))
                        (seq 1 (S (List.length files))) = true).
        { apply existsb_exists. exists j. split; [exact Hj|].
          rewrite Hpj. reflexivity. }
        congruence. }
      pose proof (NoDup_incl_length Hdistinct Hall) as Hlen.
      rewrite length_map, length_seq in Hlen. lia. }
  destruct Hfree as (j0 & Hj0 & Hfree0).
  destruct (probe_finds _ 1%nat j0 Hj0 Hfree0) as [p Hp].
  destruct (probe_returns _ _ _ Hp) as (j & Hj & Hpath & Hfree & Hbelow).
  exists j. split; [lia|]. rewrite Hp, Hpath.
  split; [reflexivity|]. split; [rewrite <- Hpath; exact Hfree|exact Hbelow].
Qed.

End NextFilename.

Lemma get_next_filename_is_smallest_free_witness :
  exists j,
    get_next_filename (fun d f => d ++ "/" ++ f)
      (String.eqb "DATA/BODE_data_001.csv") "DATA" "BODE_data" ".csv" 2
    = Some (Files.full_path (fun d f => d ++ "/" ++ f)
              "DATA" "BODE_data" ".csv" j)
    /\ String.eqb "DATA/BODE_data_001.csv"
         (Files.full_path (fun d f => d ++ "/" ++ f)
            "DATA" "BODE_data" ".csv" j) = false.
Proof.
  destruct (get_next_filename_is_smallest_free (fun d f => d ++ "/" ++ f)
              (String.eqb "DATA/BODE_data_001.csv") "DATA" "BODE_data" ".csv"
              ["DATA/BODE_data_001.csv"])
    as (j & _ & Hret & Hfree & _).
  - intros p Hp. apply String.eqb_eq in Hp. left. exact Hp.
  - repeat constructor; cbn; intuition discriminate.
  - exists j. split; [exact Hret|exact Hfree].
Defined.

End FilesSpec.

Module ProgramSpec.
Import Py PyFacts Eff EffFacts Bench BenchFacts Bode SweepFacts Vocabulary.
Import Program.
Local Open Scope Q_scope.
Local Open Scope string_scope.

Lemma generator_on_app (was : bool) (t1 t2 : list event) :
  generator_on was (t1 ++ t2)%list = generator_on (generator_on was t1) t2.
Proof.
  revert was. induction t1 as [|e t1 IH]; intro was; [reflexivity|].
  cbn [app generator_on].
  destruct e as [[]|c| | | |]; try apply IH.
  destruct (String.eqb state "ON"); [apply IH|].
  destruct (String.eqb state "OFF"); apply IH.
Qed.

(** An observation of an observation that is kept is kept. *)
Lemma keeps_compose {S L K A : Type} (f : S -> L) (g : L -> K) (m : M S A) :
  keeps f m -> keeps (fun s => g (f s)) m.
Proof. intros Hm s. rewrite (Hm s). reflexivity. Qed.

Lemma keeps_gen_query (what : string) : keeps bench_links (gen_query what).
Proof. intro b. unfold gen_query. destruct (gen_link b); reflexivity. Qed.

Lemma keeps_scope_query (what : string) : keeps bench_links (scope_query what).
Proof. intro b. unfold scope_query. destruct (scope_link b); reflexivity. Qed.

Lemma keeps_gen_link_scope_connect (reachable : bool) :
  keeps gen_link (scope_connect reachable).
Proof.
  intro b. unfold scope_connect.
  destruct (scope_link b); [reflexivity|]. destruct reachable; reflexivity.
Qed.

Lemma keeps_gen_link_on_bench {A : Type} (m : M bench A) :
  keeps gen_link m ->
  keeps (fun s : sweep_state => gen_link (instruments s)) (on_bench m).
Proof.
  intro Hm. unfold on_bench.
  apply (keeps_zoom gen_link instruments set_instruments m); [|exact Hm].
  intros b s. reflexivity.
Qed.

(** A handler that catches everything and returns: the statement returns. *)
Lemma caught {S : Type} (m : M S unit) (s : S) :
  fst (try_except m (fun _ => true) (fun _ => ret tt) s) = Ok tt.
Proof.
  unfold try_except. destruct (m s) as [[[]|e] s1]; reflexivity.
Qed.

Section Main.
Context `{Runtime}.

Lemma keeps_run_full_experiment (env : surroundings) (cfg : config) :
  keeps sweep_links (run_full_experiment env cfg).
Proof.
  unfold run_full_experiment, sweep_and_clean_up.
  pose proof keeps_point_loop as Hloop.
  assert (Hoff : keeps sweep_links generator_off)
    by (unfold generator_off; keeps_tac; apply keeps_on_bench; keeps_tac).
  assert (Hrestore : keeps sweep_links restore_scope)
    by (unfold restore_scope; keeps_tac; apply keeps_on_bench; keeps_tac).
  assert (Hsetup : keeps sweep_links (on_bench (setup_initial_state cfg)))
    by (apply keeps_on_bench; unfold setup_initial_state; keeps_tac).
  assert (Hstart : keeps sweep_links (on_bench start_scope))
    by (apply keeps_on_bench; unfold start_scope; keeps_tac).
  keeps_tac. apply keeps_modify. intro s. reflexivity.
Qed.

Lemma keeps_turns (rounds : list round) : keeps sweep_links (turns rounds).
Proof.
  unfold turns. apply keeps_for_loop. intros r []. unfold turn.
  pose proof keeps_run_full_experiment as Hrun.
  keeps_tac.
Qed.

(** Once the generator is connected, the rest of the [try] leaves it
    connected. *)
Lemma rest_of_try_keeps_generator (scope_reachable : bool)
    (rounds : list round) :
  keeps (fun s : sweep_state => gen_link (instruments s))
    (bind (on_bench (gen_query "*IDN?")) (fun _ =>
     bind (on_bench (scope_connect scope_reachable)) (fun _ =>
     bind (on_bench (Program.scope_query "*IDN?")) (fun _ =>
     bind (on_bench (Program.scope_query "*RST")) (fun _ =>
     bind (on_bench (sleep 2.0)) (fun _ => turns rounds)))))).
Proof.
  assert (Hlinks : forall A (m : M bench A),
            keeps bench_links m ->
            keeps (fun s : sweep_state => gen_link (instruments s))
              (on_bench m)).
  { intros A m Hm. apply keeps_gen_link_on_bench.
    exact (keeps_compose bench_links fst m Hm). }
  repeat (apply keeps_bind; [|intros _]).
  - apply Hlinks, keeps_gen_query.
  - apply keeps_gen_link_on_bench, keeps_gen_link_scope_connect.
  - apply Hlinks, keeps_scope_query.
  - apply Hlinks, keeps_scope_query.
  - apply Hlinks, keeps_sleep.
  - exact (keeps_compose sweep_links fst _ (keeps_turns rounds)).
Qed.

(** What the [finally] clause does, from the connections it finds. *)
Lemma disconnect_all_run (s : sweep_state) :
  exists s',
    disconnect_all s = (Ok tt, s') /\
    sweep_links s' = (false, false) /\
    sweep_trace s' =
      (sweep_trace s
       ++ (if gen_link (instruments s)
           then [ToGen (SetOutputState "OFF")] else [])
       ++ (if scope_link (instruments s)
           then [ToScope (TriggerMode "AUTO")] else []))%list.
Proof.
  destruct s as [[t g sc] rf rm rp].
  destruct g, sc; eexists; (split; [reflexivity|]);
    (split; [reflexivity|]); unfold sweep_trace; cbn;
    rewrite <- ?app_assoc, ?app_nil_r; reflexivity.
Qed.

(** X22. The program always leaves the instruments.  Started with the
    two drivers not yet connected, [main] never lets an exception out and
    ends with both connections closed, whatever the user answers, whatever
    the instruments read and however many experiments are run.  When the
    generator cannot be reached, nothing is sent to either instrument.
    When it can, the generator output is off when the program ends: the
    [finally] clause switches it off even after a sweep that raised before
    switching it off itself. *)
Theorem main_always_leaves_the_instruments
    (gen_reachable scope_reachable : bool) (rounds : list round)
    (s : sweep_state) :
  sweep_links s = (false, false) ->
  let final := snd (main gen_reachable scope_reachable rounds s) in
  fst (main gen_reachable scope_reachable rounds s) = Ok tt /\
  sweep_links final = (false, false) /\
  (gen_reachable = false -> sweep_trace final = sweep_trace s) /\
  (gen_reachable = true ->
   forall was, generator_on was (sweep_trace final) = false).
Proof.
  intro Hfresh. cbv zeta. unfold main.
  set (body := try_except _ (fun _ => true) (fun _ => ret tt)).
  pose proof (caught _ s : fst (body s) = Ok tt) as Hbody.
  unfold try_finally.
  destruct (body s) as [r s1] eqn:Hs1. cbn [fst] in Hbody. subst r.
  destruct (disconnect_all_run s1) as (s2 & Hclean & Hlinks & Htrace).
  rewrite Hclean. cbn [fst snd].
  split; [reflexivity|]. split; [exact Hlinks|].
  assert (Hg : gen_link (instruments s) = false)
    by (unfold sweep_links, bench_links in Hfresh; congruence).
  assert (Hsc : scope_link (instruments s) = false)
    by (unfold sweep_links, bench_links in Hfresh; congruence).
  split.
  - intros ->. rewrite Htrace.
    assert (Hs : s1 = set_instruments (instruments s) s).
    { subst body. unfold try_except, bind, on_bench, zoom, gen_connect in Hs1.
      rewrite Hg in Hs1. cbv beta iota in Hs1. cbn [ret] in Hs1.
      injection Hs1 as <-. reflexivity. }
    subst s1. cbn [instruments set_instruments].
    rewrite Hg, Hsc, !app_nil_r. reflexivity.
  - intros -> was. rewrite Htrace.
    assert (Hup : gen_link (instruments s1) = true).
    { subst body. unfold try_except in Hs1.
      set (s0 := set_instruments
                   {| trace := trace (instruments s); gen_link := true;
                      scope_link := scope_link (instruments s) |} s).
      assert (Hconnect : on_bench (gen_connect true) s = (Ok tt, s0)).
      { unfold on_bench, zoom, gen_connect. rewrite Hg. reflexivity. }
      rewrite (bind_ok _ _ _ _ _ Hconnect) in Hs1.
      pose proof (rest_of_try_keeps_generator scope_reachable rounds s0)
        as Hrest.
      cbv beta in Hrest.
      destruct (bind (on_bench (gen_query "*IDN?")) _ s0) as [[[]|e] s3];
        cbn [snd ret] in Hrest, Hs1;
        injection Hs1 as <-; exact Hrest. }
    rewrite Hup, generator_on_app.
    destruct (scope_link (instruments s1)); reflexivity.
Qed.

End Main.

(** A configuration with a negative number of points: the sweep raises
    after the setup has switched the generator on, and the program still
    ends with the generator off. *)
Lemma main_always_leaves_the_instruments_witness :
  generator_on true
    (sweep_trace
       (snd (main (H := Fixtures.table_runtime) true true
               [ {| dialogue :=
                      Ok ({| f_start := 1000; f_stop := 10000;
                             num_points := -1; scale := "lin";
                             num_averages := 1; gen_amplitude_vpp := 1.0 |},
                          true);
                    during_sweep := steady_surroundings;
                    saving := Ok tt;
                    restarting := Ok tt |} ]
               (sweep_with_links false false))))
  = false.
Proof.
  apply (main_always_leaves_the_instruments (H := Fixtures.table_runtime)
           true true
           [ {| dialogue :=
                  Ok ({| f_start := 1000; f_stop := 10000;
                         num_points := -1; scale := "lin";
                         num_averages := 1; gen_amplitude_vpp := 1.0 |},
                      true);
                during_sweep := steady_surroundings;
                saving := Ok tt;
                restarting := Ok tt |} ]
           (sweep_with_links false false)); reflexivity.
Defined.

End ProgramSpec.
